(** * Bilibili live-status monitor: the polling core of [main.py]

    A shallow embedding of [BiliLiveNoticePlugin] (src/main.py): the batch
    status fetcher, the per-identifier transition detection and backoff
    bookkeeping of one polling cycle, the adaptive interval, the loop's
    failure containment, the two notification senders and the add command.

    Conventions of the embedding.
    - JSON values received from the network (and cached) are values of
      [json]; a Python dict read from JSON is an association list in
      insertion order, with unique keys.
    - The dictionaries owned by the plugin whose iteration order is never
      observed ([live_status_cache], [uid_error_counts], [uid_skip_until],
      the batch result) are [gmap]s; the registry [monitored_uids] is
      iterated, so it is an ordered association list.
    - The monotonic clock is a float in the source; here it is a rational
      and [now + d] is exact.
    - Code that can raise runs in a small state-and-exception monad [py].
      Task cancellation ([asyncio.CancelledError], which no
      [except Exception] catches) enters only in the loop, where the
      environment can inject it at the awaits; the fetcher and the senders
      are modelled for the requests and deliveries that are not
      cancelled.
    - A handler and an iteration of the loop are modelled as they run by
      themselves.  What other handlers do while one of them awaits is
      represented where a statement depends on it: the command lookups
      answered between the fetch of a cycle and its interval update
      ([cycle_body_among]), and the changes of the registry during the
      requests of [list_monitors] ([registry_change]). *)

From Stdlib Require Import ZArith QArith Lqa Lia String Ascii List Bool.
From stdpp Require Import gmap strings list fin_maps pretty.

Set Warnings "-register-all".

Open Scope Z_scope.
Open Scope string_scope.

(** ** JSON values and the Python operations used on them *)

Inductive json : Type :=
| JNull
| JBool (b : bool)
| JInt (n : Z)
| JFloat (q : Q)
| JStr (s : string)
| JList (l : list json)
| JDict (d : list (string * json)).

(** A Python [dict] with string keys, in insertion order. *)
Definition pydict (V : Type) : Type := list (string * V).

Fixpoint dict_lookup {V} (d : pydict V) (k : string) : option V :=
  match d with
  | [] => None
  | (k', v) :: d' => if decide (k' = k) then Some v else dict_lookup d' k
  end.

(** [d[k] = v]: replaces the value in place, or appends a new item. *)
Fixpoint dict_set {V} (d : pydict V) (k : string) (v : V) : pydict V :=
  match d with
  | [] => [(k, v)]
  | (k', v') :: d' =>
      if decide (k' = k) then (k, v) :: d' else (k', v') :: dict_set d' k v
  end.

Definition dict_keys {V} (d : pydict V) : list string := map fst d.

(** [d.get(k, dflt)] and [d.get(k)] on a dict of JSON values. *)
Definition dict_get_or (d : pydict json) (k : string) (dflt : json) : json :=
  match dict_lookup d k with Some v => v | None => dflt end.

Definition dict_get (d : pydict json) (k : string) : json :=
  dict_get_or d k JNull.

(** Truth value of a JSON value, as tested by [if v:] and [not v]. *)
Definition truthy (v : json) : bool :=
  match v with
  | JNull => false
  | JBool b => b
  | JInt n => negb (n =? 0)%Z
  | JFloat q => negb (Qeq_bool q 0)
  | JStr s => negb (String.eqb s "")
  | JList l => match l with [] => false | _ => true end
  | JDict d => match d with [] => false | _ => true end
  end.

(** [v == n] for an integer literal [n]: numbers compare by value, [True]
    and [False] are the integers 1 and 0, everything else is unequal. *)
Definition py_eq_int (v : json) (n : Z) : bool :=
  match v with
  | JInt m => (m =? n)%Z
  | JBool b => ((if b then 1 else 0) =? n)%Z
  | JFloat q => Qeq_bool q (inject_Z n)
  | _ => false
  end.

(** [a or b] *)
Definition py_or (a b : json) : json := if truthy a then a else b.

(** The three builtins whose full behaviour is not modelled: whether
    [int(s)] accepts a string, [s.isdigit()], and [repr] of a float, a
    list or a dict. *)
Class builtins : Type := {
  int_ok : string -> bool;
  isdigit : string -> bool;
  py_repr : json -> string
}.

(** ** The state-and-exception monad *)

(** What a [raise] carries: an [Exception] (any subclass), or the
    [CancelledError] asyncio throws into a cancelled task, which is a
    [BaseException] and passes through [except Exception]. *)
Inductive exn : Type := Exception | CancelledError.

Inductive outcome (A : Type) : Type :=
| Returned (a : A)
| Raised (e : exn).
Arguments Returned {A} a.
Arguments Raised {A} e.

Definition py (S A : Type) : Type := S -> outcome A * S.

Definition py_ret {S A} (a : A) : py S A := fun s => (Returned a, s).

Definition py_raise {S A} (e : exn) : py S A := fun s => (Raised e, s).

Definition py_bind {S A B} (c : py S A) (k : A -> py S B) : py S B :=
  fun s => match c s with
           | (Returned a, s') => k a s'
           | (Raised e, s') => (Raised e, s')
           end.

Definition py_get {S} : py S S := fun s => (Returned s, s).

Definition py_modify {S} (f : S -> S) : py S unit := fun s => (Returned tt, f s).

(** [try: c  except Exception: handler] *)
Definition try_except {S A} (c : py S A) (handler : py S A) : py S A :=
  fun s => match c s with
           | (Raised Exception, s') => handler s'
           | r => r
           end.

(** [try: c  finally: f] *)
Definition try_finally {S A} (c : py S A) (f : py S unit) : py S A :=
  fun s => match c s with
           | (o, s') => match f s' with
                        | (Returned _, s'') => (o, s'')
                        | (Raised e, s'') => (Raised e, s'')
                        end
           end.

#[global] Instance py_mret {S} : MRet (py S) := fun A a => py_ret a.
#[global] Instance py_mbind {S} : MBind (py S) := fun A B k c => py_bind c k.

(** [for x in l: body x] *)
Fixpoint for_each {S A} (l : list A) (body : A -> py S unit) : py S unit :=
  match l with
  | [] => py_ret tt
  | x :: l' => body x ;; for_each l' body
  end.

(** Runs a computation on a component [T] of the state [S]. *)
Definition py_lift {S T A} (proj : S -> T) (upd : T -> S -> S) (c : py T A)
  : py S A :=
  fun s => match c (proj s) with (o, t) => (o, upd t s) end.

(** ** Builtins for the examples *)

(** An instance for identifiers written in ASCII: [int] and [isdigit]
    accept the non-empty strings of decimal digits (for [int], within the
    interpreter's digit limit).  [py_repr] is only a placeholder here and
    is not exercised where this instance is used. *)
Definition ascii_digit (c : ascii) : bool :=
  (48 <=? nat_of_ascii c)%nat && (nat_of_ascii c <=? 57)%nat.

Fixpoint all_digits (s : string) : bool :=
  match s with
  | EmptyString => true
  | String c s' => ascii_digit c && all_digits s'
  end.

Definition digit_string (s : string) : bool :=
  negb (String.eqb s "") && all_digits s.

Definition ascii_builtins : builtins :=
  {| int_ok := digit_string; isdigit := digit_string;
     py_repr := fun _ => "" |}.

Section Plugin.

Context {py_builtins : builtins}.

(** [str(v)] *)
Definition py_str (v : json) : string :=
  match v with
  | JNull => "None"
  | JBool true => "True"
  | JBool false => "False"
  | JInt n => pretty n
  | JStr s => s
  | _ => py_repr v
  end.

(** ** get_live_status_batch *)

(** What the network gives back to one [session.post]: the session or the
    request raised (connection error, timeout), or a response arrived with
    a status and a body; [body = None] when [response.json()] raises. *)
Inductive http_result : Type :=
| ConnectionError
| Response (status : Z) (body : option json).

(** A status record is a dict with keys live_status, room_id, title,
    uname. *)
Definition zero_status : pydict json :=
  [("live_status", JInt 0); ("room_id", JInt 0); ("title", JStr "");
   ("uname", JStr "")].

Definition status_of (rec : pydict json) : pydict json :=
  [("live_status", dict_get_or rec "live_status" (JInt 0));
   ("room_id", dict_get_or rec "room_id" (JInt 0));
   ("title", dict_get_or rec "title" (JStr ""));
   ("uname", dict_get_or rec "uname" (JStr ""))].

(** The state the fetch works on: its local [result_map] and the plugin's
    [_last_rate_limited] flag. *)
Record fetch_state : Type := {
  result_map : gmap string (pydict json);
  rate_flag : bool
}.

Definition set_result (u : string) (st : pydict json) : py fetch_state unit :=
  py_modify (fun s => {| result_map := <[u := st]> (result_map s);
                         rate_flag := rate_flag s |}).

Definition set_flag (b : bool) : py fetch_state unit :=
  py_modify (fun s => {| result_map := result_map s; rate_flag := b |}).

(** The branch for [data] being a dict keyed by uid.  A truthy value that
    is not a dict has no [get]: AttributeError. *)
Definition fill_from_dict (data_obj : pydict json) (uids : list string)
  : py fetch_state unit :=
  for_each uids (fun u =>
    let user_data := dict_get data_obj u in
    if truthy user_data then
      match user_data with
      | JDict rec => set_result u (status_of rec)
      | _ => py_raise Exception
      end
    else py_ret tt).

(** The branch for [data] being a list of records: first index them by
    their uid (or mid), then look every requested uid up. *)
Fixpoint index_by_uid (entries : list json) (by_uid : gmap string (pydict json))
  : outcome (gmap string (pydict json)) :=
  match entries with
  | [] => Returned by_uid
  | JDict entry :: rest =>
      let uid_val :=
        py_str (py_or (py_or (dict_get entry "uid") (dict_get entry "mid"))
                      (JStr "")) in
      if negb (String.eqb uid_val "")
      then index_by_uid rest (<[uid_val := entry]> by_uid)
      else index_by_uid rest by_uid
  | _ :: _ => Raised Exception
  end.

Definition fill_from_list (data_obj : list json) (uids : list string)
  : py fetch_state unit :=
  match index_by_uid data_obj ∅ with
  | Raised e => py_raise e
  | Returned by_uid =>
      for_each uids (fun u =>
        match by_uid !! u with
        | Some entry =>
            if truthy (JDict entry) then set_result u (status_of entry)
            else py_ret tt
        | None => py_ret tt
        end)
  end.

(** The body of the [try]. *)
Definition fetch_try (r : http_result) (uids : list string)
  : py fetch_state unit :=
  if negb (forallb int_ok uids) then py_raise Exception else
  match r with
  | ConnectionError => py_raise Exception
  | Response status body =>
      if (status =? 200)%Z then
        match body with
        | None => py_raise Exception
        | Some (JDict b) =>
            if py_eq_int (dict_get b "code") 0 then
              set_flag false ;;
              match dict_get_or b "data" (JDict []) with
              | JDict data_obj => fill_from_dict data_obj uids
              | JList data_obj => fill_from_list data_obj uids
              | _ => py_ret tt
              end
            else py_ret tt
        | Some _ => py_raise Exception
        end
      else if (status =? 429)%Z then set_flag true
      else py_ret tt
  end.

(** The [finally]: default records for what was not returned. *)
Definition fill_defaults (uids : list string) : py fetch_state unit :=
  for_each uids (fun u =>
    s ← py_get;
    match result_map s !! u with
    | Some _ => py_ret tt
    | None => set_result u zero_status
    end).

Definition get_live_status_batch (r : http_result) (uids : list string)
  : py bool (gmap string (pydict json)) :=
  fun flag =>
    let c :=
      try_finally
        (try_except (fetch_try r uids) (py_ret tt))
        (fill_defaults uids) ;;
      s ← py_get; py_ret (result_map s) in
    match c {| result_map := ∅; rate_flag := flag |} with
    | (o, s) => (o, rate_flag s)
    end.

(** Whether the request was answered by HTTP 200 with application code 0. *)
Definition is_success (r : http_result) : bool :=
  match r with
  | Response status (Some (JDict b)) =>
      (status =? 200)%Z && py_eq_int (dict_get b "code") 0
  | _ => false
  end.

(** The record a successful response holds for [u], if any: the non-empty
    dict under key [u] of a keyed [data], or the last non-empty record of a
    listed [data] whose uid (or mid) prints as [u]. *)
Definition upstream_record (r : http_result) (u : string)
  : option (pydict json) :=
  match r with
  | Response _ (Some (JDict b)) =>
      if is_success r then
        match dict_get_or b "data" (JDict []) with
        | JDict data_obj =>
            match dict_get data_obj u with
            | JDict (x :: rec) => Some (x :: rec)
            | _ => None
            end
        | JList data_obj =>
            match index_by_uid data_obj ∅ with
            | Returned by_uid =>
                match by_uid !! u with
                | Some (x :: rec) => Some (x :: rec)
                | _ => None
                end
            | Raised _ => None
            end
        | _ => None
        end
      else None
  | _ => None
  end.

(** ** get_live_status *)

Definition get_live_status (r : http_result) (uid : string)
  : py bool (pydict json) :=
  try_except
    (batch ← get_live_status_batch r [uid];
     match batch !! uid with
     | Some st => py_ret st
     | None => py_ret zero_status
     end)
    (py_ret zero_status).

(** ** The plugin's state *)

(** One entry of [monitored_uids]. [unified_msg_origin] is the value read
    back by [monitor_info.get], [JNull] when the key is missing. *)
Record monitor_info : Type := {
  uname : json;
  room_id : json;
  added_by : string;
  added_time : Q;
  unified_msg_origin : json
}.

Record plugin : Type := {
  check_interval : Z;
  max_monitors : Z;
  enable_notifications : bool;
  enable_end_notifications : bool;
  monitored_uids : pydict monitor_info;
  live_status_cache : gmap string json;
  uid_error_counts : gmap string Z;
  uid_skip_until : gmap string Q;
  current_interval : Z;
  _last_rate_limited : bool
}.

Definition set_monitored_uids (v : pydict monitor_info) (p : plugin) : plugin :=
  {| check_interval := check_interval p; max_monitors := max_monitors p;
     enable_notifications := enable_notifications p;
     enable_end_notifications := enable_end_notifications p;
     monitored_uids := v;
     live_status_cache := live_status_cache p;
     uid_error_counts := uid_error_counts p;
     uid_skip_until := uid_skip_until p;
     current_interval := current_interval p;
     _last_rate_limited := _last_rate_limited p |}.

Definition set_live_status_cache (v : gmap string json) (p : plugin) : plugin :=
  {| check_interval := check_interval p; max_monitors := max_monitors p;
     enable_notifications := enable_notifications p;
     enable_end_notifications := enable_end_notifications p;
     monitored_uids := monitored_uids p;
     live_status_cache := v;
     uid_error_counts := uid_error_counts p;
     uid_skip_until := uid_skip_until p;
     current_interval := current_interval p;
     _last_rate_limited := _last_rate_limited p |}.

Definition set_backoff (c : gmap string Z) (k : gmap string Q) (p : plugin)
  : plugin :=
  {| check_interval := check_interval p; max_monitors := max_monitors p;
     enable_notifications := enable_notifications p;
     enable_end_notifications := enable_end_notifications p;
     monitored_uids := monitored_uids p;
     live_status_cache := live_status_cache p;
     uid_error_counts := c;
     uid_skip_until := k;
     current_interval := current_interval p;
     _last_rate_limited := _last_rate_limited p |}.

Definition set_current_interval (v : Z) (p : plugin) : plugin :=
  {| check_interval := check_interval p; max_monitors := max_monitors p;
     enable_notifications := enable_notifications p;
     enable_end_notifications := enable_end_notifications p;
     monitored_uids := monitored_uids p;
     live_status_cache := live_status_cache p;
     uid_error_counts := uid_error_counts p;
     uid_skip_until := uid_skip_until p;
     current_interval := v;
     _last_rate_limited := _last_rate_limited p |}.

Definition set_last_rate_limited (v : bool) (p : plugin) : plugin :=
  {| check_interval := check_interval p; max_monitors := max_monitors p;
     enable_notifications := enable_notifications p;
     enable_end_notifications := enable_end_notifications p;
     monitored_uids := monitored_uids p;
     live_status_cache := live_status_cache p;
     uid_error_counts := uid_error_counts p;
     uid_skip_until := uid_skip_until p;
     current_interval := current_interval p;
     _last_rate_limited := v |}.

(** The state as [__init__] leaves it, for a configuration
    (check_interval, max_monitors and the two flags). *)
Definition init_plugin (interval maxm : Z) (notify notify_end : bool) : plugin :=
  {| check_interval := interval; max_monitors := maxm;
     enable_notifications := notify;
     enable_end_notifications := notify_end;
     monitored_uids := [];
     live_status_cache := ∅;
     uid_error_counts := ∅;
     uid_skip_until := ∅;
     current_interval := interval;
     _last_rate_limited := false |}.

(** What the loop does to the outside, in order.  [SendLive] and [SendEnd]
    record the calls of the two senders, [Delivered] a
    [context.send_message] that returned, [LogError] the [logger.error] of
    a sender's handler (its text up to the exception's own message),
    [Sleep] an [asyncio.sleep].  Other log lines are not recorded. *)
Inductive effect : Type :=
| SendLive (uid : string)
| SendEnd (uid : string)
| Delivered (target : json) (message : string)
| LogError (text : string)
| Sleep (seconds : Z).

(** The loop's state: the plugin, the local [consecutive_errors], and the
    effects so far. *)
Record loop_state : Type := {
  plug : plugin;
  consecutive_errors : Z;
  trace : list effect
}.

Definition emit (e : effect) : py loop_state unit :=
  py_modify (fun s => {| plug := plug s;
                         consecutive_errors := consecutive_errors s;
                         trace := trace s ++ [e] |}).

Definition update_plugin (f : plugin -> plugin) : py loop_state unit :=
  py_modify (fun s => {| plug := f (plug s);
                         consecutive_errors := consecutive_errors s;
                         trace := trace s |}).

Definition set_consecutive_errors (n : Z) : py loop_state unit :=
  py_modify (fun s => {| plug := plug s;
                         consecutive_errors := n;
                         trace := trace s |}).

(** The state with more effects appended. *)
Definition push (s : loop_state) (evs : list effect) : loop_state :=
  {| plug := plug s;
     consecutive_errors := consecutive_errors s;
     trace := trace s ++ evs |}.

Definition with_flag {A} (c : py bool A) : py plugin A :=
  py_lift _last_rate_limited set_last_rate_limited c.

Definition with_plugin {A} (c : py plugin A) : py loop_state A :=
  py_lift plug (fun p s => {| plug := p;
                              consecutive_errors := consecutive_errors s;
                              trace := trace s |}) c.

(** ** The notification senders *)

Definition nl : string := String (ascii_of_nat 10) EmptyString.

(** [context.send_message]: returns, or raises when delivery fails. *)
Definition send_message (ok : bool) (target : json) (message : string)
  : py loop_state unit :=
  if ok then emit (Delivered target message) else py_raise Exception.

Definition send_live_notification (ok : bool) (uid : string)
  (status_info : pydict json) (info : monitor_info) : py loop_state unit :=
  emit (SendLive uid) ;;
  try_except
    (s ← py_get;
     if negb (enable_notifications (plug s)) then py_ret tt else
     let uname := dict_get_or status_info "uname" (JStr "未知UP主") in
     let title := dict_get_or status_info "title" (JStr "无标题") in
     let room_id := dict_get_or status_info "room_id" (JInt 0) in
     let message :=
       "🔴 " ++ py_str uname ++ " 开播啦！" ++ nl ++
       "📺 直播标题: " ++ py_str title ++ nl ++
       "🔗 直播间: https://live.bilibili.com/" ++ py_str room_id in
     let target := unified_msg_origin info in
     if truthy target then send_message ok target message
     else py_ret tt)
    (emit (LogError "发送开播通知失败")).

Definition send_end_notification (ok : bool) (uid : string)
  (status_info : pydict json) (info : monitor_info) : py loop_state unit :=
  emit (SendEnd uid) ;;
  try_except
    (s ← py_get;
     if negb (enable_notifications (plug s))
        || negb (enable_end_notifications (plug s)) then py_ret tt else
     let uname := dict_get_or status_info "uname" (JStr "未知UP主") in
     let message := "⚫ " ++ py_str uname ++ " 已结束直播" in
     let target := unified_msg_origin info in
     if truthy target then send_message ok target message
     else py_ret tt)
    (emit (LogError "发送关播通知失败")).

(** ** One polling cycle *)

(** Where the environment can interrupt a cycle: before the fetch returns,
    before the [k]-th registry item is processed, or in the sleep and the
    interval arithmetic that end the cycle.  The typed embedding cannot
    itself raise there; a corrupted persisted state or an overflow can, and
    a cancellation arrives at the awaits. *)
Inductive fault_point : Type := AtStart | InLoop (k : nat) | AtSleep.

#[global] Instance fault_point_eq_dec : EqDecision fault_point.
Proof. solve_decision. Defined.

(** What the environment supplies to one iteration of the loop. *)
Record cycle_env : Type := {
  env_now : Q;
  env_http : http_result;
  env_deliver : string -> bool;
  env_fault : option (fault_point * exn);
  env_handler_cancelled : bool
}.

Definition interrupt (env : cycle_env) (pt : fault_point) : py loop_state unit :=
  match env_fault env with
  | Some (pt', e) => if decide (pt' = pt) then py_raise e else py_ret tt
  | None => py_ret tt
  end.

Definition synthetic_status : pydict json := [("live_status", JInt 0)].

Definition is_live (v : json) : bool := py_eq_int v 1.

(** [is_empty] of line 236: no name and room 0. *)
Definition is_empty (current_status : pydict json) : bool :=
  negb (truthy (dict_get current_status "uname"))
  && py_eq_int (dict_get_or current_status "room_id" (JInt 0)) 0.

Definition backoff_delay (cnt : Z) : Z := Z.min 300 (30 * cnt).

(** The backoff bookkeeping of lines 236-243. *)
Definition record_backoff (uid : string) (current_status : pydict json)
  (now : Q) (p : plugin) : plugin :=
  if is_empty current_status then
    let cnt := default 0 (uid_error_counts p !! uid) + 1 in
    set_backoff (<[uid := cnt]> (uid_error_counts p))
                (<[uid := (now + inject_Z (backoff_delay cnt))%Q]>
                   (uid_skip_until p)) p
  else
    set_backoff (delete uid (uid_error_counts p))
                (delete uid (uid_skip_until p)) p.

(** The body of the [for uid, info in monitored_copy.items()] loop. *)
Definition process_uid (env : cycle_env) (now : Q)
  (status_map : gmap string (pydict json)) (item : string * monitor_info)
  : py loop_state unit :=
  let '(uid, info) := item in
  s ← py_get;
  let current_status := default synthetic_status (status_map !! uid) in
  let previous_status := default (JInt 0) (live_status_cache (plug s) !! uid) in
  (if is_live (dict_get current_status "live_status")
      && negb (is_live previous_status)
   then send_live_notification (env_deliver env uid) uid current_status info
   else py_ret tt) ;;
  (if is_live previous_status
      && negb (is_live (dict_get current_status "live_status"))
   then send_end_notification (env_deliver env uid) uid current_status info
   else py_ret tt) ;;
  update_plugin (fun p =>
    set_live_status_cache
      (<[uid := dict_get_or current_status "live_status" (JInt 0)]>
         (live_status_cache p)) p) ;;
  update_plugin (record_backoff uid current_status now).

Fixpoint process_items (env : cycle_env) (now : Q)
  (status_map : gmap string (pydict json)) (k : nat)
  (items : pydict monitor_info) : py loop_state unit :=
  match items with
  | [] => py_ret tt
  | item :: rest =>
      interrupt env (InLoop k) ;;
      process_uid env now status_map item ;;
      process_items env now status_map (S k) rest
  end.

(** The identifiers whose skip deadline has passed (line 217). *)
Definition eligible (p : plugin) (now : Q) (uid : string) : bool :=
  Qle_bool (default 0%Q (uid_skip_until p !! uid)) now.

Definition cycle_uids (p : plugin) (now : Q) : list string :=
  filter (fun uid => eligible p now uid = true) (dict_keys (monitored_uids p)).

(** Lines 251-255.  [int(x * 0.75)] truncates toward zero; the float
    product is exact for every interval below 2^51 in absolute value. *)
Definition interval_update (base cur : Z) (rate_limited : bool) : Z :=
  if rate_limited then Z.min 300 (Z.max base (cur * 2))
  else Z.max base (Z.quot (cur * 3) 4).

Definition sleep (env : cycle_env) (seconds : Z) : py loop_state unit :=
  emit (Sleep seconds) ;; interrupt env AtSleep.

(** The body of the [try] in the [while True] (lines 207-255). *)
Definition cycle_body (env : cycle_env) : py loop_state unit :=
  s ← py_get;
  match monitored_uids (plug s) with
  | [] => sleep env (check_interval (plug s))
  | _ :: _ =>
      let monitored_copy := monitored_uids (plug s) in
      let now := env_now env in
      let uids := cycle_uids (plug s) now in
      interrupt env AtStart ;;
      status_map ← with_plugin (with_flag (get_live_status_batch (env_http env) uids));
      process_items env now status_map 0 monitored_copy ;;
      set_consecutive_errors 0 ;;
      s1 ← py_get;
      sleep env (current_interval (plug s1)) ;;
      update_plugin (fun p =>
        set_current_interval
          (interval_update (check_interval p) (current_interval p)
                           (_last_rate_limited p)) p)
  end.

(** ** The loop and its failure containment *)

(** The [except Exception] clause of the loop (lines 260-270). *)
Definition on_exception (env : cycle_env) : py loop_state unit :=
  s ← py_get;
  let n := consecutive_errors s + 1 in
  set_consecutive_errors n ;;
  emit (Sleep (if (5 <=? n)%Z then Z.min 300 (60 * n)
               else current_interval (plug s))) ;;
  if env_handler_cancelled env then py_raise CancelledError else py_ret tt.

(** How one iteration of [while True] ends. *)
Inductive control : Type :=
| Continue
| Break
| Propagated (e : exn).

Definition loop_iter (env : cycle_env) (s : loop_state) : control * loop_state :=
  match cycle_body env s with
  | (Returned _, s') => (Continue, s')
  | (Raised CancelledError, s') => (Break, s')
  | (Raised Exception, s') =>
      match on_exception env s' with
      | (Returned _, s'') => (Continue, s'')
      | (Raised e, s'') => (Propagated e, s'')
      end
  end.

Fixpoint run_loop (envs : list cycle_env) (s : loop_state)
  : control * loop_state :=
  match envs with
  | [] => (Continue, s)
  | env :: rest =>
      match loop_iter env s with
      | (Continue, s') => run_loop rest s'
      | stopped => stopped
      end
  end.

(** [monitor_live_status], run against the environments of its first
    iterations. *)
Definition monitor_live_status (envs : list cycle_env) (p : plugin)
  : control * loop_state :=
  run_loop envs {| plug := p; consecutive_errors := 0; trace := [] |}.

(** ** add_monitor *)

(** A command event: [message_str.strip().split()], the sender's name and
    the origin of the message. *)
Record message_event : Type := {
  message_args : list string;
  sender_name : string;
  event_origin : string
}.

Inductive reply : Type :=
| ReplyUsage
| ReplyNotDigit
| ReplyLimit
| ReplyNotFound (uid : string)
| ReplyAdded (name : json) (uid : string)
| ReplyFailed.

Definition add_monitor (r : http_result) (now : Q) (event : message_event)
  : py plugin reply :=
  try_except
    (match message_args event with
     | _ :: uid :: _ =>
         if negb (isdigit uid) then py_ret ReplyNotDigit else
         p ← py_get;
         if (max_monitors p <=? Z.of_nat (length (monitored_uids p)))%Z
         then py_ret ReplyLimit else
         status_info ← with_flag (get_live_status r uid);
         if negb (truthy (dict_get status_info "uname"))
         then py_ret (ReplyNotFound uid) else
         py_modify (fun p =>
           set_monitored_uids
             (dict_set (monitored_uids p) uid
                {| uname := dict_get_or status_info "uname" (JStr "");
                   room_id := dict_get_or status_info "room_id" (JInt 0);
                   added_by := sender_name event;
                   added_time := now;
                   unified_msg_origin := JStr (event_origin event) |}) p) ;;
         match dict_lookup status_info "live_status" with
         | None => py_raise Exception
         | Some v =>
             py_modify (fun p =>
               set_live_status_cache (<[uid := v]> (live_status_cache p)) p)
         end ;;
         py_ret (ReplyAdded (dict_get_or status_info "uname" (JStr "未知UP主")) uid)
     | _ => py_ret ReplyUsage
     end)
    (py_ret ReplyFailed).

(** ** Observations used in the statements *)

(** Every binding of the fetch's [result_map] is for a requested
    identifier and comes from the upstream record for it. *)
Definition from_upstream (r : http_result) (uids : list string)
  (s : fetch_state) : Prop :=
  ∀ u st, result_map s !! u = Some st →
    u ∈ uids ∧ ∃ rec, upstream_record r u = Some rec ∧ st = status_of rec.

(** The status map a cycle works with, and the status record it uses for
    an identifier: the fetched one, or the default of line 221. *)
Definition cycle_status_map (env : cycle_env) (p : plugin)
  : gmap string (pydict json) :=
  match get_live_status_batch (env_http env) (cycle_uids p (env_now env))
                              (_last_rate_limited p) with
  | (Returned m, _) => m
  | (Raised _, _) => ∅
  end.

Definition cycle_status (env : cycle_env) (p : plugin) (uid : string)
  : pydict json :=
  default synthetic_status (cycle_status_map env p !! uid).

(** The plugin after the per-identifier loop has handled one item: the
    cache write of line 233 and the bookkeeping of lines 236-243. *)
Definition apply_status (now : Q) (status_map : gmap string (pydict json))
  (p : plugin) (item : string * monitor_info) : plugin :=
  let cur := default synthetic_status (status_map !! item.1) in
  record_backoff item.1 cur now
    (set_live_status_cache
       (<[item.1 := dict_get_or cur "live_status" (JInt 0)]>
          (live_status_cache p)) p).

(** The fields a cycle's per-identifier loop never writes. *)
Definition static_fields (p : plugin)
  : Z * Z * bool * bool * pydict monitor_info * Z * bool :=
  (check_interval p, max_monitors p, enable_notifications p,
   enable_end_notifications p, monitored_uids p, current_interval p,
   _last_rate_limited p).

(** Every skip deadline was set at or before time [t], from a positive
    count that is still the recorded one: what the loop leaves behind when
    its last cycle ran at [t]. *)
Definition backoff_inv (t : Q) (p : plugin) : Prop :=
  (∀ uid c, uid_error_counts p !! uid = Some c → 1 <= c) ∧
  (∀ uid d, uid_skip_until p !! uid = Some d →
     ∃ c, uid_error_counts p !! uid = Some c ∧
          (d <= t + inject_Z (backoff_delay c))%Q).

(** The environment of a cycle with another delivery oracle. *)
Definition with_deliver (deliver : string -> bool) (env : cycle_env)
  : cycle_env :=
  {| env_now := env_now env; env_http := env_http env;
     env_deliver := deliver; env_fault := env_fault env;
     env_handler_cancelled := env_handler_cancelled env |}.

(** The interval after a sequence of cycles, given for each whether its
    update saw the rate-limit flag set; it starts at the base. *)
Definition interval_after (base : Z) (signals : list bool) : Z :=
  fold_left (interval_update base) signals base.

(** The value of [_last_rate_limited] after a fetch: set by a 429, cleared
    by a 200 with application code 0, otherwise left as it was (also when
    some [int(u)] raised before the request was sent). *)
Definition signal_after (r : http_result) (uids : list string) (flag : bool)
  : bool :=
  if negb (forallb int_ok uids) then flag
  else match r with
       | Response status _ =>
           if is_success r then false
           else if (status =? 429)%Z then true else flag
       | ConnectionError => flag
       end.

(** No cancellation reaches the loop in this iteration. *)
Definition not_cancelled (env : cycle_env) : Prop :=
  env_handler_cancelled env = false ∧
  ∀ pt, env_fault env ≠ Some (pt, CancelledError).

(** ** remove_monitor, check_live, list_monitors and the switches *)

(** [del d[k]] on a dict that holds [k]. *)
Fixpoint dict_del {V} (d : pydict V) (k : string) : pydict V :=
  match d with
  | [] => []
  | (k', v) :: d' => if decide (k' = k) then d' else (k', v) :: dict_del d' k
  end.

Definition set_enable_notifications (v : bool) (p : plugin) : plugin :=
  {| check_interval := check_interval p; max_monitors := max_monitors p;
     enable_notifications := v;
     enable_end_notifications := enable_end_notifications p;
     monitored_uids := monitored_uids p;
     live_status_cache := live_status_cache p;
     uid_error_counts := uid_error_counts p;
     uid_skip_until := uid_skip_until p;
     current_interval := current_interval p;
     _last_rate_limited := _last_rate_limited p |}.

Definition set_enable_end_notifications (v : bool) (p : plugin) : plugin :=
  {| check_interval := check_interval p; max_monitors := max_monitors p;
     enable_notifications := enable_notifications p;
     enable_end_notifications := v;
     monitored_uids := monitored_uids p;
     live_status_cache := live_status_cache p;
     uid_error_counts := uid_error_counts p;
     uid_skip_until := uid_skip_until p;
     current_interval := current_interval p;
     _last_rate_limited := _last_rate_limited p |}.

(** What [monitor_config.json] decodes to: each of the four keys may be
    missing.  A file is taken to hold values of the types the plugin
    itself writes. *)
Record saved_data : Type := {
  saved_monitored_uids : option (pydict monitor_info);
  saved_live_status_cache : option (gmap string json);
  saved_enable_notifications : option bool;
  saved_enable_end_notifications : option bool
}.

(** A path: no file, a file that cannot be read as a JSON object ([open]
    or [json.load] raises, or the value has no [get]), or a file that
    decodes to [d]. *)
Inductive file_state : Type :=
| Absent
| Corrupt
| Holds (d : saved_data).

(** The plugin with the two paths [load_config] looks at. *)
Record store : Type := {
  core : plugin;
  config_file : file_state;
  legacy_file : file_state
}.

Definition set_core (p : plugin) (st : store) : store :=
  {| core := p; config_file := config_file st; legacy_file := legacy_file st |}.

Definition set_config_file (f : file_state) (st : store) : store :=
  {| core := core st; config_file := f; legacy_file := legacy_file st |}.

Definition with_core {A} (c : py plugin A) : py store A :=
  py_lift core set_core c.

(** How one write of the config file goes: it succeeds; [open] raises and
    the file stays as it was; or [json.dump] raises after [open] has
    truncated the file. *)
Inductive write_outcome : Type := Written | OpenFails | DumpFails.

Definition snapshot (p : plugin) : saved_data :=
  {| saved_monitored_uids := Some (monitored_uids p);
     saved_live_status_cache := Some (live_status_cache p);
     saved_enable_notifications := Some (enable_notifications p);
     saved_enable_end_notifications := Some (enable_end_notifications p) |}.

Definition save_config (w : write_outcome) : py store unit :=
  try_except
    (st ← py_get;
     match w with
     | Written => py_modify (set_config_file (Holds (snapshot (core st))))
     | OpenFails => py_raise Exception
     | DumpFails => py_modify (set_config_file Corrupt) ;; py_raise Exception
     end)
    (py_ret tt).

(** The four assignments of [load_config] from the decoded [data]. *)
Definition apply_saved (d : saved_data) (p : plugin) : plugin :=
  set_enable_end_notifications
    (default (enable_end_notifications p) (saved_enable_end_notifications d))
    (set_enable_notifications
       (default (enable_notifications p) (saved_enable_notifications d))
       (set_live_status_cache (default ∅ (saved_live_status_cache d))
          (set_monitored_uids (default [] (saved_monitored_uids d)) p))).

Definition load_config (w : write_outcome) : py store unit :=
  try_except
    (st ← py_get;
     match config_file st with
     | Holds d => py_modify (fun st => set_core (apply_saved d (core st)) st)
     | Corrupt => py_raise Exception
     | Absent =>
         match legacy_file st with
         | Holds d =>
             py_modify (fun st => set_core (apply_saved d (core st)) st) ;;
             save_config w
         | Corrupt => py_raise Exception
         | Absent => py_ret tt
         end
     end)
    (py_ret tt).

(** [add_monitor] with the [save_config] it awaits between the cache
    write and the reply. *)
Definition add_monitor_cmd (w : write_outcome) (r : http_result) (now : Q)
  (event : message_event) : py store reply :=
  rp ← with_core (add_monitor r now event);
  match rp with
  | ReplyAdded _ _ => save_config w ;; py_ret rp
  | _ => py_ret rp
  end.

Inductive remove_reply : Type :=
| RemoveUsage
| RemoveNotDigit
| Removed (uid : string)
| NotMonitored (uid : string)
| RemoveFailed.

Definition remove_monitor (w : write_outcome) (event : message_event)
  : py store remove_reply :=
  try_except
    (match message_args event with
     | _ :: uid :: _ =>
         if negb (isdigit uid) then py_ret RemoveNotDigit else
         st ← py_get;
         match dict_lookup (monitored_uids (core st)) uid with
         | Some _ =>
             with_core (py_modify (fun p =>
               set_monitored_uids (dict_del (monitored_uids p) uid) p)) ;;
             with_core (py_modify (fun p =>
               match live_status_cache p !! uid with
               | Some _ =>
                   set_live_status_cache (delete uid (live_status_cache p)) p
               | None => p
               end)) ;;
             save_config w ;;
             py_ret (Removed uid)
         | None => py_ret (NotMonitored uid)
         end
     | _ => py_ret RemoveUsage
     end)
    (py_ret RemoveFailed).

Inductive check_reply : Type :=
| CheckUsage
| CheckNotDigit
| CheckNotFound (uid : string)
| CheckLive (name title room : json)
| CheckOffline (name : json)
| CheckFailed.

Definition check_live (r : http_result) (event : message_event)
  : py plugin check_reply :=
  try_except
    (match message_args event with
     | _ :: uid :: _ =>
         if negb (isdigit uid) then py_ret CheckNotDigit else
         status_info ← with_flag (get_live_status r uid);
         if negb (truthy (dict_get status_info "uname"))
         then py_ret (CheckNotFound uid) else
         let uname := dict_get_or status_info "uname" (JStr "未知UP主") in
         let live_status := dict_get_or status_info "live_status" (JInt 0) in
         if py_eq_int live_status 1 then
           py_ret (CheckLive uname
                     (dict_get_or status_info "title" (JStr "无标题"))
                     (dict_get_or status_info "room_id" (JInt 0)))
         else py_ret (CheckOffline uname)
     | _ => py_ret CheckUsage
     end)
    (py_ret CheckFailed).

(** One line of the list: the fetched name, the uid, and whether the
    fetched live_status equals 1. *)
Record monitor_line : Type := {
  line_name : json;
  line_uid : string;
  line_live : bool
}.

Inductive list_reply : Type :=
| ListEmpty
| ListOf (lines : list monitor_line)
| ListFailed.

(** [list_monitors] iterates over [self.monitored_uids.items()], the dict
    itself and not a copy, and awaits a request in every step.  What the
    other handlers did to the registry while a request was awaited, as far
    as the iterator can tell: nothing, or a change of its size (an add of a
    new identifier, a remove), after which the next step of the iterator
    raises RuntimeError.  A change that leaves the size as it was (a
    remove and an add during the same await) is not represented: what the
    iterator yields after it is not fixed by the language. *)
Inductive registry_change : Type := Unchanged | SizeChanged.

(** The loop of [list_monitors]; every identifier has its own request,
    answered by [fetch uid], and [changes uid] tells what happened to the
    registry while it was awaited.  The plugin state is the one that
    [list_monitors] itself writes. *)
Fixpoint list_lines (fetch : string -> http_result)
  (changes : string -> registry_change)
  (items : pydict monitor_info) : py plugin (list monitor_line) :=
  match items with
  | [] => py_ret []
  | (uid, _) :: rest =>
      status_info ← with_flag (get_live_status (fetch uid) uid);
      match changes uid with
      | SizeChanged => py_raise Exception
      | Unchanged =>
          lines ← list_lines fetch changes rest;
          py_ret ({| line_name := dict_get_or status_info "uname" (JStr "未知UP主");
                     line_uid := uid;
                     line_live := py_eq_int (dict_get status_info "live_status") 1 |}
                  :: lines)
      end
  end.

Definition list_monitors (fetch : string -> http_result)
  (changes : string -> registry_change) : py plugin list_reply :=
  try_except
    (p ← py_get;
     match monitored_uids p with
     | [] => py_ret ListEmpty
     | _ :: _ =>
         lines ← list_lines fetch changes (monitored_uids p);
         py_ret (ListOf lines)
     end)
    (py_ret ListFailed).

Inductive switch_reply : Type := SwitchDone | SwitchFailed.

(** The four commands that set a flag and save. *)
Definition enable_notify_cmd (w : write_outcome) : py store switch_reply :=
  try_except
    (with_core (py_modify (set_enable_notifications true)) ;;
     save_config w ;; py_ret SwitchDone)
    (py_ret SwitchFailed).

Definition disable_notify_cmd (w : write_outcome) : py store switch_reply :=
  try_except
    (with_core (py_modify (set_enable_notifications false)) ;;
     save_config w ;; py_ret SwitchDone)
    (py_ret SwitchFailed).

Definition enable_end_notify_cmd (w : write_outcome) : py store switch_reply :=
  try_except
    (with_core (py_modify (set_enable_end_notifications true)) ;;
     save_config w ;; py_ret SwitchDone)
    (py_ret SwitchFailed).

Definition disable_end_notify_cmd (w : write_outcome) : py store switch_reply :=
  try_except
    (with_core (py_modify (set_enable_end_notifications false)) ;;
     save_config w ;; py_ret SwitchDone)
    (py_ret SwitchFailed).

(** ** Start-up and shutdown *)

(** [self.session]: [None], an open session, or a closed one. *)
Inductive session_state : Type := NoSession | OpenSession | ClosedSession.

(** [self.monitor_task]: [None], a task that runs, or one that is done. *)
Inductive task_state : Type := NoTask | TaskRunning | TaskDone.

Record host : Type := {
  disk : store;
  session : session_state;
  monitor_task : task_state;
  _initialized : bool
}.

Definition set_disk (v : store) (h : host) : host :=
  {| disk := v; session := session h; monitor_task := monitor_task h;
     _initialized := _initialized h |}.

Definition set_session (v : session_state) (h : host) : host :=
  {| disk := disk h; session := v; monitor_task := monitor_task h;
     _initialized := _initialized h |}.

Definition set_monitor_task (v : task_state) (h : host) : host :=
  {| disk := disk h; session := session h; monitor_task := v;
     _initialized := _initialized h |}.

Definition set_initialized (v : bool) (h : host) : host :=
  {| disk := disk h; session := session h; monitor_task := monitor_task h;
     _initialized := v |}.

Definition with_disk {A} (c : py store A) : py host A :=
  py_lift disk set_disk c.

(** How [session.close()] goes: it returns, or it raises and leaves the
    session closed or not. *)
Inductive close_outcome : Type :=
| Closes
| CloseRaises (closed_after : bool).

(** What the environment decides during start-up and shutdown: whether
    creating the session and the task succeeds, how a write of the config
    file goes, how closing the session goes. *)
Record lifecycle_env : Type := {
  session_created : bool;
  task_created : bool;
  config_write : write_outcome;
  session_close : close_outcome
}.

Definition ensure_session (lenv : lifecycle_env) : py host unit :=
  h ← py_get;
  match session h with
  | OpenSession => py_ret tt
  | _ => if session_created lenv then py_modify (set_session OpenSession)
         else py_raise Exception
  end.

Definition _cleanup_resources (lenv : lifecycle_env) : py host unit :=
  try_except
    ((h ← py_get;
      match monitor_task h with
      | TaskRunning => py_modify (set_monitor_task NoTask)
      | _ => py_ret tt
      end) ;;
     h ← py_get;
     match session h with
     | OpenSession =>
         match session_close lenv with
         | Closes => py_modify (set_session NoSession)
         | CloseRaises closed_after =>
             py_modify (set_session
                          (if closed_after then ClosedSession else OpenSession)) ;;
             py_raise Exception
         end
     | _ => py_ret tt
     end)
    (py_ret tt).

Definition initialize (lenv : lifecycle_env) : py host unit :=
  h ← py_get;
  if _initialized h then py_ret tt else
  try_except
    (ensure_session lenv ;;
     with_disk (load_config (config_write lenv)) ;;
     (h ← py_get;
      match monitor_task h with
      | TaskRunning => py_ret tt
      | _ => if task_created lenv then py_modify (set_monitor_task TaskRunning)
             else py_raise Exception
      end) ;;
     py_modify (set_initialized true))
    (_cleanup_resources lenv ;; py_raise Exception).

Definition terminate (lenv : lifecycle_env) : py host unit :=
  try_except
    ((h ← py_get;
      match monitored_uids (core (disk h)) with
      | [] => py_ret tt
      | _ :: _ => with_disk (save_config (config_write lenv))
      end) ;;
     _cleanup_resources lenv)
    (try_except (_cleanup_resources lenv) (py_ret tt)).

(** The dict of [get_plugin_status]; [x and not y] is [None] when [x] is. *)
Record status_report : Type := {
  session_active : option bool;
  monitor_task_running : option bool;
  monitored_count : nat;
  config_file_exists : bool
}.

Definition get_plugin_status (h : host) : status_report :=
  {| session_active :=
       match session h with
       | NoSession => None
       | OpenSession => Some true
       | ClosedSession => Some false
       end;
     monitor_task_running :=
       match monitor_task h with
       | NoTask => None
       | TaskRunning => Some true
       | TaskDone => Some false
       end;
     monitored_count := length (monitored_uids (core (disk h)));
     config_file_exists :=
       match config_file (disk h) with Absent => false | _ => true end |}.

(** The object [__init__] leaves behind, before [initialize] has run. *)
Definition init_host (interval maxm : Z) (notify notify_end : bool)
  (config legacy : file_state) : host :=
  {| disk := {| core := init_plugin interval maxm notify notify_end;
                config_file := config; legacy_file := legacy |};
     session := NoSession; monitor_task := NoTask; _initialized := false |}.

(** The record [get_live_status] returns for a response. *)
Definition fetched_status (r : http_result) (uid : string) : pydict json :=
  match get_live_status r uid false with
  | (Returned st, _) => st
  | (Raised _, _) => zero_status
  end.

(** ** The writes of the loop, one at a time *)

(** Every state change the loop makes is one of these: a sleep is
    recorded, the fetch leaves the flag, the counter is set, the interval
    is updated, or one registry item is handled. *)
Inductive loop_step : loop_state -> loop_state -> Prop :=
| step_sleep s d : loop_step s (push s [Sleep d])
| step_fetch s f :
    loop_step s {| plug := set_last_rate_limited f (plug s);
                   consecutive_errors := consecutive_errors s;
                   trace := trace s |}
| step_counter s n :
    loop_step s {| plug := plug s; consecutive_errors := n; trace := trace s |}
| step_interval s :
    loop_step s {| plug := set_current_interval
                             (interval_update (check_interval (plug s))
                                              (current_interval (plug s))
                                              (_last_rate_limited (plug s)))
                             (plug s);
                   consecutive_errors := consecutive_errors s;
                   trace := trace s |}
| step_uid env now sm item s :
    loop_step s (process_uid env now sm item s).2.

(** The sender calls for [uid] in a trace, in order: [true] for
    send_live_notification, [false] for send_end_notification. *)
Definition call_of (uid : string) (e : effect) : option bool :=
  match e with
  | SendLive u => if String.eqb u uid then Some true else None
  | SendEnd u => if String.eqb u uid then Some false else None
  | _ => None
  end.

Definition calls (uid : string) (tr : list effect) : list bool :=
  omap (call_of uid) tr.

(** Replays sender calls from a live-ness: a call is in order when it
    reports the opposite of the live-ness before it; the result is the
    live-ness after the last call. *)
Fixpoint replay (live : bool) (l : list bool) : option bool :=
  match l with
  | [] => Some live
  | b :: l' => if Bool.eqb b live then None else replay b l'
  end.

(** The live-ness the cache holds for [uid]. *)
Definition cached_live (p : plugin) (uid : string) : bool :=
  is_live (default (JInt 0) (live_status_cache p !! uid)).

(** ** Command lookups while the loop is suspended *)

(** A lookup that a command handler ([add_monitor], [list_monitors],
    [check_live]) makes through [get_live_status] for [c.2] and that is
    answered by [c.1] while the loop is suspended.  Of what the handlers
    write, the interval update of lines 251-255 reads only
    [_last_rate_limited], and only a fetch writes it (lines 156 and 187);
    this is the write the loop state records here. *)
Definition command_lookup (c : http_result * string) : py loop_state unit :=
  with_plugin (with_flag (get_live_status c.1 c.2)) ;; py_ret tt.

(** [await asyncio.sleep(seconds)] during which the lookups [meanwhile]
    are answered, in this order. *)
Definition sleep_among (env : cycle_env) (meanwhile : list (http_result * string))
  (seconds : Z) : py loop_state unit :=
  emit (Sleep seconds) ;;
  for_each meanwhile command_lookup ;;
  interrupt env AtSleep.

(** The body of the [try] (lines 207-255) with the command lookups that
    are answered between the fetch of the cycle and the read of
    [_last_rate_limited] at line 251.  The loop does not read the flag in
    between, so it makes no difference at which of its awaits (a delivery,
    the sleep) they are answered; they are all put in the sleep.  A lookup
    answered before the fetch of the cycle is part of the state the cycle
    starts from. *)
Definition cycle_body_among (env : cycle_env)
  (meanwhile : list (http_result * string)) : py loop_state unit :=
  s ← py_get;
  match monitored_uids (plug s) with
  | [] => sleep_among env meanwhile (check_interval (plug s))
  | _ :: _ =>
      let monitored_copy := monitored_uids (plug s) in
      let now := env_now env in
      let uids := cycle_uids (plug s) now in
      interrupt env AtStart ;;
      status_map ← with_plugin (with_flag (get_live_status_batch (env_http env) uids));
      process_items env now status_map 0 monitored_copy ;;
      set_consecutive_errors 0 ;;
      s1 ← py_get;
      sleep_among env meanwhile (current_interval (plug s1)) ;;
      update_plugin (fun p =>
        set_current_interval
          (interval_update (check_interval p) (current_interval p)
                           (_last_rate_limited p)) p)
  end.

End Plugin.

(** * Example data

    A registry with one entry, responses for it, and environments of
    cycles; used by the concrete instances at the end. *)

Definition alice : monitor_info :=
  {| uname := JStr "Alice"; room_id := JInt 999; added_by := "bob";
     added_time := 10; unified_msg_origin := JStr "group:1" |}.

Definition plugin1 : plugin :=
  set_monitored_uids [("123", alice)] (init_plugin 60 50 true true).

(** The loop state [monitor_live_status] starts from. *)
Definition start (p : plugin) : loop_state :=
  {| plug := p; consecutive_errors := 0; trace := [] |}.

(** A successful response that holds a full record for "123". *)
Definition status_body (live : Z) : json :=
  JDict [("code", JInt 0);
         ("data",
          JDict [("123",
                  JDict [("live_status", JInt live); ("room_id", JInt 999);
                         ("title", JStr "hello"); ("uname", JStr "Alice")])])].

(** A cycle at time [now] that nothing interrupts and whose deliveries
    succeed. *)
Definition quiet (now : Q) (r : http_result) : cycle_env :=
  {| env_now := now; env_http := r; env_deliver := fun _ => true;
     env_fault := None; env_handler_cancelled := false |}.

(** A cycle in which an Exception is raised before the fetch. *)
Definition failing (now : Q) : cycle_env :=
  {| env_now := now; env_http := ConnectionError; env_deliver := fun _ => true;
     env_fault := Some (AtStart, Exception); env_handler_cancelled := false |}.

(** "123" was live with an empty record at time 0: cached 1, one empty
    result counted, to be skipped until time 30. *)
Definition skipped_plugin : plugin :=
  set_backoff {["123" := 1]} {["123" := 30%Q]}
    (set_live_status_cache {["123" := JInt 1]} plugin1).

(** A cycle like [quiet] in which every delivery fails. *)
Definition undeliverable (now : Q) (r : http_result) : cycle_env :=
  with_deliver (fun _ => false) (quiet now r).

(** The add command for "123", sent by carol at time 20. *)
Definition add_123 : message_event :=
  {| message_args := ["/添加监控"; "123"]; sender_name := "carol";
     event_origin := "group:2" |}.

(** The effects that record a call of a sender. *)
Definition sender_call (e : effect) : bool :=
  match e with
  | SendLive _ | SendEnd _ => true
  | _ => false
  end.

(** "123" cached as live, nothing counted against it. *)
Definition live_plugin : plugin :=
  set_live_status_cache {["123" := JInt 1]} plugin1.

(** A plugin with no config file and no legacy file yet. *)
Definition store_of (p : plugin) : store :=
  {| core := p; config_file := Absent; legacy_file := Absent |}.

(** The remove command and the check command for "123". *)
Definition remove_123 : message_event :=
  {| message_args := ["/移除监控"; "123"]; sender_name := "carol";
     event_origin := "group:2" |}.

Definition check_123 : message_event :=
  {| message_args := ["/检查直播"; "123"]; sender_name := "dave";
     event_origin := "group:3" |}.

(** A legacy file that holds a registry and one of the two flags. *)
Definition legacy1 : saved_data :=
  {| saved_monitored_uids := Some [("123", alice)];
     saved_live_status_cache := None;
     saved_enable_notifications := Some false;
     saved_enable_end_notifications := None |}.

(** A start-up or shutdown in which everything succeeds, and one in which
    the session cannot be created. *)
Definition lenv_ok : lifecycle_env :=
  {| session_created := true; task_created := true; config_write := Written;
     session_close := Closes |}.

Definition lenv_no_session : lifecycle_env :=
  {| session_created := false; task_created := true; config_write := Written;
     session_close := Closes |}.

(** The plugin object while it runs with state [p]. *)
Definition running (p : plugin) : host :=
  {| disk := store_of p; session := OpenSession; monitor_task := TaskRunning;
     _initialized := true |}.

(** * Properties *)

Section Properties.

Context {py_builtins : builtins}.


Ltac py_unfold :=
  unfold mbind, mret, py_mbind, py_mret, py_bind, py_ret, py_raise, py_get,
    py_modify, try_except, try_finally, py_lift in *.

(** ** Loops in the monad *)

Lemma for_each_cons {S A} (x : A) (l : list A) (body : A -> py S unit) s :
  for_each (x :: l) body s =
  match body x s with
  | (Returned _, s') => for_each l body s'
  | (Raised e, s') => (Raised e, s')
  end.
Proof. reflexivity. Qed.

(** A property of the state that every iteration keeps is kept by the
    loop, however it ends. *)
Lemma for_each_inv {S A} (P : S -> Prop) (l : list A) (body : A -> py S unit) :
  (∀ x s, x ∈ l → P s → P (snd (body x s))) →
  ∀ s, P s → P (snd (for_each l body s)).
Proof.
  induction l as [|x l IH]; intros Hbody s Hs; [exact Hs|].
  rewrite for_each_cons.
  pose proof (Hbody x s ltac:(left) Hs) as Hx.
  destruct (body x s) as [[[]|e] s']; simpl in *; [|exact Hx].
  apply IH; [|exact Hx].
  intros y t Hy. apply Hbody. by right.
Qed.

Lemma for_each_no_cancel {S A} (l : list A) (body : A -> py S unit) :
  (∀ x s, fst (body x s) ≠ Raised CancelledError) →
  ∀ s, fst (for_each l body s) ≠ Raised CancelledError.
Proof.
  intros Hbody. induction l as [|x l IH]; intros s; [done|].
  rewrite for_each_cons. specialize (Hbody x s).
  destruct (body x s) as [[[]|e] s']; simpl in *; [apply IH | done].
Qed.

(** ** The batch fetcher *)

Lemma fill_from_dict_inv r status b data_obj uids s :
  r = Response status (Some (JDict b)) →
  is_success r = true →
  dict_get_or b "data" (JDict []) = JDict data_obj →
  from_upstream r uids s →
  from_upstream r uids (snd (fill_from_dict data_obj uids s)).
Proof.
  intros Hr Hok Hdata. unfold fill_from_dict.
  apply (for_each_inv (from_upstream r uids)).
  intros u t Hu Ht. cbv zeta.
  destruct (truthy (dict_get data_obj u)) eqn:Htr; [|exact Ht].
  destruct (dict_get data_obj u) as [| | | | | |rec] eqn:Hget; try exact Ht.
  intros v st. simpl. rewrite lookup_insert.
  case_decide as Hv; [|apply Ht].
  intros [= <-]. subst v. split; [done|].
  exists rec. split; [|done].
  unfold upstream_record. subst r. rewrite Hok, Hdata, Hget.
  destruct rec; [discriminate Htr | done].
Qed.

Lemma fill_from_list_inv r status b data_obj uids s :
  r = Response status (Some (JDict b)) →
  is_success r = true →
  dict_get_or b "data" (JDict []) = JList data_obj →
  from_upstream r uids s →
  from_upstream r uids (snd (fill_from_list data_obj uids s)).
Proof.
  intros Hr Hok Hdata Hs. unfold fill_from_list.
  destruct (index_by_uid data_obj ∅) as [by_uid|e] eqn:Hidx; [|exact Hs].
  revert s Hs. apply (for_each_inv (from_upstream r uids)).
  intros u t Hu Ht.
  destruct (by_uid !! u) as [entry|] eqn:Hget; [|exact Ht].
  destruct (truthy (JDict entry)) eqn:Htr; [|exact Ht].
  intros v st. simpl. rewrite lookup_insert.
  case_decide as Hv; [|apply Ht].
  intros [= <-]. subst v. split; [done|].
  exists entry. split; [|done].
  unfold upstream_record. subst r. rewrite Hok, Hdata, Hidx, Hget.
  destruct entry; [discriminate Htr | done].
Qed.

Lemma fetch_try_inv r uids s :
  from_upstream r uids s → from_upstream r uids (snd (fetch_try r uids s)).
Proof.
  intros Hs. unfold fetch_try.
  destruct (negb (forallb int_ok uids)); [exact Hs|].
  destruct r as [|status body]; [exact Hs|].
  destruct (status =? 200)%Z eqn:H200.
  - destruct body as [[| | | | | |b]|]; try exact Hs.
    destruct (py_eq_int (dict_get b "code") 0) eqn:Hcode; [|exact Hs].
    assert (is_success (Response status (Some (JDict b))) = true) as Hok.
    { unfold is_success. by rewrite H200, Hcode. }
    py_unfold. simpl.
    destruct (dict_get_or b "data" (JDict [])) as [| | | | |l|d] eqn:Hdata;
      try exact Hs.
    + eapply fill_from_list_inv; eauto.
    + eapply fill_from_dict_inv; eauto.
  - destruct (status =? 429)%Z; exact Hs.
Qed.

Lemma fetch_try_no_cancel r uids s :
  fst (fetch_try r uids s) ≠ Raised CancelledError.
Proof.
  unfold fetch_try.
  destruct (negb (forallb int_ok uids)); [done|].
  destruct r as [|status body]; [done|].
  destruct (status =? 200)%Z.
  - destruct body as [[| | | | | |b]|]; try done.
    destruct (py_eq_int (dict_get b "code") 0); [|done].
    py_unfold. simpl.
    destruct (dict_get_or b "data" (JDict [])) as [| | | | |l|d]; try done.
    + unfold fill_from_list.
      assert (∀ l m, index_by_uid l m ≠ Raised CancelledError) as Hidx.
      { clear. induction l as [|x l IH]; intros m; [done|].
        destruct x; try done. simpl.
        destruct (negb _); apply IH. }
      specialize (Hidx l ∅).
      destruct (index_by_uid l ∅) as [by_uid|[]]; try done.
      apply for_each_no_cancel. intros u t.
      destruct (by_uid !! u) as [entry|]; [|done].
      by destruct (truthy (JDict entry)).
    + apply for_each_no_cancel. intros u t. cbv zeta.
      destruct (truthy (dict_get d u)); [|done].
      by destruct (dict_get d u).
  - by destruct (status =? 429)%Z.
Qed.

(** The [finally] block returns, keeps what is there and gives every other
    requested identifier the zero-value record. *)
Lemma fill_defaults_spec uids s :
  ∃ s', fill_defaults uids s = (Returned tt, s') ∧
        rate_flag s' = rate_flag s ∧
        ∀ u, result_map s' !! u =
             match result_map s !! u with
             | Some st => Some st
             | None => if decide (u ∈ uids) then Some zero_status else None
             end.
Proof.
  revert s. induction uids as [|v uids IH]; intros s.
  - exists s. repeat split. intros u. destruct (result_map s !! u); [done|].
    case_decide as H; [by apply elem_of_nil in H | done].
  - unfold fill_defaults in *. rewrite for_each_cons. py_unfold.
    destruct (result_map s !! v) as [st|] eqn:Hv; simpl.
    + destruct (IH s) as (s' & Hrun & Hflag & Hmap).
      exists s'. rewrite Hrun. repeat split; [done|].
      intros u. rewrite Hmap. destruct (result_map s !! u) eqn:Hu; [done|].
      destruct (decide (u ∈ uids)) as [Hin|Hnin],
               (decide (u ∈ v :: uids)) as [Hin'|Hnin']; try done.
      * exfalso. apply Hnin'. by right.
      * exfalso. apply elem_of_cons in Hin' as [->|]; [congruence | done].
    + destruct (IH {| result_map := <[v:=zero_status]> (result_map s);
                      rate_flag := rate_flag s |}) as (s' & Hrun & Hflag & Hmap).
      exists s'. rewrite Hrun. repeat split; [done|].
      intros u. rewrite Hmap. simpl. rewrite lookup_insert.
      case_decide as Hvu.
      * subst u. rewrite Hv. rewrite decide_True by left. done.
      * destruct (result_map s !! u); [done|].
        destruct (decide (u ∈ uids)) as [Hin|Hnin],
                 (decide (u ∈ v :: uids)) as [Hin'|Hnin']; try done.
        -- exfalso. apply Hnin'. by right.
        -- exfalso. apply elem_of_cons in Hin' as [->|]; done.
Qed.

(** What [get_live_status_batch] returns, spelled out: the outcome is a
    return, the flag is the one the [try] left, and the map is the one the
    [try] built, completed by the defaults. *)
Lemma get_live_status_batch_eq r uids flag :
  ∃ m, get_live_status_batch r uids flag =
         (Returned m,
          rate_flag (snd (fetch_try r uids {| result_map := ∅; rate_flag := flag |}))) ∧
       ∀ u, m !! u =
            match result_map (snd (fetch_try r uids
                                     {| result_map := ∅; rate_flag := flag |})) !! u with
            | Some st => Some st
            | None => if decide (u ∈ uids) then Some zero_status else None
            end.
Proof.
  unfold get_live_status_batch.
  pose proof (fetch_try_no_cancel r uids {| result_map := ∅; rate_flag := flag |})
    as Hnc.
  py_unfold.
  destruct (fetch_try r uids {| result_map := ∅; rate_flag := flag |})
    as [o s1] eqn:Htry. simpl in *.
  destruct (fill_defaults_spec uids s1) as (s2 & Hfill & Hflag & Hmap).
  exists (result_map s2).
  destruct o as [[]|[]]; try done; rewrite Hfill; simpl; by rewrite Hflag.
Qed.

(** The bindings of a returned map: the records the [try] took from the
    upstream response, and the zero-value record for every other requested
    identifier. *)
Lemma get_live_status_batch_lookup r uids flag m flag' u :
  get_live_status_batch r uids flag = (Returned m, flag') →
  (u ∈ uids ∧ m !! u = Some zero_status) ∨
  (u ∈ uids ∧ ∃ rec, upstream_record r u = Some rec ∧ m !! u = Some (status_of rec)) ∨
  ((u ∉ uids) ∧ m !! u = None).
Proof.
  intros Hrun.
  destruct (get_live_status_batch_eq r uids flag) as (m' & Hrun' & Hm).
  rewrite Hrun in Hrun'. injection Hrun' as <- _.
  pose proof (fetch_try_inv r uids {| result_map := ∅; rate_flag := flag |}) as Hinv.
  assert (from_upstream r uids {| result_map := ∅; rate_flag := flag |}) as H0.
  { intros v st. simpl. by rewrite lookup_empty. }
  specialize (Hinv H0). clear H0. rewrite Hm.
  destruct (result_map _ !! u) as [st|] eqn:Hst.
  - destruct (Hinv u st Hst) as (Hu & rec & Hrec & ->).
    right. left. split; [done|]. by exists rec.
  - case_decide as Hu; [by left | by right; right].
Qed.

Lemma get_live_status_batch_dom r uids flag m flag' :
  get_live_status_batch r uids flag = (Returned m, flag') →
  dom m = list_to_set uids.
Proof.
  intros Hrun. apply set_eq. intros u.
  rewrite elem_of_dom, elem_of_list_to_set.
  destruct (get_live_status_batch_lookup r uids flag m flag' u Hrun)
    as [[Hu ->]|[(Hu & rec & _ & ->)|[Hu ->]]]; split; intros H; try done;
    by destruct H.
Qed.

(** C1: for every list of requested identifiers and every outcome of the
    request, get_live_status_batch returns (it never raises), the key set
    of the returned map is exactly the set of requested identifiers, every
    requested identifier for which the upstream response holds no record
    is mapped to the zero-value status, and when the request was not
    answered by HTTP 200 with application code 0 (connection error,
    timeout, unparsable body, other status, error code), or some
    identifier is rejected by int(), every requested identifier is. *)
Theorem get_live_status_batch_total r uids flag :
  ∃ m flag',
    get_live_status_batch r uids flag = (Returned m, flag') ∧
    dom m = list_to_set uids ∧
    (∀ u, u ∈ uids → upstream_record r u = None → m !! u = Some zero_status) ∧
    (is_success r = false ∨ forallb int_ok uids = false →
     ∀ u, u ∈ uids → m !! u = Some zero_status).
Proof.
  destruct (get_live_status_batch_eq r uids flag) as (m & Hrun & Hm).
  assert (∀ u, u ∈ uids → upstream_record r u = None → m !! u = Some zero_status)
    as Hzero.
  { intros u Hu Hnone.
    destruct (get_live_status_batch_lookup r uids flag m _ u Hrun)
      as [[_ ->]|[(_ & rec & Hrec & _)|[Hnot _]]]; [done | congruence | done]. }
  eexists m, _. split; [exact Hrun|]. split; [|split].
  - by eapply get_live_status_batch_dom.
  - exact Hzero.
  - intros [Hfail|Hint] u Hu.
    + apply Hzero; [done|].
      unfold upstream_record. rewrite Hfail.
      by destruct r as [|? [[]|]].
    + rewrite Hm. unfold fetch_try. rewrite Hint. simpl.
      rewrite lookup_empty. by rewrite decide_True.
Qed.

(** [get_live_status] on a batch result that holds the identifier. *)
Lemma get_live_status_run r uid flag m flag' :
  get_live_status_batch r [uid] flag = (Returned m, flag') →
  ∃ st, m !! uid = Some st ∧
        get_live_status r uid flag = (Returned st, flag').
Proof.
  intros Hrun.
  assert (is_Some (m !! uid)) as [st Hst].
  { apply elem_of_dom.
    rewrite (get_live_status_batch_dom r [uid] flag m flag' Hrun),
      elem_of_list_to_set. by left. }
  exists st. split; [done|].
  unfold get_live_status. py_unfold. rewrite Hrun. by rewrite Hst.
Qed.

(** C9: for every identifier and every outcome of the request, the batch
    call for the single identifier returns a map that holds the
    identifier, and get_live_status returns exactly that entry (with the
    same effect on the rate-limit flag); neither the key-absent fallback
    nor the exception handlers are taken. *)
Theorem get_live_status_is_batch_entry r uid flag :
  ∃ m st flag',
    get_live_status_batch r [uid] flag = (Returned m, flag') ∧
    m !! uid = Some st ∧
    get_live_status r uid flag = (Returned st, flag').
Proof.
  destruct (get_live_status_batch_eq r [uid] flag) as (m & Hrun & _).
  destruct (get_live_status_run r uid flag m _ Hrun) as (st & Hst & Hget).
  by eexists m, st, _.
Qed.

(** ** The notification senders *)

Lemma push_push s evs evs' : push (push s evs) evs' = push s (evs ++ evs').
Proof. unfold push. simpl. by rewrite app_assoc. Qed.

Lemma emit_push e s : emit e s = (Returned tt, push s [e]).
Proof. reflexivity. Qed.

(** What a sender leaves behind after the record of its call: nothing, one
    delivery, or one logged error; it always returns. *)
Lemma send_live_notification_run ok uid st info s :
  ∃ evs,
    send_live_notification ok uid st info s
      = (Returned tt, push s (SendLive uid :: evs)) ∧
    (∀ t m, Delivered t m ∈ evs →
       enable_notifications (plug s) = true ∧
       t = unified_msg_origin info ∧ truthy t = true ∧ ok = true) ∧
    (∀ u, (SendLive u ∉ evs) ∧ (SendEnd u ∉ evs)) ∧
    (enable_notifications (plug s) = true →
     truthy (unified_msg_origin info) = true →
     if ok then ∃ m, evs = [Delivered (unified_msg_origin info) m]
     else evs = [LogError "发送开播通知失败"]).
Proof.
  unfold send_live_notification, send_message. py_unfold.
  rewrite emit_push. simpl.
  destruct (enable_notifications (plug s)) eqn:Hn; simpl.
  2:{ exists []. split; [done|]. split; [|split]; try done.
      - intros t m H. by apply elem_of_nil in H.
      - intros u. split; intros H; by apply elem_of_nil in H. }
  destruct (truthy (unified_msg_origin info)) eqn:Ht.
  2:{ exists []. split; [done|]. split; [|split]; try done.
      - intros t m H. by apply elem_of_nil in H.
      - intros u. split; intros H; by apply elem_of_nil in H. }
  destruct ok.
  - eexists [Delivered _ _]. rewrite emit_push, push_push. split; [done|].
    split; [|split].
    + intros t m H. apply list_elem_of_singleton in H. by injection H as -> ->.
    + intros u. split; intros H; by apply list_elem_of_singleton in H.
    + intros _ _. by eexists.
  - exists [LogError "发送开播通知失败"]. rewrite emit_push, push_push.
    split; [done|]. split; [|split]; try done.
    + intros t m H. by apply list_elem_of_singleton in H.
    + intros u. split; intros H; by apply list_elem_of_singleton in H.
Qed.

Lemma send_end_notification_run ok uid st info s :
  ∃ evs,
    send_end_notification ok uid st info s
      = (Returned tt, push s (SendEnd uid :: evs)) ∧
    (∀ t m, Delivered t m ∈ evs →
       enable_notifications (plug s) = true ∧
       enable_end_notifications (plug s) = true ∧
       t = unified_msg_origin info ∧ truthy t = true ∧ ok = true) ∧
    (∀ u, (SendLive u ∉ evs) ∧ (SendEnd u ∉ evs)) ∧
    (enable_notifications (plug s) = true →
     enable_end_notifications (plug s) = true →
     truthy (unified_msg_origin info) = true →
     if ok then ∃ m, evs = [Delivered (unified_msg_origin info) m]
     else evs = [LogError "发送关播通知失败"]).
Proof.
  unfold send_end_notification, send_message. py_unfold.
  rewrite emit_push. simpl.
  destruct (enable_notifications (plug s)) eqn:Hn; simpl.
  2:{ exists []. split; [done|]. split; [|split]; try done.
      - intros t m H. by apply elem_of_nil in H.
      - intros u. split; intros H; by apply elem_of_nil in H. }
  destruct (enable_end_notifications (plug s)) eqn:He; simpl.
  2:{ exists []. split; [done|]. split; [|split]; try done.
      - intros t m H. by apply elem_of_nil in H.
      - intros u. split; intros H; by apply elem_of_nil in H. }
  destruct (truthy (unified_msg_origin info)) eqn:Ht.
  2:{ exists []. split; [done|]. split; [|split]; try done.
      - intros t m H. by apply elem_of_nil in H.
      - intros u. split; intros H; by apply elem_of_nil in H. }
  destruct ok.
  - eexists [Delivered _ _]. rewrite emit_push, push_push. split; [done|].
    split; [|split].
    + intros t m H. apply list_elem_of_singleton in H. by injection H as -> ->.
    + intros u. split; intros H; by apply list_elem_of_singleton in H.
    + intros _ _ _. by eexists.
  - exists [LogError "发送关播通知失败"]. rewrite emit_push, push_push.
    split; [done|]. split; [|split]; try done.
    + intros t m H. by apply list_elem_of_singleton in H.
    + intros u. split; intros H; by apply list_elem_of_singleton in H.
Qed.

(** ** The per-identifier step *)

Lemma is_live_get_or d :
  is_live (dict_get_or d "live_status" (JInt 0))
  = is_live (dict_get d "live_status").
Proof.
  unfold dict_get, dict_get_or. by destruct (dict_lookup d "live_status").
Qed.

Lemma process_uid_run env now sm uid info s :
  let cur := default synthetic_status (sm !! uid) in
  let new := dict_get cur "live_status" in
  let prev := default (JInt 0) (live_status_cache (plug s) !! uid) in
  ∃ evs,
    process_uid env now sm (uid, info) s
      = (Returned tt,
         {| plug := apply_status now sm (plug s) (uid, info);
            consecutive_errors := consecutive_errors s;
            trace := trace s ++ evs |}) ∧
    (∀ u, SendLive u ∈ evs ↔ u = uid ∧ is_live new = true ∧ is_live prev = false) ∧
    (∀ u, SendEnd u ∈ evs ↔ u = uid ∧ is_live prev = true ∧ is_live new = false) ∧
    (∀ t m, Delivered t m ∈ evs →
       enable_notifications (plug s) = true ∧
       t = unified_msg_origin info ∧ truthy t = true ∧
       env_deliver env uid = true ∧
       (is_live prev = true → enable_end_notifications (plug s) = true)).
Proof.
  intros cur new prev. unfold process_uid. py_unfold.
  fold cur. fold new. fold prev.
  destruct (is_live new) eqn:Hnew, (is_live prev) eqn:Hprev; simpl.
  - exists []. rewrite app_nil_r. split; [done|]. split; [|split].
    + intros u. split; [intros H; by apply elem_of_nil in H | by intros (_&_&?)].
    + intros u. split; [intros H; by apply elem_of_nil in H | by intros (_&_&?)].
    + intros t m H. by apply elem_of_nil in H.
  - destruct (send_live_notification_run (env_deliver env uid) uid cur info s)
      as (evs & Hrun & Hdel & Hno & _).
    rewrite Hrun. simpl. exists (SendLive uid :: evs). split; [done|].
    split; [|split].
    + intros u. rewrite elem_of_cons. split.
      * intros [[= ->]|H]; [done | by apply (Hno u) in H].
      * intros (-> & _). by left.
    + intros u. rewrite elem_of_cons. split.
      * intros [[=]|H]. by apply (Hno u) in H.
      * by intros (_ & ? & _).
    + intros t m. rewrite elem_of_cons. intros [[=]|H].
      destruct (Hdel t m H) as (? & ? & ? & ?). done.
  - destruct (send_end_notification_run (env_deliver env uid) uid cur info s)
      as (evs & Hrun & Hdel & Hno & _).
    rewrite Hrun. simpl. exists (SendEnd uid :: evs). split; [done|].
    split; [|split].
    + intros u. rewrite elem_of_cons. split.
      * intros [[=]|H]. by apply (Hno u) in H.
      * by intros (_ & ? & _).
    + intros u. rewrite elem_of_cons. split.
      * intros [[= ->]|H]; [done | by apply (Hno u) in H].
      * intros (-> & _). by left.
    + intros t m. rewrite elem_of_cons. intros [[=]|H].
      destruct (Hdel t m H) as (? & ? & ? & ? & ?). done.
  - exists []. rewrite app_nil_r. split; [done|]. split; [|split].
    + intros u. split; [intros H; by apply elem_of_nil in H | by intros (_&?&_)].
    + intros u. split; [intros H; by apply elem_of_nil in H | by intros (_&?&_)].
    + intros t m H. by apply elem_of_nil in H.
Qed.

Lemma apply_status_static now sm p item :
  static_fields (apply_status now sm p item) = static_fields p.
Proof.
  unfold apply_status, record_backoff. cbv zeta.
  by destruct (is_empty _).
Qed.

Lemma apply_status_other now sm p item u :
  item.1 ≠ u →
  live_status_cache (apply_status now sm p item) !! u = live_status_cache p !! u ∧
  uid_error_counts (apply_status now sm p item) !! u = uid_error_counts p !! u ∧
  uid_skip_until (apply_status now sm p item) !! u = uid_skip_until p !! u.
Proof.
  intros Hne. unfold apply_status, record_backoff. cbv zeta.
  destruct (is_empty _); simpl;
    by rewrite ?lookup_insert_ne, ?lookup_delete_ne.
Qed.

Lemma apply_status_self now sm p uid info :
  let cur := default synthetic_status (sm !! uid) in
  let p' := apply_status now sm p (uid, info) in
  live_status_cache p' !! uid = Some (dict_get_or cur "live_status" (JInt 0)) ∧
  (if is_empty cur then
     uid_error_counts p' !! uid = Some (default 0 (uid_error_counts p !! uid) + 1) ∧
     uid_skip_until p' !! uid =
       Some (now + inject_Z (backoff_delay (default 0 (uid_error_counts p !! uid) + 1)%Z))%Q
   else
     uid_error_counts p' !! uid = None ∧ uid_skip_until p' !! uid = None).
Proof.
  intros cur p'. subst p'. unfold apply_status, record_backoff. cbv zeta.
  simpl. fold cur.
  destruct (is_empty cur); simpl;
    by rewrite ?lookup_insert_eq, ?lookup_delete_eq.
Qed.

Lemma foldl_apply_status_static now sm items p :
  static_fields (foldl (apply_status now sm) p items) = static_fields p.
Proof.
  revert p. induction items as [|item items IH]; intros p; [done|].
  simpl. by rewrite IH, apply_status_static.
Qed.

Lemma foldl_apply_status_other now sm items p u :
  u ∉ items.*1 →
  live_status_cache (foldl (apply_status now sm) p items) !! u
    = live_status_cache p !! u ∧
  uid_error_counts (foldl (apply_status now sm) p items) !! u
    = uid_error_counts p !! u ∧
  uid_skip_until (foldl (apply_status now sm) p items) !! u
    = uid_skip_until p !! u.
Proof.
  revert p. induction items as [|item items IH]; intros p Hu; [done|].
  simpl in *. apply not_elem_of_cons in Hu as [Hne Hu].
  destruct (IH (apply_status now sm p item) Hu) as (-> & -> & ->).
  by apply apply_status_other.
Qed.

(** With unique keys, the loop leaves for each item what its own step
    computes from the state before the loop. *)
Lemma foldl_apply_status_self now sm items p uid info :
  NoDup items.*1 → (uid, info) ∈ items →
  let cur := default synthetic_status (sm !! uid) in
  let p' := foldl (apply_status now sm) p items in
  live_status_cache p' !! uid = Some (dict_get_or cur "live_status" (JInt 0)) ∧
  (if is_empty cur then
     uid_error_counts p' !! uid = Some (default 0 (uid_error_counts p !! uid) + 1) ∧
     uid_skip_until p' !! uid =
       Some (now + inject_Z (backoff_delay (default 0 (uid_error_counts p !! uid) + 1)%Z))%Q
   else
     uid_error_counts p' !! uid = None ∧ uid_skip_until p' !! uid = None).
Proof.
  intros Hnd Hin cur. revert p Hnd Hin.
  induction items as [|item items IH]; intros p Hnd Hin.
  { by apply elem_of_nil in Hin. }
  simpl in *. apply NoDup_cons in Hnd as [Hfresh Hnd].
  apply elem_of_cons in Hin as [<-|Hin].
  - simpl in Hfresh.
    destruct (foldl_apply_status_other now sm items
                (apply_status now sm p (uid, info)) uid Hfresh) as (-> & -> & ->).
    apply apply_status_self.
  - assert (item.1 ≠ uid) as Hne.
    { intros Heq. apply Hfresh. rewrite Heq.
      apply (list_elem_of_fmap_2 fst) in Hin. exact Hin. }
    specialize (IH (apply_status now sm p item) Hnd Hin).
    destruct (apply_status_other now sm p item uid Hne) as (_ & Hc & _).
    by rewrite Hc in IH.
Qed.

Lemma interrupt_none env pt s :
  env_fault env = None → interrupt env pt s = (Returned tt, s).
Proof. intros H. unfold interrupt. by rewrite H. Qed.

(** The per-identifier loop of a cycle the environment does not
    interrupt. *)
Lemma process_items_run env now sm k items s :
  env_fault env = None →
  ∃ evs,
    process_items env now sm k items s
      = (Returned tt,
         {| plug := foldl (apply_status now sm) (plug s) items;
            consecutive_errors := consecutive_errors s;
            trace := trace s ++ evs |}) ∧
    (∀ t m, Delivered t m ∈ evs →
       enable_notifications (plug s) = true ∧
       ∃ uid info, (uid, info) ∈ items ∧ t = unified_msg_origin info ∧
                   truthy t = true ∧ env_deliver env uid = true) ∧
    (∀ u, u ∉ items.*1 → (SendLive u ∉ evs) ∧ (SendEnd u ∉ evs)) ∧
    (NoDup items.*1 → ∀ uid info, (uid, info) ∈ items →
       let new := dict_get (default synthetic_status (sm !! uid)) "live_status" in
       let prev := default (JInt 0) (live_status_cache (plug s) !! uid) in
       (SendLive uid ∈ evs ↔ is_live new = true ∧ is_live prev = false) ∧
       (SendEnd uid ∈ evs ↔ is_live prev = true ∧ is_live new = false)).
Proof.
  intros Hnf. revert k s.
  induction items as [|[uid0 info0] items IH]; intros k s.
  { exists []. simpl. rewrite app_nil_r. split; [by destruct s|].
    split; [|split].
    - intros t m H. by apply elem_of_nil in H.
    - intros u _. split; intros H; by apply elem_of_nil in H.
    - intros _ uid info H. by apply elem_of_nil in H. }
  destruct (process_uid_run env now sm uid0 info0 s)
    as (evs0 & Hrun0 & Hlive0 & Hend0 & Hdel0).
  set (s1 := {| plug := apply_status now sm (plug s) (uid0, info0);
                consecutive_errors := consecutive_errors s;
                trace := trace s ++ evs0 |}) in *.
  destruct (IH (S k) s1) as (evs1 & Hrun1 & Hdel1 & Hout1 & Hin1).
  exists (evs0 ++ evs1)%list.
  split.
  { cbn [process_items]. py_unfold. rewrite interrupt_none by done.
    rewrite Hrun0, Hrun1. simpl. by rewrite app_assoc. }
  assert (static_fields (plug s1) = static_fields (plug s)) as Hst
    by apply apply_status_static.
  split; [|split].
  - intros t m. rewrite elem_of_app. intros [H|H].
    + destruct (Hdel0 t m H) as (? & ? & ? & ? & _). split; [done|].
      exists uid0, info0. split; [by left | done].
    + destruct (Hdel1 t m H) as (Hen & uid & info & ? & ?).
      split; [unfold static_fields in Hst; congruence|].
      exists uid, info. split; [by right | done].
  - intros u Hu. simpl in Hu. apply not_elem_of_cons in Hu as [Hne Hu].
    destruct (Hout1 u Hu) as [Hl He].
    split; rewrite elem_of_app; intros [H|H]; try done.
    + apply Hlive0 in H as (? & _). done.
    + apply Hend0 in H as (? & _). done.
  - intros Hnd uid info Hin new prev. simpl in Hnd.
    apply NoDup_cons in Hnd as [Hfresh Hnd].
    apply elem_of_cons in Hin as [[= -> ->]|Hin].
    + destruct (Hout1 uid0 Hfresh) as [Hl He].
      split; rewrite elem_of_app; split.
      * intros [H|H]; [|done]. by apply Hlive0 in H as (_ & ?).
      * intros H. left. by apply Hlive0.
      * intros [H|H]; [|done]. by apply Hend0 in H as (_ & ?).
      * intros H. left. by apply Hend0.
    + assert (uid0 ≠ uid) as Hne.
      { intros ->. apply Hfresh.
        apply (list_elem_of_fmap_2 fst) in Hin. exact Hin. }
      destruct (Hin1 Hnd uid info Hin) as [Hl He].
      destruct (apply_status_other now sm (plug s) (uid0, info0) uid Hne)
        as (Hc & _).
      simpl in Hl, He. rewrite Hc in Hl, He.
      split; rewrite elem_of_app; split.
      * intros [H|H]; [|by apply Hl]. apply Hlive0 in H as (? & _). done.
      * intros H. right. by apply Hl.
      * intros [H|H]; [|by apply He]. apply Hend0 in H as (? & _). done.
      * intros H. right. by apply He.
Qed.

(** ** A whole cycle *)

Lemma cycle_status_map_eq env p :
  ∃ flag',
    get_live_status_batch (env_http env) (cycle_uids p (env_now env))
                          (_last_rate_limited p)
    = (Returned (cycle_status_map env p), flag').
Proof.
  unfold cycle_status_map.
  destruct (get_live_status_batch_eq (env_http env)
              (cycle_uids p (env_now env)) (_last_rate_limited p))
    as (m & -> & _).
  by eexists.
Qed.

(** A cycle over a non-empty registry that the environment does not
    interrupt: it returns, with the counter reset, the flag as the fetch
    left it, every item handled, one sleep of the current interval, and the
    interval updated from the flag. *)
Lemma cycle_body_run env s :
  env_fault env = None → monitored_uids (plug s) ≠ [] →
  let now := env_now env in
  let sm := cycle_status_map env (plug s) in
  ∃ flag' evs,
    get_live_status_batch (env_http env) (cycle_uids (plug s) now)
                          (_last_rate_limited (plug s))
      = (Returned sm, flag') ∧
    let p1 := foldl (apply_status now sm)
                    (set_last_rate_limited flag' (plug s))
                    (monitored_uids (plug s)) in
    cycle_body env s
      = (Returned tt,
         {| plug := set_current_interval
                      (interval_update (check_interval (plug s))
                                       (current_interval (plug s)) flag') p1;
            consecutive_errors := 0;
            trace := (trace s ++ evs) ++ [Sleep (current_interval (plug s))] |}) ∧
    (∀ t m, Delivered t m ∈ evs →
       enable_notifications (plug s) = true ∧
       ∃ uid info, (uid, info) ∈ monitored_uids (plug s) ∧
                   t = unified_msg_origin info ∧
                   truthy t = true ∧ env_deliver env uid = true) ∧
    (NoDup (dict_keys (monitored_uids (plug s))) →
     ∀ uid info, (uid, info) ∈ monitored_uids (plug s) →
       let new := dict_get (cycle_status env (plug s) uid) "live_status" in
       let prev := default (JInt 0) (live_status_cache (plug s) !! uid) in
       (SendLive uid ∈ evs ↔ is_live new = true ∧ is_live prev = false) ∧
       (SendEnd uid ∈ evs ↔ is_live prev = true ∧ is_live new = false)).
Proof.
  intros Hnf Hne now sm.
  destruct (cycle_status_map_eq env (plug s)) as [flag' Hbatch].
  fold now sm in Hbatch.
  set (s0 := {| plug := set_last_rate_limited flag' (plug s);
                consecutive_errors := consecutive_errors s;
                trace := trace s |}).
  destruct (process_items_run env now sm 0 (monitored_uids (plug s)) s0 Hnf)
    as (evs & Hrun & Hdel & Hout & Hin).
  exists flag', evs. split; [exact Hbatch|]. cbv zeta.
  pose proof (foldl_apply_status_static now sm (monitored_uids (plug s))
                (set_last_rate_limited flag' (plug s))) as Hst.
  unfold static_fields in Hst. simpl in Hst.
  injection Hst as Hci _ _ _ _ Hcur Hfl.
  split; [|split].
  - unfold cycle_body, sleep, with_plugin, with_flag. py_unfold.
    destruct (monitored_uids (plug s)) as [|item items] eqn:Hreg; [done|].
    rewrite interrupt_none by done. fold now. rewrite Hbatch.
    fold s0. rewrite Hrun. simpl. rewrite interrupt_none by done. simpl.
    unfold set_consecutive_errors, emit, update_plugin. py_unfold. simpl.
    fold (apply_status now sm (set_last_rate_limited flag' (plug s)) item).
    simpl in Hci, Hcur, Hfl. rewrite Hci, Hcur, Hfl. done.
  - exact Hdel.
  - exact Hin.
Qed.

(** The maps after such a cycle, at a registered identifier. *)
Lemma cycle_body_entry env s uid info :
  env_fault env = None →
  NoDup (dict_keys (monitored_uids (plug s))) →
  (uid, info) ∈ monitored_uids (plug s) →
  let cur := cycle_status env (plug s) uid in
  let cnt := default 0 (uid_error_counts (plug s) !! uid) + 1 in
  ∃ s', cycle_body env s = (Returned tt, s') ∧
    monitored_uids (plug s') = monitored_uids (plug s) ∧
    live_status_cache (plug s') !! uid
      = Some (dict_get_or cur "live_status" (JInt 0)) ∧
    (if is_empty cur then
       uid_error_counts (plug s') !! uid = Some cnt ∧
       uid_skip_until (plug s') !! uid
         = Some (env_now env + inject_Z (backoff_delay cnt))%Q
     else
       uid_error_counts (plug s') !! uid = None ∧
       uid_skip_until (plug s') !! uid = None).
Proof.
  intros Hnf Hnd Hin cur cnt.
  assert (monitored_uids (plug s) ≠ []) as Hne.
  { intros H. rewrite H in Hin. by apply elem_of_nil in Hin. }
  destruct (cycle_body_run env s Hnf Hne) as (flag' & evs & _ & Hrun & _).
  cbv zeta in Hrun. eexists. split; [exact Hrun|]. simpl.
  pose proof (foldl_apply_status_static (env_now env)
                (cycle_status_map env (plug s)) (monitored_uids (plug s))
                (set_last_rate_limited flag' (plug s))) as Hst.
  unfold static_fields in Hst. simpl in Hst.
  injection Hst as _ _ _ _ Hreg _ _.
  split; [exact Hreg|].
  exact (foldl_apply_status_self (env_now env) (cycle_status_map env (plug s))
           (monitored_uids (plug s)) (set_last_rate_limited flag' (plug s))
           uid info Hnd Hin).
Qed.

(** The sender calls such a cycle makes for a registered identifier. *)
Lemma cycle_body_events env s uid info :
  env_fault env = None →
  NoDup (dict_keys (monitored_uids (plug s))) →
  (uid, info) ∈ monitored_uids (plug s) →
  let new := dict_get (cycle_status env (plug s) uid) "live_status" in
  let prev := default (JInt 0) (live_status_cache (plug s) !! uid) in
  ∃ s' evs, cycle_body env s = (Returned tt, s') ∧
    trace s' = (trace s ++ evs)%list ∧
    (SendLive uid ∈ evs ↔ is_live new = true ∧ is_live prev = false) ∧
    (SendEnd uid ∈ evs ↔ is_live prev = true ∧ is_live new = false).
Proof.
  intros Hnf Hnd Hin new prev.
  assert (monitored_uids (plug s) ≠ []) as Hne.
  { intros H. rewrite H in Hin. by apply elem_of_nil in Hin. }
  destruct (cycle_body_run env s Hnf Hne) as (flag' & evs & _ & Hrun & _ & Hev).
  cbv zeta in Hrun. destruct (Hev Hnd uid info Hin) as [Hl He].
  eexists. exists (evs ++ [Sleep (current_interval (plug s))])%list.
  split; [exact Hrun|]. simpl. split; [by rewrite app_assoc|].
  split.
  - etrans; [|exact Hl]. rewrite elem_of_app. split; [|by left].
    intros [H|H]; [done|]. by apply list_elem_of_singleton in H.
  - etrans; [|exact He]. rewrite elem_of_app. split; [|by left].
    intros [H|H]; [done|]. by apply list_elem_of_singleton in H.
Qed.

(** C2: in a cycle that runs to its end, for every registered identifier
    send_live_notification is called iff the new live_status equals 1 and
    the cached previous state does not, send_end_notification is called
    iff the cached previous state equals 1 and the new live_status does
    not (both tests read the cache as it was before the cycle), and
    afterwards the cache holds the new live_status; hence the next cycle
    calls neither sender for the identifier when its live-ness is the same
    as in this one. *)
Theorem transition_detection env s uid info :
  env_fault env = None →
  NoDup (dict_keys (monitored_uids (plug s))) →
  (uid, info) ∈ monitored_uids (plug s) →
  let cur := cycle_status env (plug s) uid in
  let new := dict_get cur "live_status" in
  let prev := default (JInt 0) (live_status_cache (plug s) !! uid) in
  ∃ s' evs,
    cycle_body env s = (Returned tt, s') ∧
    trace s' = (trace s ++ evs)%list ∧
    (SendLive uid ∈ evs ↔ is_live new = true ∧ is_live prev = false) ∧
    (SendEnd uid ∈ evs ↔ is_live prev = true ∧ is_live new = false) ∧
    live_status_cache (plug s') !! uid
      = Some (dict_get_or cur "live_status" (JInt 0)) ∧
    (∀ env2 s'' evs2,
       env_fault env2 = None →
       cycle_body env2 s' = (Returned tt, s'') →
       trace s'' = (trace s' ++ evs2)%list →
       is_live (dict_get (cycle_status env2 (plug s') uid) "live_status")
         = is_live new →
       (SendLive uid ∉ evs2) ∧ (SendEnd uid ∉ evs2)).
Proof.
  intros Hnf Hnd Hin cur new prev.
  destruct (cycle_body_events env s uid info Hnf Hnd Hin)
    as (s' & evs & Hrun & Htr & Hl & He).
  destruct (cycle_body_entry env s uid info Hnf Hnd Hin)
    as (s1 & Hrun1 & Hreg & Hcache & _).
  rewrite Hrun in Hrun1. injection Hrun1 as <-.
  exists s', evs. repeat (split; [done|]).
  intros env2 s'' evs2 Hnf2 Hrun2 Htr2 Hsame.
  rewrite <- Hreg in Hnd, Hin.
  destruct (cycle_body_events env2 s' uid info Hnf2 Hnd Hin)
    as (s2 & evs2' & Hrun2' & Htr2' & Hl2 & He2).
  rewrite Hrun2 in Hrun2'. injection Hrun2' as <-.
  rewrite Htr2 in Htr2'. apply app_inv_head in Htr2'. subst evs2'.
  rewrite Hcache in Hl2, He2. simpl in Hl2, He2.
  fold cur in Hl2, He2. rewrite is_live_get_or in Hl2, He2.
  fold new in Hl2, He2. rewrite Hsame in Hl2, He2.
  split; intros H.
  - apply Hl2 in H as [H1 H2]. congruence.
  - apply He2 in H as [H1 H2]. congruence.
Qed.

(** C3: in a cycle that runs to its end, for every registered identifier:
    if the status used for it is empty (falsy uname and room_id equal to
    0) its count becomes the old count (0 when absent) plus one and its
    skip deadline becomes now + min(300, 30 * count); otherwise both the
    count and the skip deadline are removed, so that the identifier has no
    skip deadline after the first non-empty result. *)
Theorem backoff_bookkeeping env s uid info :
  env_fault env = None →
  NoDup (dict_keys (monitored_uids (plug s))) →
  (uid, info) ∈ monitored_uids (plug s) →
  let cur := cycle_status env (plug s) uid in
  let cnt := default 0 (uid_error_counts (plug s) !! uid) + 1 in
  ∃ s', cycle_body env s = (Returned tt, s') ∧
    (is_empty cur = true →
       uid_error_counts (plug s') !! uid = Some cnt ∧
       uid_skip_until (plug s') !! uid
         = Some (env_now env + inject_Z (Z.min 300 (30 * cnt)))%Q) ∧
    (is_empty cur = false →
       uid_error_counts (plug s') !! uid = None ∧
       uid_skip_until (plug s') !! uid = None ∧
       ∀ t, (0 <= t)%Q → eligible (plug s') t uid = true).
Proof.
  intros Hnf Hnd Hin cur cnt.
  destruct (cycle_body_entry env s uid info Hnf Hnd Hin)
    as (s' & Hrun & _ & _ & Hb).
  fold cur in Hb. exists s'. split; [done|].
  destruct (is_empty cur); split; intros H; try done.
  destruct Hb as [Hc Hk]. repeat (split; [done|]).
  intros t Ht. unfold eligible. rewrite Hk. simpl.
  by apply Qle_bool_iff.
Qed.

(** ** The backoff invariant *)

Lemma backoff_delay_mono c c' : c <= c' → backoff_delay c <= backoff_delay c'.
Proof. unfold backoff_delay. lia. Qed.

Lemma backoff_inv_init t interval maxm n e :
  backoff_inv t (init_plugin interval maxm n e).
Proof. split; intros uid x; simpl; by rewrite lookup_empty. Qed.

Lemma apply_status_backoff_inv t now sm p item :
  (t <= now)%Q → backoff_inv t p → backoff_inv now (apply_status now sm p item).
Proof.
  intros Ht [Hc Hd]. unfold apply_status, record_backoff. cbv zeta.
  destruct (is_empty _); split; simpl; intros uid x.
  - rewrite lookup_insert. case_decide as Hu; [|by apply Hc].
    intros [= <-]. destruct (uid_error_counts p !! item.1) as [c|] eqn:Hl;
      simpl; [|lia]. apply Hc in Hl. lia.
  - rewrite !lookup_insert. case_decide as Hu.
    + intros [= <-]. eexists. split; [done|]. apply Qle_refl.
    + intros Hx. destruct (Hd uid x Hx) as (c & Hl & Hle).
      exists c. split; [done|]. lra.
  - rewrite lookup_delete. case_decide as Hu; [done | by apply Hc].
  - rewrite !lookup_delete. case_decide as Hu; [done|].
    intros Hx. destruct (Hd uid x Hx) as (c & Hl & Hle).
    exists c. split; [done|]. lra.
Qed.

Lemma foldl_apply_status_backoff_inv t now sm items p :
  (t <= now)%Q → backoff_inv t p →
  backoff_inv now (foldl (apply_status now sm) p items).
Proof.
  intros Ht. revert t p Ht.
  induction items as [|item items IH]; intros t p Ht Hp; simpl.
  - destruct Hp as [Hc Hd]. split; [done|]. intros uid d H.
    destruct (Hd uid d H) as (c & Hl & Hle). exists c. split; [done|]. lra.
  - apply (IH now); [apply Qle_refl|]. by apply (apply_status_backoff_inv t).
Qed.

(** A cycle that runs to its end at a time not before [t] re-establishes
    the invariant at its own time. *)
Lemma cycle_body_backoff_inv t env s :
  env_fault env = None → monitored_uids (plug s) ≠ [] →
  (t <= env_now env)%Q → backoff_inv t (plug s) →
  ∃ s', cycle_body env s = (Returned tt, s') ∧
        backoff_inv (env_now env) (plug s').
Proof.
  intros Hnf Hne Ht Hinv.
  destruct (cycle_body_run env s Hnf Hne) as (flag' & evs & _ & Hrun & _).
  cbv zeta in Hrun. eexists. split; [exact Hrun|]. simpl.
  pose proof (foldl_apply_status_backoff_inv t (env_now env)
                (cycle_status_map env (plug s)) (monitored_uids (plug s))
                (set_last_rate_limited flag' (plug s)) Ht) as H.
  destruct H as [Hc Hd]; [exact Hinv|]. split; [exact Hc | exact Hd].
Qed.

(** C10: in a cycle that runs to its end, a registered identifier whose
    skip deadline has not passed is not among the identifiers fetched, is
    handled with the default status (live_status 0 and nothing else): its
    cache entry becomes 0, send_end_notification is called iff the cached
    state was 1 and send_live_notification is not called, its count
    becomes the old count plus one and its skip deadline becomes
    now + min(300, 30 * count), which is later than the old deadline when
    that one was set by an earlier cycle. *)
Theorem skipped_identifier_still_processed t env s uid info old :
  env_fault env = None →
  NoDup (dict_keys (monitored_uids (plug s))) →
  (uid, info) ∈ monitored_uids (plug s) →
  uid_skip_until (plug s) !! uid = Some old → (env_now env < old)%Q →
  backoff_inv t (plug s) → (t < env_now env)%Q →
  let prev := default (JInt 0) (live_status_cache (plug s) !! uid) in
  let cnt := default 0 (uid_error_counts (plug s) !! uid) + 1 in
  let deadline := (env_now env + inject_Z (Z.min 300 (30 * cnt)))%Q in
  (uid ∉ cycle_uids (plug s) (env_now env)) ∧
  cycle_status env (plug s) uid = synthetic_status ∧
  ∃ s' evs,
    cycle_body env s = (Returned tt, s') ∧
    trace s' = (trace s ++ evs)%list ∧
    live_status_cache (plug s') !! uid = Some (JInt 0) ∧
    (SendEnd uid ∈ evs ↔ is_live prev = true) ∧
    (SendLive uid ∉ evs) ∧
    uid_error_counts (plug s') !! uid = Some cnt ∧
    uid_skip_until (plug s') !! uid = Some deadline ∧
    (old < deadline)%Q.
Proof.
  intros Hnf Hnd Hin Hold Hlt Hinv Ht prev cnt deadline.
  assert (uid ∉ cycle_uids (plug s) (env_now env)) as Hnot.
  { unfold cycle_uids. rewrite list_elem_of_filter. intros [H _].
    unfold eligible in H. rewrite Hold in H. simpl in H.
    apply Qle_bool_iff in H. lra. }
  assert (cycle_status env (plug s) uid = synthetic_status) as Hsyn.
  { unfold cycle_status.
    destruct (cycle_status_map_eq env (plug s)) as [flag' Hb].
    assert (cycle_status_map env (plug s) !! uid = None) as ->; [|done].
    apply not_elem_of_dom.
    rewrite (get_live_status_batch_dom _ _ _ _ _ Hb), elem_of_list_to_set.
    exact Hnot. }
  split; [exact Hnot|]. split; [exact Hsyn|].
  destruct (cycle_body_events env s uid info Hnf Hnd Hin)
    as (s' & evs & Hrun & Htr & Hl & He).
  destruct (cycle_body_entry env s uid info Hnf Hnd Hin)
    as (s1 & Hrun1 & _ & Hcache & Hb).
  rewrite Hrun in Hrun1. injection Hrun1 as <-.
  rewrite Hsyn in Hl, He, Hcache, Hb. simpl in Hl, He, Hcache, Hb.
  destruct Hb as [Hcnt Hdl].
  exists s', evs. repeat (split; [done|]).
  split; [|split; [|split; [done|split; [done|]]]].
  - etrans; [exact He|]. fold prev. split; [by intros [? _] | done].
  - intros H. apply Hl in H as [? _]. done.
  - destruct Hinv as [Hc Hd]. destruct (Hd uid old Hold) as (c & Hlc & Hle).
    subst deadline cnt. rewrite Hlc. simpl.
    pose proof (backoff_delay_mono c (c + 1) ltac:(lia)) as Hm.
    rewrite Zle_Qle in Hm. unfold backoff_delay in *. lra.
Qed.

(** ** Interrupted cycles and the loop *)

Lemma interrupt_cases env pt s :
  interrupt env pt s = (Returned tt, s) ∨
  ∃ e, env_fault env = Some (pt, e) ∧ interrupt env pt s = (Raised e, s).
Proof.
  unfold interrupt. destruct (env_fault env) as [[pt' e]|]; [|by left].
  case_decide as H; [|by left]. subst pt'. right. by exists e.
Qed.

(** However the per-identifier loop ends, it keeps the failure counter and
    the fields it never writes, and what it raises is what the environment
    injected. *)
Lemma process_items_any env now sm k items s :
  consecutive_errors (process_items env now sm k items s).2
    = consecutive_errors s ∧
  static_fields (plug (process_items env now sm k items s).2)
    = static_fields (plug s) ∧
  ∀ e, (process_items env now sm k items s).1 = Raised e →
       ∃ pt, env_fault env = Some (pt, e).
Proof.
  revert k s. induction items as [|[uid info] items IH]; intros k s; [done|].
  cbn [process_items]. py_unfold.
  destruct (interrupt_cases env (InLoop k) s) as [->|(e & He & ->)].
  2:{ simpl. repeat split; try done. intros e' [= <-]. by eexists. }
  destruct (process_uid_run env now sm uid info s) as (evs & -> & _).
  match goal with |- context [process_items env now sm (S k) items ?s1] =>
    destruct (IH (S k) s1) as (Hce & Hst & Hr) end.
  simpl in *. rewrite apply_status_static in Hst.
  destruct (process_items env now sm (S k) items _) as [[[]|e] s2]; simpl in *;
    repeat split; try done.
Qed.

(** Every way a cycle ends. *)
Lemma cycle_body_any env s :
  match cycle_body env s with
  | (Returned _, s') =>
      monitored_uids (plug s) ≠ [] → consecutive_errors s' = 0
  | (Raised e, s') =>
      (∃ pt, env_fault env = Some (pt, e)) ∧
      (consecutive_errors s' = consecutive_errors s ∨ consecutive_errors s' = 0) ∧
      current_interval (plug s') = current_interval (plug s)
  end.
Proof.
  unfold cycle_body, sleep, with_plugin, with_flag. py_unfold.
  destruct (monitored_uids (plug s)) as [|item items] eqn:Hreg.
  { rewrite emit_push.
    destruct (interrupt_cases env AtSleep (push s [Sleep (check_interval (plug s))]))
      as [->|(e & He & ->)]; [done|].
    simpl. split; [by eexists|]. split; [by left | done]. }
  destruct (interrupt_cases env AtStart s) as [->|(e & He & ->)].
  2:{ split; [by eexists|]. split; [by left | done]. }
  destruct (get_live_status_batch_eq (env_http env)
              (cycle_uids (plug s) (env_now env)) (_last_rate_limited (plug s)))
    as (m & -> & _).
  match goal with |- context [process_items env ?now m 0 ?its ?s0] =>
    destruct (process_items_any env now m 0 its s0) as (Hce & Hst & Hr);
    destruct (process_items env now m 0 its s0) as [[[]|e] s1] end;
    simpl in *.
  2:{ split; [by apply Hr|]. split; [by left|].
      unfold static_fields in Hst. simpl in Hst. congruence. }
  match goal with |- context [interrupt env AtSleep ?s2] =>
    destruct (interrupt_cases env AtSleep s2) as [->|(e & He & ->)] end.
  - done.
  - simpl. split; [by eexists|]. split; [by right|].
    unfold static_fields in Hst. simpl in Hst. congruence.
Qed.

(** C7: when an Exception escapes a cycle, the counter becomes its value
    at that moment plus one (that value is the one before the cycle, or 0
    when the cycle had already reset it), the loop sleeps the current
    interval while the new count is below 5 and min(300, 60 * count)
    otherwise, and goes on; a cycle over a non-empty registry that runs to
    its end leaves the counter at 0 and the loop goes on; and over any
    sequence of iterations in which no cancellation arrives the loop never
    stops. *)
Theorem failure_containment :
  (∀ env s s1,
     cycle_body env s = (Raised Exception, s1) →
     env_handler_cancelled env = false →
     let n := consecutive_errors s1 + 1 in
     (consecutive_errors s1 = consecutive_errors s ∨ consecutive_errors s1 = 0) ∧
     current_interval (plug s1) = current_interval (plug s) ∧
     loop_iter env s
       = (Continue,
          {| plug := plug s1;
             consecutive_errors := n;
             trace := trace s1 ++
                      [Sleep (if (n <? 5)%Z then current_interval (plug s1)
                              else Z.min 300 (60 * n))] |})) ∧
  (∀ env s s',
     cycle_body env s = (Returned tt, s') →
     monitored_uids (plug s) ≠ [] →
     loop_iter env s = (Continue, s') ∧ consecutive_errors s' = 0) ∧
  (∀ envs s,
     (∀ env, env ∈ envs → not_cancelled env) →
     (run_loop envs s).1 = Continue).
Proof.
  split; [|split].
  - intros env s s1 Hrun Hh n.
    pose proof (cycle_body_any env s) as Hany. rewrite Hrun in Hany.
    destruct Hany as (_ & Hce & Hcur). split; [exact Hce|]. split; [exact Hcur|].
    unfold loop_iter. rewrite Hrun. unfold on_exception, set_consecutive_errors,
      emit. py_unfold. simpl. rewrite Hh. fold n.
    destruct (Z.leb_spec 5 n), (Z.ltb_spec n 5); try lia; done.
  - intros env s s' Hrun Hne.
    pose proof (cycle_body_any env s) as Hany. rewrite Hrun in Hany.
    split; [|by apply Hany]. unfold loop_iter. by rewrite Hrun.
  - intros envs. induction envs as [|env envs IH]; intros s Hnc; [done|].
    cbn [run_loop].
    assert (∃ s', loop_iter env s = (Continue, s')) as [s' ->].
    { destruct (Hnc env ltac:(left)) as [Hh Hf].
      pose proof (cycle_body_any env s) as Hany. unfold loop_iter.
      destruct (cycle_body env s) as [[[]|e] s1]; [by eexists|].
      destruct Hany as ((pt & Hpt) & _).
      destruct e; [|by apply Hf in Hpt].
      unfold on_exception, set_consecutive_errors, emit. py_unfold. simpl.
      rewrite Hh. by eexists. }
    apply IH. intros env' Hin. apply Hnc. by right.
Qed.

(** C8: send_live_notification delivers only when enable_notifications
    is true and the entry's unified_msg_origin is set (truthy);
    send_end_notification delivers only when, in addition,
    enable_end_notifications is true; both always return, and when the
    delivery fails they log an error and deliver nothing; and a cycle the
    environment does not interrupt returns with the same plugin state and
    the same failure counter whatever deliveries fail. *)
Theorem notification_delivery_gated :
  (∀ ok uid st info s, ∃ evs,
     send_live_notification ok uid st info s
       = (Returned tt, push s (SendLive uid :: evs)) ∧
     (∀ t m, Delivered t m ∈ evs →
        enable_notifications (plug s) = true ∧
        t = unified_msg_origin info ∧ truthy t = true) ∧
     (ok = false →
        (∀ t m, Delivered t m ∉ evs) ∧
        (enable_notifications (plug s) = true →
         truthy (unified_msg_origin info) = true →
         evs = [LogError "发送开播通知失败"]))) ∧
  (∀ ok uid st info s, ∃ evs,
     send_end_notification ok uid st info s
       = (Returned tt, push s (SendEnd uid :: evs)) ∧
     (∀ t m, Delivered t m ∈ evs →
        enable_notifications (plug s) = true ∧
        enable_end_notifications (plug s) = true ∧
        t = unified_msg_origin info ∧ truthy t = true) ∧
     (ok = false →
        (∀ t m, Delivered t m ∉ evs) ∧
        (enable_notifications (plug s) = true →
         enable_end_notifications (plug s) = true →
         truthy (unified_msg_origin info) = true →
         evs = [LogError "发送关播通知失败"]))) ∧
  (∀ env deliver s,
     env_fault env = None →
     ∃ s1 s2,
       cycle_body env s = (Returned tt, s1) ∧
       cycle_body (with_deliver deliver env) s = (Returned tt, s2) ∧
       plug s1 = plug s2 ∧
       consecutive_errors s1 = consecutive_errors s2).
Proof.
  split; [|split].
  - intros ok uid st info s.
    destruct (send_live_notification_run ok uid st info s)
      as (evs & Hrun & Hdel & _ & Hfail).
    exists evs. split; [exact Hrun|]. split.
    + intros t m H. by destruct (Hdel t m H) as (? & ? & ? & _).
    + intros ->. split.
      * intros t m H. by destruct (Hdel t m H) as (_ & _ & _ & ?).
      * exact Hfail.
  - intros ok uid st info s.
    destruct (send_end_notification_run ok uid st info s)
      as (evs & Hrun & Hdel & _ & Hfail).
    exists evs. split; [exact Hrun|]. split.
    + intros t m H. by destruct (Hdel t m H) as (? & ? & ? & ? & _).
    + intros ->. split.
      * intros t m H. by destruct (Hdel t m H) as (_ & _ & _ & _ & ?).
      * exact Hfail.
  - intros env deliver s Hnf.
    destruct (decide (monitored_uids (plug s) = [])) as [Hreg|Hne].
    + unfold cycle_body, sleep. py_unfold. rewrite Hreg.
      rewrite !emit_push, !interrupt_none by done. by eexists _, _.
    + destruct (cycle_body_run env s Hnf Hne) as (f1 & evs1 & Hb1 & Hrun1 & _).
      destruct (cycle_body_run (with_deliver deliver env) s Hnf Hne)
        as (f2 & evs2 & Hb2 & Hrun2 & _).
      cbv zeta in Hrun1, Hrun2. simpl in Hb2, Hrun2.
      change (cycle_status_map (with_deliver deliver env) (plug s))
        with (cycle_status_map env (plug s)) in *.
      rewrite Hb1 in Hb2. injection Hb2 as <-.
      eexists _, _. split; [exact Hrun1|]. split; [exact Hrun2|]. done.
Qed.

(** ** The adaptive interval *)

Lemma interval_update_bounds base cur rl :
  base <= 300 → base <= cur <= 300 →
  base <= interval_update base cur rl <= 300.
Proof.
  intros Hb Hc. unfold interval_update. destruct rl; [lia|].
  assert (Z.quot (cur * 3) 4 <= 300); [|lia].
  destruct (Z.le_gt_cases 0 cur) as [Hpos|Hneg].
  - apply Z.quot_le_upper_bound; lia.
  - assert (Z.quot (cur * 3) 4 <= 0); [|lia].
    apply Z.quot_le_upper_bound; lia.
Qed.

(** C4 (amended): when the configured base interval is at most 300, then
    starting from the base, after every sequence of per-cycle rate-limit
    signals the interval lies within [base, 300]. *)
Theorem interval_stays_bounded base signals :
  base <= 300 →
  base <= interval_after base signals <= 300.
Proof.
  intros Hb. unfold interval_after.
  assert (∀ cur, base <= cur <= 300 →
                 base <= fold_left (interval_update base) signals cur <= 300)
    as Hgen.
  { induction signals as [|rl signals IH]; intros cur Hc; [done|].
    simpl. apply IH. by apply interval_update_bounds. }
  apply Hgen. lia.
Qed.

(** In the loop the interval is written by the update that ends a cycle
    and by nothing else: whatever the environment does, an iteration
    leaves the base as it is and the interval either as it is or updated
    once. *)
Lemma cycle_body_interval env s :
  check_interval (plug (cycle_body env s).2) = check_interval (plug s) ∧
  (current_interval (plug (cycle_body env s).2) = current_interval (plug s) ∨
   ∃ rl, current_interval (plug (cycle_body env s).2)
         = interval_update (check_interval (plug s))
                           (current_interval (plug s)) rl).
Proof.
  unfold cycle_body, sleep, with_plugin, with_flag. py_unfold.
  destruct (monitored_uids (plug s)) as [|item items] eqn:Hreg.
  { rewrite emit_push.
    destruct (interrupt_cases env AtSleep (push s [Sleep (check_interval (plug s))]))
      as [->|(e & He & ->)]; simpl; split; try done; by left. }
  destruct (interrupt_cases env AtStart s) as [->|(e & He & ->)].
  2:{ simpl. split; [done | by left]. }
  destruct (get_live_status_batch_eq (env_http env)
              (cycle_uids (plug s) (env_now env)) (_last_rate_limited (plug s)))
    as (m & -> & _).
  match goal with |- context [process_items env ?now m 0 ?its ?s0] =>
    destruct (process_items_any env now m 0 its s0) as (_ & Hst & _);
    destruct (process_items env now m 0 its s0) as [[[]|e] s1] end;
    simpl in *; unfold static_fields in Hst; simpl in Hst;
    injection Hst as Hci _ _ _ _ Hcur _.
  2:{ split; [done | by left]. }
  match goal with |- context [interrupt env AtSleep ?s2] =>
    destruct (interrupt_cases env AtSleep s2) as [->|(e & He & ->)] end; simpl.
  - split; [done|]. right. rewrite Hci, Hcur. by eexists.
  - split; [done | by left].
Qed.

Lemma loop_iter_interval env s :
  check_interval (plug (loop_iter env s).2) = check_interval (plug s) ∧
  (current_interval (plug (loop_iter env s).2) = current_interval (plug s) ∨
   ∃ rl, current_interval (plug (loop_iter env s).2)
         = interval_update (check_interval (plug s))
                           (current_interval (plug s)) rl).
Proof.
  pose proof (cycle_body_interval env s) as H. unfold loop_iter.
  destruct (cycle_body env s) as [[[]|[]] s1]; simpl in *; try exact H.
  unfold on_exception, set_consecutive_errors, emit. py_unfold. simpl.
  by destruct (env_handler_cancelled env).
Qed.

(** Hence, with a base of at most 300, the loop keeps the interval within
    [base, 300] over any sequence of iterations. *)
Lemma run_loop_interval_bounded envs s :
  check_interval (plug s) <= 300 →
  check_interval (plug s) <= current_interval (plug s) <= 300 →
  check_interval (plug (run_loop envs s).2) = check_interval (plug s) ∧
  check_interval (plug s) <= current_interval (plug (run_loop envs s).2) <= 300.
Proof.
  revert s. induction envs as [|env envs IH]; intros s Hb Hc; [done|].
  cbn [run_loop]. destruct (loop_iter_interval env s) as [Hci Hcur].
  assert (check_interval (plug s)
            <= current_interval (plug (loop_iter env s).2) <= 300) as Hc'.
  { destruct Hcur as [->|[rl ->]]; [done|]. by apply interval_update_bounds. }
  destruct (loop_iter env s) as [[| |e] s1]; simpl in *; try done.
  rewrite <- Hci in Hb, Hc'. destruct (IH s1 Hb Hc') as [H1 H2].
  rewrite H1, Hci. split; [done|]. by rewrite <- Hci.
Qed.

(** ** The rate-limit flag *)

Lemma for_each_flag {A} (l : list A) (body : A → py fetch_state unit) s :
  (∀ x t, rate_flag (body x t).2 = rate_flag t) →
  rate_flag (for_each l body s).2 = rate_flag s.
Proof.
  intros Hbody.
  apply (for_each_inv (λ t, rate_flag t = rate_flag s)); [|done].
  intros x t _ Ht. simpl. by rewrite Hbody.
Qed.

Lemma fetch_try_flag r uids m flag :
  rate_flag (fetch_try r uids {| result_map := m; rate_flag := flag |}).2
  = signal_after r uids flag.
Proof.
  unfold fetch_try, signal_after.
  destruct (negb (forallb int_ok uids)); [done|].
  destruct r as [|status body]; [done|]. unfold is_success.
  destruct (status =? 200)%Z eqn:H200.
  - assert ((status =? 429)%Z = false) as -> by lia.
    destruct body as [[| | | | | |b]|]; try done. simpl.
    destruct (py_eq_int (dict_get b "code") 0); [|done].
    py_unfold. simpl.
    destruct (dict_get_or b "data" (JDict [])) as [| | | | |l|d]; try done.
    + unfold fill_from_list.
      destruct (index_by_uid l ∅) as [by_uid|e]; [|done].
      rewrite for_each_flag; [done|]. intros u t.
      destruct (by_uid !! u) as [entry|]; [|done].
      by destruct (truthy (JDict entry)).
    + unfold fill_from_dict. rewrite for_each_flag; [done|]. intros u t.
      cbv zeta. destruct (truthy (dict_get d u)); [|done].
      by destruct (dict_get d u).
  - destruct body as [[| | | | | |b]|]; simpl; by destruct (status =? 429)%Z.
Qed.

Lemma get_live_status_batch_flag r uids flag :
  (get_live_status_batch r uids flag).2 = signal_after r uids flag.
Proof.
  destruct (get_live_status_batch_eq r uids flag) as (m & -> & _).
  simpl. apply fetch_try_flag.
Qed.

(** What a fetch does to the flag: a 429 sets it, a 200 with application
    code 0 clears it, every other outcome leaves it as it was. *)
Lemma signal_after_cases r uids flag :
  (forallb int_ok uids = true →
     (∀ b, r = Response 429 b → signal_after r uids flag = true) ∧
     (is_success r = true → signal_after r uids flag = false)) ∧
  (is_success r = false → (∀ b, r ≠ Response 429 b) →
   signal_after r uids flag = flag) ∧
  (forallb int_ok uids = false → signal_after r uids flag = flag).
Proof.
  unfold signal_after. split; [|split].
  - intros Hint. rewrite Hint. simpl. split.
    + intros b ->. by destruct b as [[]|].
    + intros Hok. destruct r; [done|]. by rewrite Hok.
  - intros Hfail H429. destruct (negb _); [done|].
    destruct r as [|status body]; [done|]. rewrite Hfail.
    destruct (status =? 429)%Z eqn:E; [|done].
    exfalso. apply (H429 body). f_equal. lia.
  - intros Hint. by rewrite Hint.
Qed.

(** A lookup leaves the flag as the batch fetch for the one identifier
    leaves it, and returns. *)
Lemma get_live_status_flag r uid flag :
  ∃ st, get_live_status r uid flag = (Returned st, signal_after r [uid] flag).
Proof.
  destruct (get_live_status_batch_eq r [uid] flag) as (m & Hrun & _).
  destruct (get_live_status_run r uid flag m _ Hrun) as (st & _ & Hget).
  exists st. rewrite Hget. f_equal.
  pose proof (get_live_status_batch_flag r [uid] flag) as Hf.
  by rewrite Hrun in Hf.
Qed.

(** The lookups answered during a sleep write the flag one after the
    other and nothing else. *)
Lemma command_lookups_run meanwhile s :
  for_each meanwhile command_lookup s
  = (Returned tt,
     {| plug := set_last_rate_limited
                  (fold_left (λ f c, signal_after c.1 [c.2] f) meanwhile
                             (_last_rate_limited (plug s))) (plug s);
        consecutive_errors := consecutive_errors s;
        trace := trace s |}).
Proof.
  revert s. induction meanwhile as [|[r u] l IH]; intros s.
  - simpl. by destruct s as [[] ? ?].
  - rewrite for_each_cons. unfold command_lookup at 1, with_plugin, with_flag.
    py_unfold. simpl.
    destruct (get_live_status_flag r u (_last_rate_limited (plug s))) as [st ->].
    simpl. rewrite IH. simpl. done.
Qed.

(** With no lookup in between, the cycle is [cycle_body]. *)
Lemma cycle_body_among_nil env s : cycle_body_among env [] s = cycle_body env s.
Proof.
  unfold cycle_body_among, cycle_body, sleep_among, sleep. py_unfold.
  destruct (monitored_uids (plug s)); reflexivity.
Qed.

(** C5 (amended): the flag set by an HTTP 429 is a latch that every fetch
    shares.  A batch fetch of the loop and a lookup of a command alike
    set it on a 429, clear it on a 200 with application code 0, and leave
    it as it was on every other outcome.  In a cycle that runs to its end
    the interval update reads the flag after the sleep, as the last fetch
    before it left it: the fetch of the cycle followed by the command
    lookups answered before the update.  With no such lookup this is the
    flag the fetch of the cycle left (the value of the previous fetch when
    that fetch was neither a 429 nor a success); a flag that is set stays
    set while no fetch succeeds, and a lookup that succeeds just before
    the update clears it. *)
Theorem rate_limit_signal_latched env meanwhile s :
  env_fault env = None → monitored_uids (plug s) ≠ [] →
  let uids := cycle_uids (plug s) (env_now env) in
  let after_fetch :=
    (get_live_status_batch (env_http env) uids (_last_rate_limited (plug s))).2 in
  let seen :=
    fold_left (λ f c, (get_live_status c.1 c.2 f).2) meanwhile after_fetch in
  (∃ s', cycle_body_among env meanwhile s = (Returned tt, s') ∧
     _last_rate_limited (plug s') = seen ∧
     current_interval (plug s')
       = interval_update (check_interval (plug s)) (current_interval (plug s))
                         seen) ∧
  (meanwhile = [] →
   cycle_body_among env meanwhile s = cycle_body env s ∧ seen = after_fetch) ∧
  (∀ r us f,
     let f' := (get_live_status_batch r us f).2 in
     (forallb int_ok us = true →
        (∀ b, r = Response 429 b → f' = true) ∧
        (is_success r = true → f' = false)) ∧
     (is_success r = false → (∀ b, r ≠ Response 429 b) → f' = f) ∧
     (forallb int_ok us = false → f' = f)) ∧
  (∀ r u f, (get_live_status r u f).2 = (get_live_status_batch r [u] f).2) ∧
  (_last_rate_limited (plug s) = true →
   is_success (env_http env) = false →
   (∀ c, c ∈ meanwhile → is_success c.1 = false) →
   seen = true) ∧
  (∀ before c,
     meanwhile = (before ++ [c])%list →
     forallb int_ok [c.2] = true → is_success c.1 = true →
     seen = false).
Proof.
  intros Hnf Hne uids after_fetch seen.
  assert (∀ r u f, (get_live_status r u f).2 = signal_after r [u] f) as Hlook.
  { intros r u f. by destruct (get_live_status_flag r u f) as [st ->]. }
  assert (seen = fold_left (λ f c, signal_after c.1 [c.2] f) meanwhile
                           after_fetch) as Hseen.
  { subst seen. generalize after_fetch. clear -Hlook.
    induction meanwhile as [|c l IH]; intros f; [done|].
    simpl. by rewrite Hlook, IH. }
  assert (after_fetch = signal_after (env_http env) uids
                                     (_last_rate_limited (plug s))) as Hafter.
  { apply get_live_status_batch_flag. }
  split; [|split; [|split; [|split; [|split]]]].
  - destruct (cycle_status_map_eq env (plug s)) as [flag' Hbatch].
    assert (after_fetch = flag') as Hfl0.
    { subst after_fetch uids. by rewrite Hbatch. }
    set (now := env_now env) in *.
    set (sm := cycle_status_map env (plug s)) in *.
    set (s0 := {| plug := set_last_rate_limited flag' (plug s);
                  consecutive_errors := consecutive_errors s;
                  trace := trace s |}).
    destruct (process_items_run env now sm 0 (monitored_uids (plug s)) s0 Hnf)
      as (evs & Hrun & _).
    pose proof (foldl_apply_status_static now sm (monitored_uids (plug s))
                  (set_last_rate_limited flag' (plug s))) as Hst.
    unfold static_fields in Hst. simpl in Hst.
    injection Hst as Hci _ _ _ _ Hcur Hfl.
    unfold cycle_body_among, sleep_among, with_plugin, with_flag. py_unfold.
    destruct (monitored_uids (plug s)) as [|item items] eqn:Hreg; [done|].
    rewrite interrupt_none by done. fold now. rewrite Hbatch.
    fold s0. rewrite Hrun. simpl.
    unfold set_consecutive_errors, emit, update_plugin. py_unfold. simpl.
    rewrite command_lookups_run. simpl. rewrite interrupt_none by done. simpl.
    eexists. split; [done|]. simpl.
    fold (apply_status now sm (set_last_rate_limited flag' (plug s)) item).
    simpl in Hci, Hcur, Hfl. rewrite Hci, Hcur, Hfl, Hseen, Hfl0. done.
  - intros ->. split; [apply cycle_body_among_nil | done].
  - intros r us f f'. subst f'. rewrite get_live_status_batch_flag.
    apply signal_after_cases.
  - intros r u f. by rewrite Hlook, get_live_status_batch_flag.
  - intros Hset Hfail Hall. rewrite Hseen, Hafter, Hset.
    assert (∀ r us, is_success r = false → signal_after r us true = true) as Hkeep.
    { intros r us Hr. unfold signal_after. destruct (negb _); [done|].
      destruct r as [|status body]; [done|]. rewrite Hr.
      by destruct (status =? 429)%Z. }
    rewrite Hkeep by done. clear -Hall Hkeep.
    induction meanwhile as [|c l IH]; [done|]. simpl.
    rewrite Hkeep by (apply Hall; left). apply IH. intros c' Hc'. apply Hall.
    by right.
  - intros before c -> Hint Hok. rewrite Hseen, fold_left_app. simpl.
    destruct (signal_after_cases c.1 [c.2] (fold_left
                (λ f c0, signal_after c0.1 [c0.2] f) before after_fetch))
      as [H _].
    by apply H.
Qed.

(** ** The registry and add_monitor *)

Lemma dict_lookup_set_eq {V} (d : pydict V) k v :
  dict_lookup (dict_set d k v) k = Some v.
Proof.
  induction d as [|[k' v'] d IH]; simpl.
  - by rewrite decide_True.
  - destruct (decide (k' = k)) as [->|Hne]; simpl.
    + by rewrite decide_True.
    + by rewrite decide_False.
Qed.

Lemma dict_lookup_set_ne {V} (d : pydict V) k k' v :
  k ≠ k' → dict_lookup (dict_set d k v) k' = dict_lookup d k'.
Proof.
  intros Hne. induction d as [|[k0 v0] d IH]; simpl.
  - by rewrite decide_False.
  - destruct (decide (k0 = k)) as [->|Hk]; simpl.
    + by rewrite !decide_False.
    + destruct (decide (k0 = k')); [done | exact IH].
Qed.

Lemma dict_set_keys_present {V} (d : pydict V) k v v0 :
  dict_lookup d k = Some v0 → dict_keys (dict_set d k v) = dict_keys d.
Proof.
  induction d as [|[k' v'] d IH]; simpl; [done|].
  destruct (decide (k' = k)) as [->|Hne]; simpl; [done|].
  intros H. f_equal. by apply IH.
Qed.

Lemma dict_set_keys_absent {V} (d : pydict V) k v :
  dict_lookup d k = None → dict_keys (dict_set d k v) = (dict_keys d ++ [k])%list.
Proof.
  induction d as [|[k' v'] d IH]; simpl; [done|].
  destruct (decide (k' = k)) as [->|Hne]; simpl; [done|].
  intros H. f_equal. by apply IH.
Qed.

Lemma dict_lookup_None_keys {V} (d : pydict V) k :
  dict_lookup d k = None → k ∉ dict_keys d.
Proof.
  induction d as [|[k' v'] d IH]; simpl.
  - intros _ H. by apply elem_of_nil in H.
  - destruct (decide (k' = k)) as [->|Hne]; [done|].
    intros H. apply not_elem_of_cons. split; [done | by apply IH].
Qed.

(** Assignment keeps the keys of a dict unique. *)
Lemma dict_set_NoDup {V} (d : pydict V) k v :
  NoDup (dict_keys d) → NoDup (dict_keys (dict_set d k v)).
Proof.
  intros Hnd. destruct (dict_lookup d k) as [v0|] eqn:Hl.
  - by rewrite (dict_set_keys_present d k v v0).
  - rewrite dict_set_keys_absent by done.
    apply NoDup_app. split; [done|]. split; [|apply NoDup_singleton].
    intros x Hx Hx'. apply list_elem_of_singleton in Hx'. subst x.
    by apply dict_lookup_None_keys in Hl.
Qed.

(** Every record of a batch result has a live_status. *)
Lemma get_live_status_has_live_status r uid flag :
  ∃ st flag' v,
    get_live_status r uid flag = (Returned st, flag') ∧
    dict_lookup st "live_status" = Some v.
Proof.
  destruct (get_live_status_batch_eq r [uid] flag) as (m & Hrun & _).
  destruct (get_live_status_run r uid flag m _ Hrun) as (st & Hst & Hget).
  exists st. eexists. 
  destruct (get_live_status_batch_lookup r [uid] flag m _ uid Hrun)
    as [[_ Hz]|[(_ & rec & _ & Hr)|[_ Hn]]]; rewrite Hst in *.
  - injection Hz as ->. by eexists.
  - injection Hr as ->. by eexists.
  - done.
Qed.

(** C6 (amended): for an identifier that is already in the registry,
    add_monitor returns a reply, leaves the keys of the registry (their
    number and order) and every other entry as they are.  It has no
    duplicate check: when the identifier is numeric, the registry is below
    its cap and the lookup yields a truthy uname, the add is accepted, the
    existing entry is replaced by a new one with added_time = now and the
    sender and origin of this command, and the cached state is overwritten
    by the fetched live_status; otherwise the registry and the cache are
    unchanged. *)
Theorem add_monitor_existing r now event p cmd uid rest old :
  message_args event = cmd :: uid :: rest →
  dict_lookup (monitored_uids p) uid = Some old →
  ∃ st flag' v rp p',
    get_live_status r uid (_last_rate_limited p) = (Returned st, flag') ∧
    dict_lookup st "live_status" = Some v ∧
    add_monitor r now event p = (Returned rp, p') ∧
    dict_keys (monitored_uids p') = dict_keys (monitored_uids p) ∧
    (∀ u, u ≠ uid →
       dict_lookup (monitored_uids p') u = dict_lookup (monitored_uids p) u) ∧
    if isdigit uid
       && (Z.of_nat (length (monitored_uids p)) <? max_monitors p)%Z
       && truthy (dict_get st "uname")
    then
      rp = ReplyAdded (dict_get_or st "uname" (JStr "未知UP主")) uid ∧
      dict_lookup (monitored_uids p') uid
        = Some {| uname := dict_get_or st "uname" (JStr "");
                  room_id := dict_get_or st "room_id" (JInt 0);
                  added_by := sender_name event;
                  added_time := now;
                  unified_msg_origin := JStr (event_origin event) |} ∧
      live_status_cache p' !! uid = Some v
    else
      monitored_uids p' = monitored_uids p ∧
      live_status_cache p' = live_status_cache p.
Proof.
  intros Hargs Hold.
  destruct (get_live_status_has_live_status r uid (_last_rate_limited p))
    as (st & flag' & v & Hget & Hv).
  exists st, flag', v. unfold add_monitor, with_flag. py_unfold.
  rewrite Hargs. destruct (isdigit uid); simpl.
  2:{ by eexists _, _. }
  destruct (Z.leb_spec (max_monitors p) (Z.of_nat (length (monitored_uids p))))
    as [Hcap|Hcap].
  { assert ((Z.of_nat (length (monitored_uids p)) <? max_monitors p)%Z = false)
      as -> by lia.
    simpl. by eexists _, _. }
  assert ((Z.of_nat (length (monitored_uids p)) <? max_monitors p)%Z = true)
    as -> by lia.
  rewrite Hget. simpl.
  destruct (truthy (dict_get st "uname")); simpl.
  2:{ by eexists _, _. }
  rewrite Hv. simpl. eexists _, _. repeat (split; [done|]). simpl.
  split; [by apply (dict_set_keys_present _ _ _ old)|].
  split; [intros u Hu; by apply dict_lookup_set_ne|].
  split; [done|]. split; [apply dict_lookup_set_eq|].
  by rewrite lookup_insert_eq.
Qed.

(** * Further properties *)

(** ** The loop as a sequence of writes *)

Lemma process_items_steps env now sm k items s :
  rtc loop_step s (process_items env now sm k items s).2.
Proof.
  revert k s. induction items as [|item items IH]; intros k s; [done|].
  cbn [process_items]. py_unfold.
  destruct (interrupt_cases env (InLoop k) s) as [->|(e & He & ->)]; [|done].
  pose proof (step_uid env now sm item s) as Hstep.
  destruct item as [uid info].
  destruct (process_uid_run env now sm uid info s) as (evs & Hrun & _).
  rewrite Hrun in *. simpl in Hstep.
  eapply rtc_l; [exact Hstep|].
  match goal with |- context [process_items env now sm (S k) items ?s1] =>
    specialize (IH (S k) s1);
    destruct (process_items env now sm (S k) items s1) as [[[]|e] s2] end;
    exact IH.
Qed.

Lemma cycle_body_steps env s : rtc loop_step s (cycle_body env s).2.
Proof.
  unfold cycle_body, sleep, with_plugin, with_flag. py_unfold.
  destruct (monitored_uids (plug s)) as [|item items] eqn:Hreg.
  { rewrite emit_push.
    destruct (interrupt_cases env AtSleep (push s [Sleep (check_interval (plug s))]))
      as [->|(e & He & ->)]; apply rtc_once, step_sleep. }
  destruct (interrupt_cases env AtStart s) as [->|(e & He & ->)]; [|done].
  destruct (get_live_status_batch_eq (env_http env)
              (cycle_uids (plug s) (env_now env)) (_last_rate_limited (plug s)))
    as (m & -> & _).
  eapply rtc_l; [apply (step_fetch s)|].
  match goal with |- context [process_items env ?now m 0 ?its ?s0] =>
    pose proof (process_items_steps env now m 0 its s0) as Hitems;
    destruct (process_items env now m 0 its s0) as [[[]|e] s1] end;
    simpl in *; [|exact Hitems].
  etrans; [exact Hitems|].
  eapply rtc_l; [apply (step_counter s1 0)|].
  eapply rtc_l; [apply step_sleep|]. unfold push. simpl.
  match goal with |- context [interrupt env AtSleep ?s2] =>
    destruct (interrupt_cases env AtSleep s2) as [->|(e & He & ->)] end;
    simpl; [|done].
  eapply rtc_once.
  match goal with |- loop_step ?s2 _ => exact (step_interval s2) end.
Qed.

Lemma loop_iter_steps env s : rtc loop_step s (loop_iter env s).2.
Proof.
  pose proof (cycle_body_steps env s) as H. unfold loop_iter.
  destruct (cycle_body env s) as [[[]|[]] s1]; simpl in *; try exact H.
  etrans; [exact H|].
  unfold on_exception, set_consecutive_errors. py_unfold. rewrite emit_push.
  simpl.
  eapply rtc_l; [apply (step_counter s1 (consecutive_errors s1 + 1))|].
  destruct (env_handler_cancelled env); apply rtc_once, step_sleep.
Qed.

Lemma run_loop_steps envs s : rtc loop_step s (run_loop envs s).2.
Proof.
  revert s. induction envs as [|env envs IH]; intros s; [done|].
  cbn [run_loop]. pose proof (loop_iter_steps env s) as H.
  destruct (loop_iter env s) as [[| |e] s1]; simpl in *; try exact H.
  etrans; [exact H | apply IH].
Qed.

(** What every write keeps, every run of the loop keeps. *)
Lemma run_loop_invariant (P : loop_state → Prop) envs s :
  (∀ s1 s2, loop_step s1 s2 → P s1 → P s2) →
  P s → P (run_loop envs s).2.
Proof.
  intros Hstep Hs. pose proof (run_loop_steps envs s) as H.
  induction H as [|s1 s2 s3 H12 _ IH]; [done|]. apply IH. by eapply Hstep.
Qed.

(** ** What the loop never writes *)

(** X1: over any sequence of iterations, whatever the environment does,
    the loop leaves the registry, the two notification flags, the base
    interval and the cap as they were. *)
Theorem loop_keeps_registry_and_flags envs p :
  let p' := plug (monitor_live_status envs p).2 in
  monitored_uids p' = monitored_uids p ∧
  enable_notifications p' = enable_notifications p ∧
  enable_end_notifications p' = enable_end_notifications p ∧
  check_interval p' = check_interval p ∧
  max_monitors p' = max_monitors p.
Proof.
  unfold monitor_live_status.
  apply (run_loop_invariant (λ s,
    monitored_uids (plug s) = monitored_uids p ∧
    enable_notifications (plug s) = enable_notifications p ∧
    enable_end_notifications (plug s) = enable_end_notifications p ∧
    check_interval (plug s) = check_interval p ∧
    max_monitors (plug s) = max_monitors p)); [|done].
  intros s1 s2 Hstep Hs1. destruct Hstep as [| | | |env now sm [uid info] s];
    try exact Hs1.
  destruct (process_uid_run env now sm uid info s) as (evs & -> & _). simpl.
  pose proof (apply_status_static now sm (plug s) (uid, info)) as Hst.
  unfold static_fields in Hst. injection Hst as -> -> -> -> -> _ _.
  exact Hs1.
Qed.

(** ** The two backoff maps *)

(** X2: the loop keeps the two backoff maps aligned: if, before a run,
    exactly the identifiers with a count have a skip deadline and every
    count is at least 1, the same holds after any sequence of iterations,
    whatever the environment does. *)
Theorem loop_keeps_backoff_maps_aligned envs p :
  dom (uid_skip_until p) = dom (uid_error_counts p) →
  (∀ uid c, uid_error_counts p !! uid = Some c → 1 <= c) →
  let p' := plug (monitor_live_status envs p).2 in
  dom (uid_skip_until p') = dom (uid_error_counts p') ∧
  (∀ uid c, uid_error_counts p' !! uid = Some c → 1 <= c).
Proof.
  intros Hdom Hpos. unfold monitor_live_status.
  apply (run_loop_invariant (λ s,
    dom (uid_skip_until (plug s)) = dom (uid_error_counts (plug s)) ∧
    (∀ uid c, uid_error_counts (plug s) !! uid = Some c → 1 <= c)));
    [|done].
  intros s1 s2 Hstep Hs1. destruct Hstep as [| | | |env now sm [uid info] s];
    try exact Hs1.
  destruct (process_uid_run env now sm uid info s) as (evs & -> & _). simpl.
  destruct Hs1 as [Hd Hc]. unfold apply_status, record_backoff. cbv zeta.
  destruct (is_empty _); simpl; split.
  - by rewrite !dom_insert_L, Hd.
  - intros u c. rewrite lookup_insert. case_decide as Hu; [|by apply Hc].
    intros [= <-].
    destruct (uid_error_counts (plug s) !! uid) as [c0|] eqn:Hl; simpl; [|lia].
    apply Hc in Hl. lia.
  - by rewrite !dom_delete_L, Hd.
  - intros u c. rewrite lookup_delete. case_decide as Hu; [done | by apply Hc].
Qed.

(** ** Sender calls over a run *)

Lemma calls_app uid tr evs :
  calls uid (tr ++ evs) = (calls uid tr ++ calls uid evs)%list.
Proof. unfold calls. apply omap_app. Qed.

Lemma calls_cons uid e evs :
  calls uid (e :: evs)
  = match call_of uid e with Some b => b :: calls uid evs | None => calls uid evs end.
Proof. reflexivity. Qed.

Lemma calls_none uid evs :
  (∀ u, (SendLive u ∉ evs) ∧ (SendEnd u ∉ evs)) → calls uid evs = [].
Proof.
  induction evs as [|e evs IH]; intros H; [done|].
  rewrite calls_cons.
  assert (call_of uid e = None) as ->.
  { destruct e as [u|u| | |]; try done; exfalso.
    - apply (proj1 (H u)). left.
    - apply (proj2 (H u)). left. }
  apply IH. intros u. destruct (H u) as [H1 H2].
  split; intros Hin; [apply H1 | apply H2]; by right.
Qed.

Lemma replay_app live l l' :
  replay live (l ++ l') = replay live l ≫= λ live', replay live' l'.
Proof.
  revert live. induction l as [|b l IH]; intros live; [done|].
  simpl. destruct (Bool.eqb b live); [done | apply IH].
Qed.

(** The calls one step of the per-identifier loop adds for [uid], and the
    state it leaves. *)
Lemma process_uid_calls env now sm uid0 info s uid :
  let new := is_live (dict_get (default synthetic_status (sm !! uid0)) "live_status") in
  let prev := cached_live (plug s) uid0 in
  ∃ evs,
    (process_uid env now sm (uid0, info) s).2
      = {| plug := apply_status now sm (plug s) (uid0, info);
           consecutive_errors := consecutive_errors s;
           trace := trace s ++ evs |} ∧
    calls uid evs
      = if String.eqb uid0 uid then
          if new && negb prev then [true]
          else if prev && negb new then [false] else []
        else [].
Proof.
  intros new prev. unfold process_uid. py_unfold.
  unfold cached_live in prev. fold new. fold prev.
  destruct new eqn:Hnew, prev eqn:Hprev; simpl.
  - exists []. rewrite app_nil_r. split; [done|]. by destruct (String.eqb uid0 uid).
  - destruct (send_live_notification_run (env_deliver env uid0) uid0
                (default synthetic_status (sm !! uid0)) info s)
      as (evs & Hrun & _ & Hno & _).
    rewrite Hrun. simpl. exists (SendLive uid0 :: evs). split; [done|].
    rewrite calls_cons, (calls_none uid evs Hno). simpl.
    by destruct (String.eqb uid0 uid).
  - destruct (send_end_notification_run (env_deliver env uid0) uid0
                (default synthetic_status (sm !! uid0)) info s)
      as (evs & Hrun & _ & Hno & _).
    rewrite Hrun. simpl. exists (SendEnd uid0 :: evs). split; [done|].
    rewrite calls_cons, (calls_none uid evs Hno). simpl.
    by destruct (String.eqb uid0 uid).
  - exists []. rewrite app_nil_r. split; [done|]. by destruct (String.eqb uid0 uid).
Qed.

Lemma cached_live_apply_status now sm p uid0 info uid :
  cached_live (apply_status now sm p (uid0, info)) uid
  = if String.eqb uid0 uid
    then is_live (dict_get (default synthetic_status (sm !! uid0)) "live_status")
    else cached_live p uid.
Proof.
  unfold cached_live. destruct (String.eqb_spec uid0 uid) as [->|Hne].
  - destruct (apply_status_self now sm p uid info) as [-> _]. simpl.
    apply is_live_get_or.
  - destruct (apply_status_other now sm p (uid0, info) uid Hne) as [-> _]. done.
Qed.

(** X3: in a run of the loop in which no cancellation arrives and in which
    the loop alone writes the cache, over any sequence of iterations and
    whatever the responses, the failed deliveries and the exceptions are,
    the calls of the two senders for an identifier are in order: read
    from the live-ness the cache held before the run, every
    send_live_notification comes when the identifier is not live and
    every send_end_notification when it is live, so the two alternate,
    and the live-ness after the last call is the one the cache holds at
    the end.  (A cancellation that arrives inside a delivery leaves the
    sender called and the cache unwritten; the loop then stops.) *)
Theorem sender_calls_alternate envs p uid :
  (∀ env, env ∈ envs → not_cancelled env) →
  replay (cached_live p uid)
         (calls uid (trace (monitor_live_status envs p).2))
  = Some (cached_live (plug (monitor_live_status envs p).2) uid).
Proof.
  intros _. unfold monitor_live_status.
  apply (run_loop_invariant (λ s,
    replay (cached_live p uid) (calls uid (trace s))
    = Some (cached_live (plug s) uid))); [|done].
  intros s1 s2 Hstep Hs1.
  destruct Hstep as [s d|s f|s n|s|env now sm [uid0 info] s]; try exact Hs1.
  - unfold push. simpl. rewrite calls_app. simpl. by rewrite app_nil_r.
  - destruct (process_uid_calls env now sm uid0 info s uid) as (evs & -> & Hc).
    simpl. rewrite calls_app, replay_app, Hs1. simpl. rewrite Hc.
    rewrite cached_live_apply_status.
    destruct (String.eqb_spec uid0 uid) as [->|Hne]; [|done].
    destruct (is_live _), (cached_live (plug s) uid); done.
Qed.

(** ** Notifications switched off *)



(** ** Cancellation and idling *)

Lemma process_items_returns env now sm k items s :
  (∀ j e, env_fault env ≠ Some (InLoop j, e)) →
  (process_items env now sm k items s).1 = Returned tt.
Proof.
  intros Hf. revert k s.
  induction items as [|[uid info] items IH]; intros k s; [done|].
  cbn [process_items]. py_unfold.
  destruct (interrupt_cases env (InLoop k) s) as [->|(e & He & _)];
    [|by apply Hf in He].
  destruct (process_uid_run env now sm uid info s) as (evs & -> & _).
  match goal with |- context [process_items env now sm (S k) items ?s1] =>
    specialize (IH (S k) s1);
    destruct (process_items env now sm (S k) items s1) as [[[]|e] s2] end;
    done.
Qed.

(** X5: the loop stops only by cancellation, and cancellation stops it.
    Whenever a run of the loop has stopped, it stopped by [break] or by a
    CancelledError that left the exception handler, and a cancellation
    arrived in one of its iterations.  A cancellation that arrives in the
    sleep that ends a cycle makes the loop break at once: the later
    iterations do not run, no failure is counted (the counter is 0, or
    untouched when the registry is empty) and the interval is not
    updated. *)
Theorem loop_stops_by_cancellation_only :
  (∀ envs s c s',
     run_loop envs s = (c, s') → c ≠ Continue →
     (c = Break ∨ c = Propagated CancelledError) ∧
     ∃ env, env ∈ envs ∧ ¬ not_cancelled env) ∧
  (∀ env rest s,
     env_fault env = Some (AtSleep, CancelledError) →
     ∃ s1, run_loop (env :: rest) s = (Break, s1) ∧
       consecutive_errors s1
         = (match monitored_uids (plug s) with
            | [] => consecutive_errors s
            | _ :: _ => 0
            end) ∧
       current_interval (plug s1) = current_interval (plug s)).
Proof.
  split.
  - intros envs. induction envs as [|env envs IH]; intros s c s' Hrun Hc.
    { injection Hrun as <- _. done. }
    cbn [run_loop] in Hrun.
    pose proof (cycle_body_any env s) as Hany. unfold loop_iter in Hrun.
    destruct (cycle_body env s) as [[[]|e] s1].
    + destruct (IH s1 c s' Hrun Hc) as [Hkind (env' & Hin & Hcan)].
      split; [done|]. exists env'. split; [by right | done].
    + destruct Hany as ((pt & Hpt) & _). destruct e.
      * unfold on_exception, set_consecutive_errors, emit in Hrun.
        py_unfold. simpl in Hrun.
        destruct (env_handler_cancelled env) eqn:Hh.
        -- injection Hrun as <- _. split; [by right|].
           exists env. split; [by left|]. intros [Hn _]. congruence.
        -- destruct (IH _ c s' Hrun Hc) as [Hkind (env' & Hin & Hcan)].
           split; [done|]. exists env'. split; [by right | done].
      * injection Hrun as <- _. split; [by left|].
        exists env. split; [by left|]. intros [_ Hn]. by apply Hn in Hpt.
  - intros env rest s Hf. cbn [run_loop]. unfold loop_iter.
    unfold cycle_body, sleep, with_plugin, with_flag. py_unfold.
    assert (∀ s0, interrupt env AtSleep s0 = (Raised CancelledError, s0)) as Hint.
    { intros s0. unfold interrupt. rewrite Hf. by rewrite decide_True. }
    destruct (monitored_uids (plug s)) as [|item items] eqn:Hreg.
    { rewrite emit_push, Hint. by eexists. }
    assert (interrupt env AtStart s = (Returned tt, s)) as ->.
    { unfold interrupt. rewrite Hf. by rewrite decide_False. }
    destruct (get_live_status_batch_eq (env_http env)
                (cycle_uids (plug s) (env_now env)) (_last_rate_limited (plug s)))
      as (m & -> & _).
    match goal with |- context [process_items env ?now m 0 ?its ?s0] =>
      pose proof (process_items_returns env now m 0 its s0) as Hret;
      destruct (process_items_any env now m 0 its s0) as (_ & Hst & _);
      destruct (process_items env now m 0 its s0) as [o s1] end.
    simpl in Hret. rewrite Hret; [|intros j e; rewrite Hf; congruence].
    simpl. rewrite Hint. eexists. split; [done|]. simpl. split; [done|].
    unfold static_fields in Hst. simpl in Hst. congruence.
Qed.

(** X6: while the registry is empty the loop only sleeps: over any number
    of iterations that nothing interrupts, every iteration sleeps
    check_interval (not the current interval), and the plugin (with the
    rate-limit flag and a raised current interval) and the failure
    counter stay as they are. *)
Theorem idle_loop_only_sleeps envs s :
  monitored_uids (plug s) = [] →
  (∀ env, env ∈ envs → env_fault env = None) →
  run_loop envs s
  = (Continue,
     push s (replicate (length envs) (Sleep (check_interval (plug s))))).
Proof.
  intros Hreg. revert s Hreg.
  induction envs as [|env envs IH]; intros s Hreg Hnf.
  { simpl. unfold push. simpl. rewrite app_nil_r. by destruct s. }
  cbn [run_loop]. unfold loop_iter, cycle_body, sleep. py_unfold.
  rewrite Hreg, emit_push, interrupt_none by (apply Hnf; left).
  rewrite IH; [|done|intros env' Hin; apply Hnf; by right].
  by rewrite push_push.
Qed.

(** ** A cycle whose fetch fails *)

Lemma cycle_status_of_failed_fetch env p uid :
  is_success (env_http env) = false →
  cycle_status env p uid = zero_status ∨
  cycle_status env p uid = synthetic_status.
Proof.
  intros Hfail. unfold cycle_status.
  destruct (cycle_status_map_eq env p) as [flag' Hb].
  destruct (get_live_status_batch_lookup _ _ _ _ _ uid Hb)
    as [[_ ->]|[(_ & rec & Hrec & _)|[_ ->]]]; [by left | | by right].
  unfold upstream_record in Hrec. rewrite Hfail in Hrec.
  by destruct (env_http env) as [|? [[]|]].
Qed.

(** X7: an outage looks like everybody going offline.  In a cycle that
    runs to its end and whose fetch is not answered by HTTP 200 with code
    0, every registered identifier has its cache set to 0,
    send_end_notification called iff its cached state was 1,
    send_live_notification not called, its count incremented and its skip
    deadline set to now + min(300, 30 * count). *)
Theorem failed_fetch_marks_everyone_offline env s uid info :
  env_fault env = None →
  NoDup (dict_keys (monitored_uids (plug s))) →
  (uid, info) ∈ monitored_uids (plug s) →
  is_success (env_http env) = false →
  let cnt := default 0 (uid_error_counts (plug s) !! uid) + 1 in
  ∃ s' evs,
    cycle_body env s = (Returned tt, s') ∧
    trace s' = (trace s ++ evs)%list ∧
    live_status_cache (plug s') !! uid = Some (JInt 0) ∧
    (SendEnd uid ∈ evs ↔ cached_live (plug s) uid = true) ∧
    (SendLive uid ∉ evs) ∧
    uid_error_counts (plug s') !! uid = Some cnt ∧
    uid_skip_until (plug s') !! uid
      = Some (env_now env + inject_Z (Z.min 300 (30 * cnt)))%Q.
Proof.
  intros Hnf Hnd Hin Hfail cnt.
  destruct (cycle_body_events env s uid info Hnf Hnd Hin)
    as (s' & evs & Hrun & Htr & Hl & He).
  destruct (cycle_body_entry env s uid info Hnf Hnd Hin)
    as (s1 & Hrun1 & _ & Hcache & Hb).
  rewrite Hrun in Hrun1. injection Hrun1 as <-.
  exists s', evs. repeat (split; [done|]). unfold cached_live.
  destruct (cycle_status_of_failed_fetch env (plug s) uid Hfail) as [Hz|Hz];
    rewrite Hz in Hl, He, Hcache, Hb; simpl in Hl, He, Hcache, Hb;
    destruct Hb as [Hcnt Hdl];
    (split; [done|]); (split; [|split; [|done]]).
  - etrans; [exact He|]. split; [by intros [? _] | done].
  - intros H. apply Hl in H as [? _]. done.
  - etrans; [exact He|]. split; [by intros [? _] | done].
  - intros H. apply Hl in H as [? _]. done.
Qed.

(** ** remove_monitor *)

Lemma dict_keys_lookup {V} (d : pydict V) k :
  k ∈ dict_keys d ↔ is_Some (dict_lookup d k).
Proof.
  induction d as [|[k' v'] d IH]; simpl.
  - split; [intros H; by apply elem_of_nil in H | by intros [? ?]].
  - rewrite elem_of_cons. destruct (decide (k' = k)) as [->|Hne].
    + split; [by eexists | by left].
    + rewrite <- IH. split; [intros [?|?]; [congruence | done] | by right].
Qed.

Lemma dict_lookup_del_ne {V} (d : pydict V) k k' :
  k ≠ k' → dict_lookup (dict_del d k) k' = dict_lookup d k'.
Proof.
  intros Hne. induction d as [|[k0 v0] d IH]; simpl; [done|].
  destruct (decide (k0 = k)) as [->|Hk]; simpl.
  - by rewrite decide_False.
  - destruct (decide (k0 = k')); [done | exact IH].
Qed.

Lemma dict_lookup_del_eq {V} (d : pydict V) k :
  NoDup (dict_keys d) → dict_lookup (dict_del d k) k = None.
Proof.
  induction d as [|[k0 v0] d IH]; simpl; [done|].
  intros Hnd. apply NoDup_cons in Hnd as [Hfresh Hnd].
  destruct (decide (k0 = k)) as [->|Hk]; simpl.
  - destruct (dict_lookup d k) eqn:Hl; [|done].
    exfalso. apply Hfresh. apply dict_keys_lookup. by eexists.
  - rewrite decide_False by done. by apply IH.
Qed.

Lemma dict_del_length {V} (d : pydict V) k v :
  dict_lookup d k = Some v → S (length (dict_del d k)) = length d.
Proof.
  induction d as [|[k0 v0] d IH]; simpl; [done|].
  destruct (decide (k0 = k)) as [->|Hk]; simpl; [done|].
  intros H. f_equal. by apply IH.
Qed.

Lemma dict_del_keys_subset {V} (d : pydict V) k u :
  u ∈ dict_keys (dict_del d k) → u ∈ dict_keys d.
Proof.
  induction d as [|[k0 v0] d IH]; simpl; [done|].
  destruct (decide (k0 = k)) as [->|Hk]; simpl.
  - by right.
  - rewrite !elem_of_cons. intros [?|?]; [by left | right; by apply IH].
Qed.

Lemma dict_del_NoDup {V} (d : pydict V) k :
  NoDup (dict_keys d) → NoDup (dict_keys (dict_del d k)).
Proof.
  induction d as [|[k0 v0] d IH]; simpl; [done|].
  intros Hnd. apply NoDup_cons in Hnd as [Hfresh Hnd].
  destruct (decide (k0 = k)) as [->|Hk]; simpl; [done|].
  apply NoDup_cons. split; [|by apply IH].
  intros H. apply Hfresh. by eapply dict_del_keys_subset.
Qed.

(** Deleting the key an assignment has just added gives the dict back. *)
Lemma dict_del_set_fresh {V} (d : pydict V) k v :
  dict_lookup d k = None → dict_del (dict_set d k v) k = d.
Proof.
  induction d as [|[k0 v0] d IH]; simpl.
  - by rewrite decide_True.
  - destruct (decide (k0 = k)) as [->|Hk]; [done|]. simpl.
    rewrite decide_False by done. intros H. f_equal. by apply IH.
Qed.

Lemma save_config_run w st :
  save_config w st
  = (Returned tt,
     set_config_file (match w with
                      | Written => Holds (snapshot (core st))
                      | OpenFails => config_file st
                      | DumpFails => Corrupt
                      end) st).
Proof. unfold save_config. py_unfold. destruct w, st; done. Qed.

(** X8: remove_monitor for a registered identifier replies that it was
    removed; afterwards the identifier is in neither the registry nor the
    cache, the registry is one entry shorter and still duplicate-free,
    every other entry and every other cache entry is as before, and the
    config file is rewritten from the new state when the write succeeds.
    The two backoff maps are not touched: the count and the skip deadline
    of the removed identifier stay. *)
Theorem remove_monitor_registered w event st cmd uid rest old :
  message_args event = cmd :: uid :: rest →
  isdigit uid = true →
  NoDup (dict_keys (monitored_uids (core st))) →
  dict_lookup (monitored_uids (core st)) uid = Some old →
  ∃ st',
    remove_monitor w event st = (Returned (Removed uid), st') ∧
    dict_lookup (monitored_uids (core st')) uid = None ∧
    S (length (monitored_uids (core st'))) = length (monitored_uids (core st)) ∧
    NoDup (dict_keys (monitored_uids (core st'))) ∧
    (∀ u, u ≠ uid →
       dict_lookup (monitored_uids (core st')) u
         = dict_lookup (monitored_uids (core st)) u) ∧
    live_status_cache (core st') = delete uid (live_status_cache (core st)) ∧
    uid_error_counts (core st') = uid_error_counts (core st) ∧
    uid_skip_until (core st') = uid_skip_until (core st) ∧
    config_file st' = match w with
                      | Written => Holds (snapshot (core st'))
                      | OpenFails => config_file st
                      | DumpFails => Corrupt
                      end.
Proof.
  intros Hargs Hdig Hnd Hold. unfold remove_monitor, with_core. py_unfold.
  rewrite Hargs, Hdig. simpl. rewrite Hold. simpl. rewrite save_config_run.
  simpl. eexists. split; [done|]. simpl.
  assert (∀ p, live_status_cache
                 match live_status_cache p !! uid with
                 | Some _ => set_live_status_cache (delete uid (live_status_cache p)) p
                 | None => p
                 end = delete uid (live_status_cache p)) as Hcache.
  { intros p. destruct (live_status_cache p !! uid) eqn:Hl; [done|].
    symmetry. by apply delete_id. }
  destruct (live_status_cache (core st) !! uid) eqn:Hl; simpl.
  - split; [by apply dict_lookup_del_eq|].
    split; [by eapply dict_del_length|].
    split; [by apply dict_del_NoDup|].
    split; [intros u Hu; by apply dict_lookup_del_ne|].
    repeat split; by destruct w.
  - split; [by apply dict_lookup_del_eq|].
    split; [by eapply dict_del_length|].
    split; [by apply dict_del_NoDup|].
    split; [intros u Hu; by apply dict_lookup_del_ne|].
    split; [symmetry; by apply delete_id|].
    repeat split; by destruct w.
Qed.

(** X9: remove_monitor always replies, and unless the reply is that the
    identifier was removed nothing at all changes, not even the config
    file: a missing argument, a non-numeric identifier and an identifier
    that is not in the registry are all rejected before any write. *)
Theorem remove_monitor_rejections w event st :
  ∃ rp st',
    remove_monitor w event st = (Returned rp, st') ∧
    rp ≠ RemoveFailed ∧
    ((∃ uid, rp = Removed uid ∧
             is_Some (dict_lookup (monitored_uids (core st)) uid)) ∨
     st' = st).
Proof.
  unfold remove_monitor, with_core. py_unfold.
  destruct (message_args event) as [|cmd [|uid rest]].
  { eexists _, _. split; [done|]. split; [done | by right]. }
  { eexists _, _. split; [done|]. split; [done | by right]. }
  destruct (isdigit uid); simpl.
  2:{ eexists _, _. split; [done|]. split; [done | by right]. }
  destruct (dict_lookup (monitored_uids (core st)) uid) eqn:Hl; simpl.
  - rewrite save_config_run. simpl. eexists _, _. split; [done|].
    split; [done|]. left. exists uid. split; [done | by eexists].
  - eexists _, _. split; [done|]. split; [done | by right].
Qed.

(** ** What a lookup returns *)

(** The fetch never reads the flag: the map its [try] builds is the same
    whatever flag it finds. *)
Lemma fetch_try_same_map r uids m f f' :
  result_map (fetch_try r uids {| result_map := m; rate_flag := f |}).2
  = result_map (fetch_try r uids {| result_map := m; rate_flag := f' |}).2.
Proof.
  unfold fetch_try.
  destruct (negb (forallb int_ok uids)); [done|].
  destruct r as [|status body]; [done|].
  destruct (status =? 200)%Z.
  - destruct body as [[| | | | | |b]|]; try done.
    by destruct (py_eq_int (dict_get b "code") 0).
  - by destruct (status =? 429)%Z.
Qed.

(** The map a batch call returns does not depend on the flag it finds. *)
Lemma get_live_status_batch_same_map r uids f f' :
  (get_live_status_batch r uids f).1 = (get_live_status_batch r uids f').1.
Proof.
  destruct (get_live_status_batch_eq r uids f) as (m & -> & Hm).
  destruct (get_live_status_batch_eq r uids f') as (m' & -> & Hm').
  simpl. f_equal. apply map_eq. intros u. rewrite Hm, Hm'.
  by rewrite (fetch_try_same_map r uids ∅ f f').
Qed.

(** [get_live_status] returns the record of the response and leaves the
    flag as the fetch leaves it. *)
Lemma get_live_status_fetched r uid flag :
  get_live_status r uid flag
  = (Returned (fetched_status r uid), signal_after r [uid] flag).
Proof.
  unfold fetched_status.
  destruct (get_live_status_batch_eq r [uid] flag) as (m & Hrun & _).
  destruct (get_live_status_run r uid flag m _ Hrun) as (st & Hst & Hget).
  destruct (get_live_status_batch_eq r [uid] false) as (m' & Hrun' & _).
  destruct (get_live_status_run r uid false m' _ Hrun') as (st' & Hst' & Hget').
  pose proof (get_live_status_batch_same_map r [uid] flag false) as Hsame.
  rewrite Hrun, Hrun' in Hsame. simpl in Hsame. injection Hsame as <-.
  rewrite Hst in Hst'. injection Hst' as <-.
  rewrite Hget, Hget'. f_equal.
  pose proof (get_live_status_batch_flag r [uid] flag) as Hf.
  by rewrite Hrun in Hf.
Qed.

Lemma fetched_status_shape r uid :
  fetched_status r uid = zero_status ∨
  ∃ rec, upstream_record r uid = Some rec ∧ fetched_status r uid = status_of rec.
Proof.
  destruct (get_live_status_batch_eq r [uid] false) as (m & Hrun & _).
  destruct (get_live_status_run r uid false m _ Hrun) as (st & Hst & Hget).
  pose proof (get_live_status_fetched r uid false) as Hf.
  rewrite Hget in Hf. injection Hf as <- _.
  destruct (get_live_status_batch_lookup r [uid] false m _ uid Hrun)
    as [[_ Hz]|[(_ & rec & Hrec & Hr)|[_ Hn]]]; rewrite Hst in *.
  - injection Hz as ->. by left.
  - injection Hr as ->. right. by exists rec.
  - done.
Qed.

(** X10: the records the fetcher hands out always have exactly the four
    keys live_status, room_id, title and uname, in this order: this holds
    for every entry of a batch result, whatever the response was. *)
Theorem status_records_have_four_keys r uids flag m flag' u st :
  get_live_status_batch r uids flag = (Returned m, flag') →
  m !! u = Some st →
  dict_keys st = ["live_status"; "room_id"; "title"; "uname"].
Proof.
  intros Hrun Hst.
  destruct (get_live_status_batch_lookup r uids flag m flag' u Hrun)
    as [[_ Hz]|[(_ & rec & _ & Hr)|[_ Hn]]]; rewrite Hst in *.
  - by injection Hz as ->.
  - by injection Hr as ->.
  - done.
Qed.

(** ** add_monitor for a new identifier, and in general *)

Lemma dict_set_fresh {V} (d : pydict V) k v :
  dict_lookup d k = None → dict_set d k v = (d ++ [(k, v)])%list.
Proof.
  induction d as [|[k0 v0] d IH]; simpl; [done|].
  destruct (decide (k0 = k)) as [->|Hk]; [done|].
  intros H. f_equal. by apply IH.
Qed.

Lemma fetched_status_live_status r uid :
  dict_lookup (fetched_status r uid) "live_status"
  = Some (dict_get (fetched_status r uid) "live_status").
Proof.
  destruct (fetched_status_shape r uid) as [->|(rec & _ & ->)]; done.
Qed.

(** What [add_monitor] does once the identifier is numeric and the
    registry below its cap. *)
Lemma add_monitor_run r now event p cmd uid rest :
  message_args event = cmd :: uid :: rest →
  isdigit uid = true →
  Z.of_nat (length (monitored_uids p)) < max_monitors p →
  let st := fetched_status r uid in
  let p1 := set_last_rate_limited (signal_after r [uid] (_last_rate_limited p)) p in
  add_monitor r now event p
  = if truthy (dict_get st "uname") then
      (Returned (ReplyAdded (dict_get_or st "uname" (JStr "未知UP主")) uid),
       set_live_status_cache
         (<[uid := dict_get st "live_status"]> (live_status_cache p))
         (set_monitored_uids
            (dict_set (monitored_uids p) uid
               {| uname := dict_get_or st "uname" (JStr "");
                  room_id := dict_get_or st "room_id" (JInt 0);
                  added_by := sender_name event;
                  added_time := now;
                  unified_msg_origin := JStr (event_origin event) |}) p1))
    else (Returned (ReplyNotFound uid), p1).
Proof.
  intros Hargs Hdig Hcap st p1. unfold add_monitor, with_flag. py_unfold.
  rewrite Hargs, Hdig. simpl.
  assert ((max_monitors p <=? Z.of_nat (length (monitored_uids p)))%Z = false)
    as -> by lia.
  rewrite get_live_status_fetched. simpl. fold st.
  destruct (truthy (dict_get st "uname")); simpl; [|done].
  unfold st. rewrite fetched_status_live_status. done.
Qed.

(** X11: add_monitor for an identifier that is not yet registered, is
    numeric, finds the registry below its cap and resolves to a truthy
    uname: the reply is that it was added, the new entry (name and room
    from the lookup, sender, time and origin of the command) is appended
    after the existing entries, which stay as they are, the registry
    stays duplicate-free, the cache gets the fetched live_status, and the
    backoff maps are not touched. *)
Theorem add_monitor_new_entry r now event p cmd uid rest :
  message_args event = cmd :: uid :: rest →
  isdigit uid = true →
  Z.of_nat (length (monitored_uids p)) < max_monitors p →
  dict_lookup (monitored_uids p) uid = None →
  truthy (dict_get (fetched_status r uid) "uname") = true →
  let st := fetched_status r uid in
  ∃ p',
    add_monitor r now event p
      = (Returned (ReplyAdded (dict_get_or st "uname" (JStr "未知UP主")) uid), p') ∧
    monitored_uids p'
      = (monitored_uids p ++
         [(uid, {| uname := dict_get_or st "uname" (JStr "");
                   room_id := dict_get_or st "room_id" (JInt 0);
                   added_by := sender_name event;
                   added_time := now;
                   unified_msg_origin := JStr (event_origin event) |})])%list ∧
    (NoDup (dict_keys (monitored_uids p)) → NoDup (dict_keys (monitored_uids p'))) ∧
    live_status_cache p'
      = <[uid := dict_get st "live_status"]> (live_status_cache p) ∧
    uid_error_counts p' = uid_error_counts p ∧
    uid_skip_until p' = uid_skip_until p.
Proof.
  intros Hargs Hdig Hcap Hnew Hname st.
  rewrite (add_monitor_run r now event p cmd uid rest Hargs Hdig Hcap).
  fold st. unfold st at 1. rewrite Hname. eexists. split; [done|]. simpl.
  split; [by apply dict_set_fresh|].
  split; [intros Hnd; by apply dict_set_NoDup | done].
Qed.

(** X12: whatever the command and the response, add_monitor replies (the
    generic failure reply never occurs), keeps the registry duplicate-free,
    and never writes the backoff maps, the intervals, the flags or the
    cap; it reports an addition only when the registry it tested at its
    start held fewer entries than the cap, and its write adds at most one
    entry; unless it reports an addition it leaves the registry and the
    cache as they are, and a command that is rejected for its arguments
    or for the cap changes nothing at all (no request is sent).  The test
    and the write are separated by the lookup: what other handlers add
    in between is not counted by the test. *)
Theorem add_monitor_keeps_registry_sound r now event p :
  ∃ rp p',
    add_monitor r now event p = (Returned rp, p') ∧
    rp ≠ ReplyFailed ∧
    (NoDup (dict_keys (monitored_uids p)) → NoDup (dict_keys (monitored_uids p'))) ∧
    ((∃ name uid, rp = ReplyAdded name uid) →
     Z.of_nat (length (monitored_uids p)) < max_monitors p) ∧
    (length (monitored_uids p') ≤ S (length (monitored_uids p)))%nat ∧
    uid_error_counts p' = uid_error_counts p ∧
    uid_skip_until p' = uid_skip_until p ∧
    (check_interval p', current_interval p', max_monitors p',
     enable_notifications p', enable_end_notifications p')
      = (check_interval p, current_interval p, max_monitors p,
         enable_notifications p, enable_end_notifications p) ∧
    ((∃ name uid, rp = ReplyAdded name uid) ∨
     (monitored_uids p' = monitored_uids p ∧
      live_status_cache p' = live_status_cache p)) ∧
    (rp = ReplyUsage ∨ rp = ReplyNotDigit ∨ rp = ReplyLimit → p' = p).
Proof.
  destruct (message_args event) as [|cmd [|uid rest]] eqn:Hargs.
  { unfold add_monitor. py_unfold. rewrite Hargs. eexists _, _.
    split; [done|]. split; [done|]. split; [done|].
    split; [by intros (?&?&?)|]. split; [lia|].
    repeat split; try done. by right. }
  { unfold add_monitor. py_unfold. rewrite Hargs. eexists _, _.
    split; [done|]. split; [done|]. split; [done|].
    split; [by intros (?&?&?)|]. split; [lia|].
    repeat split; try done. by right. }
  destruct (isdigit uid) eqn:Hdig.
  2:{ unfold add_monitor. py_unfold. rewrite Hargs, Hdig. eexists _, _.
      split; [done|]. split; [done|]. split; [done|].
      split; [by intros (?&?&?)|]. split; [simpl; lia|].
      repeat split; try done. by right. }
  destruct (Z.leb_spec (max_monitors p) (Z.of_nat (length (monitored_uids p))))
    as [Hcap|Hcap].
  { unfold add_monitor. py_unfold. rewrite Hargs, Hdig. simpl.
    assert ((max_monitors p <=? Z.of_nat (length (monitored_uids p)))%Z = true)
      as -> by lia.
    eexists _, _. split; [done|]. split; [done|]. split; [done|].
    split; [by intros (?&?&?)|]. split; [lia|].
    repeat split; try done. by right. }
  rewrite (add_monitor_run r now event p cmd uid rest Hargs Hdig Hcap).
  destruct (truthy (dict_get (fetched_status r uid) "uname")).
  - eexists _, _. split; [done|]. simpl. split; [done|].
    split; [intros Hnd; by apply dict_set_NoDup|].
    split; [done|].
    split.
    { destruct (dict_lookup (monitored_uids p) uid) as [old|] eqn:Hl.
      - pose proof (dict_set_keys_present (monitored_uids p) uid
                      {| uname := dict_get_or (fetched_status r uid) "uname" (JStr "");
                         room_id := dict_get_or (fetched_status r uid) "room_id" (JInt 0);
                         added_by := sender_name event;
                         added_time := now;
                         unified_msg_origin := JStr (event_origin event) |}
                      old Hl) as Hk.
        apply (f_equal length) in Hk. unfold dict_keys in Hk.
        rewrite !length_map in Hk. lia.
      - rewrite dict_set_fresh by done. rewrite length_app. simpl. lia. }
    repeat split; try done; [left; by eexists _, _ | by intros [?|[?|?]]].
  - eexists _, _. split; [done|]. simpl. split; [done|]. split; [done|].
    split; [by intros (?&?&?)|]. split; [lia|].
    repeat split; try done; [by right | by intros [?|[?|?]]].
Qed.

(** X13: adding a new identifier and then removing it gives the registry
    back exactly as it was, with the cache entry of the identifier gone
    and the backoff maps untouched. *)
Theorem add_then_remove_restores_registry
  w1 w2 r now ev ev' st cmd uid rest cmd' rest' :
  message_args ev = cmd :: uid :: rest →
  message_args ev' = cmd' :: uid :: rest' →
  isdigit uid = true →
  Z.of_nat (length (monitored_uids (core st))) < max_monitors (core st) →
  NoDup (dict_keys (monitored_uids (core st))) →
  dict_lookup (monitored_uids (core st)) uid = None →
  truthy (dict_get (fetched_status r uid) "uname") = true →
  ∃ name st1 st2,
    add_monitor_cmd w1 r now ev st = (Returned (ReplyAdded name uid), st1) ∧
    remove_monitor w2 ev' st1 = (Returned (Removed uid), st2) ∧
    monitored_uids (core st2) = monitored_uids (core st) ∧
    live_status_cache (core st2) = delete uid (live_status_cache (core st)) ∧
    uid_error_counts (core st2) = uid_error_counts (core st) ∧
    uid_skip_until (core st2) = uid_skip_until (core st).
Proof.
  intros Hargs Hargs' Hdig Hcap Hnd Hnew Hname.
  unfold add_monitor_cmd, with_core. py_unfold.
  rewrite (add_monitor_run r now ev (core st) cmd uid rest Hargs Hdig Hcap).
  rewrite Hname. simpl. rewrite save_config_run. simpl.
  eexists _, _, _. split; [done|].
  unfold remove_monitor, with_core. py_unfold. rewrite Hargs', Hdig. simpl.
  rewrite dict_lookup_set_eq. simpl. rewrite lookup_insert_eq. simpl.
  rewrite save_config_run. simpl. split; [done|]. simpl.
  split; [by apply dict_del_set_fresh|].
  split; [by rewrite delete_insert_eq | done].
Qed.

(** ** check_live and list_monitors *)

Lemma set_last_rate_limited_id p :
  set_last_rate_limited (_last_rate_limited p) p = p.
Proof. by destruct p. Qed.

Lemma fetched_status_get_or r uid :
  dict_get_or (fetched_status r uid) "uname" (JStr "未知UP主")
    = dict_get (fetched_status r uid) "uname" ∧
  dict_get_or (fetched_status r uid) "live_status" (JInt 0)
    = dict_get (fetched_status r uid) "live_status" ∧
  dict_get_or (fetched_status r uid) "title" (JStr "无标题")
    = dict_get (fetched_status r uid) "title" ∧
  dict_get_or (fetched_status r uid) "room_id" (JInt 0)
    = dict_get (fetched_status r uid) "room_id".
Proof.
  destruct (fetched_status_shape r uid) as [->|(rec & _ & ->)]; done.
Qed.

Lemma check_live_run r event p cmd uid rest :
  message_args event = cmd :: uid :: rest →
  isdigit uid = true →
  let st := fetched_status r uid in
  check_live r event p
  = (Returned
       (if truthy (dict_get st "uname") then
          if is_live (dict_get st "live_status")
          then CheckLive (dict_get st "uname") (dict_get st "title")
                         (dict_get st "room_id")
          else CheckOffline (dict_get st "uname")
        else CheckNotFound uid),
     set_last_rate_limited (signal_after r [uid] (_last_rate_limited p)) p).
Proof.
  intros Hargs Hdig st. unfold check_live, with_flag. py_unfold.
  rewrite Hargs, Hdig. simpl. rewrite get_live_status_fetched. simpl. fold st.
  destruct (fetched_status_get_or r uid) as (Hn & Hl & Ht & Hr).
  fold st in Hn, Hl, Ht, Hr. rewrite Hn, Hl, Ht, Hr. unfold is_live.
  destruct (truthy (dict_get st "uname")); simpl; [|done].
  by destruct (py_eq_int (dict_get st "live_status") 1).
Qed.

(** X14: check_live only reads.  It always replies (never with the
    generic failure), changes nothing in the plugin but the rate-limit
    flag, which it leaves as its request leaves it, and for a numeric
    identifier the reply follows the fetched record alone: not found when
    the uname is falsy, live when the live_status equals 1, offline
    otherwise; the fall-back name and title are never shown. *)
Theorem check_live_only_reads r event p :
  ∃ rp f,
    check_live r event p = (Returned rp, set_last_rate_limited f p) ∧
    rp ≠ CheckFailed ∧
    ∀ cmd uid rest,
      message_args event = cmd :: uid :: rest → isdigit uid = true →
      let st := fetched_status r uid in
      f = signal_after r [uid] (_last_rate_limited p) ∧
      rp = if truthy (dict_get st "uname") then
             if is_live (dict_get st "live_status")
             then CheckLive (dict_get st "uname") (dict_get st "title")
                            (dict_get st "room_id")
             else CheckOffline (dict_get st "uname")
           else CheckNotFound uid.
Proof.
  destruct (message_args event) as [|cmd [|uid rest]] eqn:Hargs.
  { exists CheckUsage, (_last_rate_limited p). unfold check_live. py_unfold.
    rewrite Hargs, set_last_rate_limited_id. done. }
  { exists CheckUsage, (_last_rate_limited p). unfold check_live. py_unfold.
    rewrite Hargs, set_last_rate_limited_id. done. }
  destruct (isdigit uid) eqn:Hdig.
  2:{ exists CheckNotDigit, (_last_rate_limited p). unfold check_live. py_unfold.
      rewrite Hargs, Hdig, set_last_rate_limited_id. simpl.
      split; [done|]. split; [done|]. intros ??? [= _ <- _] ?. congruence. }
  rewrite (check_live_run r event p cmd uid rest Hargs Hdig).
  eexists _, _. split; [done|]. split.
  - destruct (truthy _); [|done]. by destruct (is_live _).
  - intros ??? [= _ <- _] _. done.
Qed.

(** X15: check_live and add_monitor judge an identifier alike.  For the
    same response and a numeric identifier, with the registry below its
    cap, add_monitor reports the identifier as not found iff check_live
    does, and check_live reports it live iff add_monitor adds it and
    caches it as live. *)
Theorem add_monitor_agrees_with_check_live
  r now ev ev' p cmd uid rest cmd' rest' :
  message_args ev = cmd :: uid :: rest →
  message_args ev' = cmd' :: uid :: rest' →
  isdigit uid = true →
  Z.of_nat (length (monitored_uids p)) < max_monitors p →
  ((add_monitor r now ev p).1 = Returned (ReplyNotFound uid) ↔
   (check_live r ev' p).1 = Returned (CheckNotFound uid)) ∧
  ((∃ name title room,
      (check_live r ev' p).1 = Returned (CheckLive name title room)) ↔
   (∃ name, (add_monitor r now ev p).1 = Returned (ReplyAdded name uid)) ∧
   cached_live (add_monitor r now ev p).2 uid = true).
Proof.
  intros Hargs Hargs' Hdig Hcap.
  rewrite (add_monitor_run r now ev p cmd uid rest Hargs Hdig Hcap).
  rewrite (check_live_run r ev' p cmd' uid rest' Hargs' Hdig).
  unfold cached_live.
  destruct (truthy (dict_get (fetched_status r uid) "uname")); simpl.
  - rewrite lookup_insert_eq. simpl.
    destruct (is_live (dict_get (fetched_status r uid) "live_status")); simpl.
    + split; [done|]. split; [intros _; split; [by eexists | done]|].
      intros _. by eexists _, _, _.
    + split; [done|]. split; [by intros (?&?&?&?) | by intros [_ ?]].
  - split; [done|]. split; [by intros (?&?&?&?) | by intros [[? ?] _]].
Qed.

Lemma list_lines_run fetch changes items p :
  (∀ uid, uid ∈ dict_keys items → changes uid = Unchanged) →
  list_lines fetch changes items p
  = (Returned
       (map (λ uid,
               {| line_name := dict_get (fetched_status (fetch uid) uid) "uname";
                  line_uid := uid;
                  line_live :=
                    is_live (dict_get (fetched_status (fetch uid) uid) "live_status") |})
            (dict_keys items)),
     set_last_rate_limited
       (fold_left (λ f uid, signal_after (fetch uid) [uid] f)
                  (dict_keys items) (_last_rate_limited p)) p).
Proof.
  revert p. induction items as [|[uid info] items IH]; intros p Hun.
  { simpl. by rewrite set_last_rate_limited_id. }
  cbn [list_lines]. unfold with_flag. py_unfold.
  rewrite get_live_status_fetched. simpl.
  rewrite (Hun uid) by (simpl; left).
  rewrite IH by (intros u Hu; apply Hun; simpl; by right). simpl.
  destruct (fetched_status_get_or (fetch uid) uid) as (-> & _). done.
Qed.

(** The iteration stops with an exception at the first request during
    which the size of the registry changed. *)
Lemma list_lines_raises fetch changes items p before uid rest :
  dict_keys items = (before ++ uid :: rest)%list →
  (∀ u, u ∈ before → changes u = Unchanged) →
  changes uid = SizeChanged →
  list_lines fetch changes items p
  = (Raised Exception,
     set_last_rate_limited
       (fold_left (λ f uid, signal_after (fetch uid) [uid] f)
                  (before ++ [uid])%list (_last_rate_limited p)) p).
Proof.
  revert p before. induction items as [|[u info] items IH];
    intros p before Hkeys Hun Hch.
  { by destruct before. }
  cbn [list_lines]. unfold with_flag. py_unfold.
  rewrite get_live_status_fetched. simpl.
  destruct before as [|u0 before]; simpl in Hkeys; injection Hkeys as -> Hkeys.
  - rewrite Hch. simpl. done.
  - rewrite (Hun u0) by left.
    rewrite (IH _ before Hkeys) by (try done; intros u Hu; apply Hun; by right).
    simpl. done.
Qed.

(** X16: list_monitors with an empty registry replies that nothing is
    monitored and changes nothing.  Otherwise, when the registry is not
    changed while its requests are awaited, it replies with one line per
    entry, in registry order, each with the fetched uname (not the stored
    one) and with the live mark iff the fetched live_status equals 1.
    When the size of the registry changes while one of its requests is
    awaited, the iteration over the registry raises and the reply is the
    generic failure.  In every case list_monitors itself writes nothing
    in the plugin but the rate-limit flag. *)
Theorem list_monitors_one_line_per_entry fetch changes p :
  (monitored_uids p = [] →
   list_monitors fetch changes p = (Returned ListEmpty, p)) ∧
  (monitored_uids p ≠ [] →
   (∀ uid, uid ∈ dict_keys (monitored_uids p) → changes uid = Unchanged) →
   ∃ f,
     list_monitors fetch changes p
     = (Returned
          (ListOf
             (map (λ uid,
                     {| line_name :=
                          dict_get (fetched_status (fetch uid) uid) "uname";
                        line_uid := uid;
                        line_live :=
                          is_live (dict_get (fetched_status (fetch uid) uid)
                                            "live_status") |})
                  (dict_keys (monitored_uids p)))),
        set_last_rate_limited f p)) ∧
  (∀ before uid rest,
     dict_keys (monitored_uids p) = (before ++ uid :: rest)%list →
     (∀ u, u ∈ before → changes u = Unchanged) →
     changes uid = SizeChanged →
     ∃ f,
       list_monitors fetch changes p
       = (Returned ListFailed, set_last_rate_limited f p)).
Proof.
  split; [|split].
  - intros Hreg. unfold list_monitors. py_unfold. by rewrite Hreg.
  - intros Hne Hun. unfold list_monitors. py_unfold.
    destruct (monitored_uids p) as [|item items] eqn:Hreg; [done|].
    rewrite list_lines_run by done. by eexists.
  - intros before uid rest Hkeys Hun Hch. unfold list_monitors. py_unfold.
    destruct (monitored_uids p) as [|item items] eqn:Hreg.
    { by destruct before. }
    rewrite (list_lines_raises fetch changes _ p before uid rest Hkeys Hun Hch).
    by eexists.
Qed.

(** ** Saving and loading *)

Lemma apply_saved_snapshot p q :
  let p' := apply_saved (snapshot p) q in
  monitored_uids p' = monitored_uids p ∧
  live_status_cache p' = live_status_cache p ∧
  enable_notifications p' = enable_notifications p ∧
  enable_end_notifications p' = enable_end_notifications p ∧
  (check_interval p', max_monitors p', uid_error_counts p', uid_skip_until p',
   current_interval p', _last_rate_limited p')
    = (check_interval q, max_monitors q, uid_error_counts q, uid_skip_until q,
       current_interval q, _last_rate_limited q).
Proof. done. Qed.

Lemma apply_saved_idem d p : apply_saved d (apply_saved d p) = apply_saved d p.
Proof.
  unfold apply_saved. destruct d as [m c n e]. simpl.
  by destruct n, e.
Qed.

Lemma load_config_run w st :
  load_config w st
  = (Returned tt,
     match config_file st with
     | Holds d => set_core (apply_saved d (core st)) st
     | Corrupt => st
     | Absent =>
         match legacy_file st with
         | Holds d =>
             set_config_file
               (match w with
                | Written => Holds (snapshot (apply_saved d (core st)))
                | OpenFails => Absent
                | DumpFails => Corrupt
                end)
               (set_core (apply_saved d (core st)) st)
         | Corrupt => st
         | Absent => st
         end
     end).
Proof.
  unfold load_config. py_unfold.
  destruct (config_file st) as [| |d] eqn:Hc; try done.
  destruct (legacy_file st) as [| |d] eqn:Hl; try done.
  simpl. rewrite save_config_run. simpl. rewrite Hc. by destruct w.
Qed.

(** X17: what save_config writes, load_config reads back.  After a save
    that succeeds, a plugin in any state that loads the file gets the
    saved registry, cache and two flags; its intervals, backoff maps and
    rate-limit flag are not taken from the file, and the file is left as
    written. *)
Theorem save_then_load_restores w st q :
  let st1 := (save_config Written st).2 in
  let st2 := (load_config w (set_core q st1)).2 in
  (load_config w (set_core q st1)).1 = Returned tt ∧
  monitored_uids (core st2) = monitored_uids (core st) ∧
  live_status_cache (core st2) = live_status_cache (core st) ∧
  enable_notifications (core st2) = enable_notifications (core st) ∧
  enable_end_notifications (core st2) = enable_end_notifications (core st) ∧
  (check_interval (core st2), max_monitors (core st2),
   uid_error_counts (core st2), uid_skip_until (core st2),
   current_interval (core st2), _last_rate_limited (core st2))
    = (check_interval q, max_monitors q, uid_error_counts q, uid_skip_until q,
       current_interval q, _last_rate_limited q) ∧
  config_file st2 = Holds (snapshot (core st)).
Proof. cbv zeta. rewrite save_config_run, load_config_run. done. Qed.

(** X18: load_config never raises and is all-or-nothing.  With a config
    file that cannot be read the plugin and both files stay as they are,
    even when a readable legacy file is there; with neither file nothing
    changes; and a save whose dump fails leaves a file from which a later
    load restores nothing. *)
Theorem load_config_failures_change_nothing w w' st :
  (load_config w st).1 = Returned tt ∧
  (config_file st = Corrupt → (load_config w st).2 = st) ∧
  (config_file st = Absent → legacy_file st ≠ Absent →
   (∀ d, legacy_file st ≠ Holds d) → (load_config w st).2 = st) ∧
  (config_file st = Absent → legacy_file st = Absent → (load_config w st).2 = st) ∧
  (load_config w' (save_config DumpFails st).2).2 = (save_config DumpFails st).2 ∧
  core (save_config DumpFails st).2 = core st.
Proof.
  rewrite !load_config_run, save_config_run. simpl.
  split; [done|]. split; [by intros ->|]. split; [|split; [|done]].
  - intros -> Hl Hd. destruct (legacy_file st) as [| |d]; [done | done |].
    exfalso. by apply (Hd d).
  - by intros -> ->.
Qed.

(** X19: the legacy file is migrated once.  With no config file and a
    readable legacy file, load_config takes the data from the legacy file
    and, when the write succeeds, saves the resulting state under the
    config path, leaving the legacy file in place; from then on
    load_config reads the config path and the plugin stays as loaded. *)
Theorem legacy_file_is_migrated w st d :
  config_file st = Absent →
  legacy_file st = Holds d →
  let st1 := (load_config Written st).2 in
  let st2 := (load_config w st1).2 in
  core st1 = apply_saved d (core st) ∧
  config_file st1 = Holds (snapshot (core st1)) ∧
  legacy_file st1 = legacy_file st ∧
  st2 = st1.
Proof.
  intros Hc Hl. cbv zeta. rewrite !load_config_run, Hc, Hl. simpl.
  repeat split. unfold set_core, set_config_file. simpl. f_equal.
  destruct d as [m c n e]. unfold apply_saved, snapshot. simpl.
  by destruct (core st).
Qed.

(** X20: loading twice is loading once: whatever the two paths hold and
    however the writes go, a second load_config leaves the plugin as the
    first one left it. *)
Theorem load_config_twice w w' st :
  core (load_config w' (load_config w st).2).2 = core (load_config w st).2.
Proof.
  rewrite !load_config_run.
  destruct (config_file st) as [| |d] eqn:Hc; simpl; rewrite ?Hc; try done.
  - destruct (legacy_file st) as [| |d] eqn:Hl; simpl; rewrite ?Hc, ?Hl; try done.
    destruct w; simpl; rewrite ?Hl; simpl; try done.
    exact (apply_saved_idem d (core st)).
  - exact (apply_saved_idem d (core st)).
Qed.

(** ** Start-up and shutdown *)

Lemma ensure_session_run lenv h :
  ensure_session lenv h
  = match session h with
    | OpenSession => (Returned tt, h)
    | _ => if session_created lenv then (Returned tt, set_session OpenSession h)
           else (Raised Exception, h)
    end.
Proof.
  unfold ensure_session. py_unfold.
  destruct (session h); try done; by destruct (session_created lenv).
Qed.

(** [_cleanup_resources] always returns; a running task is dropped, an
    open session is closed as the environment lets it. *)
Lemma cleanup_resources_run lenv h :
  _cleanup_resources lenv h
  = (Returned tt,
     {| disk := disk h;
        session :=
          match session h with
          | OpenSession =>
              match session_close lenv with
              | Closes => NoSession
              | CloseRaises closed_after =>
                  if closed_after then ClosedSession else OpenSession
              end
          | other => other
          end;
        monitor_task :=
          match monitor_task h with TaskRunning => NoTask | other => other end;
        _initialized := _initialized h |}).
Proof.
  unfold _cleanup_resources. py_unfold.
  destruct h as [d ss mt ini]. simpl.
  destruct mt, ss; simpl; try done; by destruct (session_close lenv) as [|[]].
Qed.

Lemma initialize_done lenv h :
  _initialized h = true → initialize lenv h = (Returned tt, h).
Proof. intros Hini. unfold initialize. py_unfold. by rewrite Hini. Qed.

(** The three ways a first [initialize] can go. *)
Lemma initialize_run lenv h :
  _initialized h = false →
  let loaded := (load_config (config_write lenv) (disk h)).2 in
  initialize lenv h
  = if match session h with OpenSession => true | _ => session_created lenv end
    then
      if match monitor_task h with TaskRunning => true | _ => task_created lenv end
      then (Returned tt,
            {| disk := loaded; session := OpenSession;
               monitor_task := TaskRunning; _initialized := true |})
      else (Raised Exception,
            (_cleanup_resources lenv
               {| disk := loaded; session := OpenSession;
                  monitor_task := monitor_task h; _initialized := false |}).2)
    else (Raised Exception, (_cleanup_resources lenv h).2).
Proof.
  intros Hini loaded. subst loaded. unfold initialize, with_disk. py_unfold.
  rewrite Hini, ensure_session_run, !cleanup_resources_run, load_config_run.
  destruct h as [d ss mt ini]. simpl in *. subst ini.
  destruct ss, (session_created lenv); simpl; try done;
    rewrite ?cleanup_resources_run, ?load_config_run; simpl;
    destruct mt, (task_created lenv); simpl; try done;
    by rewrite ?cleanup_resources_run.
Qed.

(** X21: a first initialize that can create what it needs opens the
    session, loads the configuration, starts the monitor task and marks
    the plugin initialized; the status report then shows the session
    active and the task running; and every later initialize, whatever the
    environment, does nothing. *)
Theorem initialize_starts_once lenv h :
  _initialized h = false →
  session h = OpenSession ∨ session_created lenv = true →
  monitor_task h = TaskRunning ∨ task_created lenv = true →
  ∃ h',
    initialize lenv h = (Returned tt, h') ∧
    _initialized h' = true ∧
    session h' = OpenSession ∧
    monitor_task h' = TaskRunning ∧
    disk h' = (load_config (config_write lenv) (disk h)).2 ∧
    session_active (get_plugin_status h') = Some true ∧
    monitor_task_running (get_plugin_status h') = Some true ∧
    ∀ lenv', initialize lenv' h' = (Returned tt, h').
Proof.
  intros Hini Hs Ht. rewrite (initialize_run lenv h Hini).
  assert (match session h with OpenSession => true | _ => session_created lenv end
          = true) as ->.
  { destruct Hs as [->| ->]; [done | by destruct (session h)]. }
  assert (match monitor_task h with TaskRunning => true | _ => task_created lenv end
          = true) as ->.
  { destruct Ht as [->| ->]; [done | by destruct (monitor_task h)]. }
  eexists. split; [done|]. repeat (split; [done|]).
  intros lenv'. by apply initialize_done.
Qed.

(** X22: an initialize that cannot create the session or the task
    raises, after releasing what was there: the plugin is not marked
    initialized, no task is left running and, when closing works, no
    session is left open.  If the session could not be created the
    configuration has not been loaded; if only the task could not be
    created, it has. *)
Theorem initialize_failure_cleans_up lenv h :
  _initialized h = false →
  (session h ≠ OpenSession ∧ session_created lenv = false) ∨
  ((session h = OpenSession ∨ session_created lenv = true) ∧
   monitor_task h ≠ TaskRunning ∧ task_created lenv = false) →
  ∃ h',
    initialize lenv h = (Raised Exception, h') ∧
    _initialized h' = false ∧
    monitor_task h' ≠ TaskRunning ∧
    monitor_task_running (get_plugin_status h') ≠ Some true ∧
    (session_close lenv = Closes → session h' ≠ OpenSession) ∧
    (session h ≠ OpenSession ∧ session_created lenv = false →
     disk h' = disk h) ∧
    (session h = OpenSession ∨ session_created lenv = true →
     disk h' = (load_config (config_write lenv) (disk h)).2).
Proof.
  intros Hini Hfail. rewrite (initialize_run lenv h Hini).
  rewrite !cleanup_resources_run.
  destruct h as [d ss mt ini]. simpl in *. subst ini.
  destruct Hfail as [[Hs Hc]|(Hs & Ht & Hc)]; rewrite Hc.
  - destruct ss; try done; eexists; (split; [done|]); simpl;
      repeat split; try done; try (by destruct mt); by intros [?|?].
  - assert (match ss with OpenSession => true | _ => session_created lenv end
            = true) as ->.
    { destruct Hs as [->| ->]; [done | by destruct ss]. }
    destruct mt; try done; eexists; (split; [done|]); simpl;
      repeat split; try done; try (by intros ->);
      intros [? ?]; destruct Hs; congruence.
Qed.

(** X23: terminate never raises.  It saves the configuration only when the
    registry is non-empty, drops a running task and closes an open
    session, so that the status report no longer shows the task running
    nor, when closing works, the session active; the plugin state is
    untouched.  It leaves the plugin marked initialized, so that an
    initialize after it does nothing: the task is not started again. *)
Theorem terminate_releases_resources lenv lenv' h :
  ∃ h',
    terminate lenv h = (Returned tt, h') ∧
    core (disk h') = core (disk h) ∧
    config_file (disk h')
      = match monitored_uids (core (disk h)), config_write lenv with
        | _ :: _, Written => Holds (snapshot (core (disk h)))
        | _ :: _, DumpFails => Corrupt
        | _, _ => config_file (disk h)
        end ∧
    monitor_task_running (get_plugin_status h') ≠ Some true ∧
    (session_close lenv = Closes →
     session_active (get_plugin_status h') ≠ Some true) ∧
    _initialized h' = _initialized h ∧
    (_initialized h = true → initialize lenv' h' = (Returned tt, h')).
Proof.
  unfold terminate, with_disk. py_unfold.
  destruct (monitored_uids (core (disk h))) as [|item items] eqn:Hreg.
  - rewrite cleanup_resources_run. eexists. split; [done|]. simpl.
    repeat split; try done.
    + by destruct (monitor_task h).
    + intros ->. by destruct (session h).
    + intros Hini. by apply initialize_done.
  - rewrite save_config_run. simpl. rewrite cleanup_resources_run. simpl.
    eexists. split; [done|]. simpl.
    repeat split; try done.
    + by destruct (monitor_task h).
    + intros ->. by destruct (session h).
    + intros Hini. by apply initialize_done.
Qed.

(** X24: a restart keeps what terminate saved.  When a plugin with a
    non-empty registry terminates and the write succeeds, a new plugin
    object that finds the file and initializes has the same registry,
    cache and two notification flags, whatever its own configuration
    says; its backoff maps are empty and its interval is the configured
    base. *)
Theorem restart_restores_saved_state lenv lenv' h interval maxm n e legacy :
  monitored_uids (core (disk h)) ≠ [] →
  config_write lenv = Written →
  session_created lenv' = true →
  task_created lenv' = true →
  let h1 := (terminate lenv h).2 in
  let h2 := (initialize lenv'
               (init_host interval maxm n e (config_file (disk h1)) legacy)).2 in
  _initialized h2 = true ∧
  monitored_uids (core (disk h2)) = monitored_uids (core (disk h)) ∧
  live_status_cache (core (disk h2)) = live_status_cache (core (disk h)) ∧
  enable_notifications (core (disk h2)) = enable_notifications (core (disk h)) ∧
  enable_end_notifications (core (disk h2))
    = enable_end_notifications (core (disk h)) ∧
  uid_error_counts (core (disk h2)) = ∅ ∧
  uid_skip_until (core (disk h2)) = ∅ ∧
  current_interval (core (disk h2)) = interval.
Proof.
  intros Hreg Hw Hs Ht. cbv zeta.
  assert (config_file (disk (terminate lenv h).2)
          = Holds (snapshot (core (disk h)))) as ->.
  { unfold terminate, with_disk. py_unfold.
    destruct (monitored_uids (core (disk h))) as [|item items]; [done|].
    rewrite save_config_run, Hw. simpl. by rewrite cleanup_resources_run. }
  rewrite initialize_run by done. rewrite load_config_run. simpl.
  rewrite Hs, Ht. done.
Qed.

(** ** Commands and the loop together *)

Lemma add_monitor_always_replies r now event p :
  ∃ rp p', add_monitor r now event p = (Returned rp, p') ∧ rp ≠ ReplyFailed.
Proof.
  destruct (message_args event) as [|cmd [|uid rest]] eqn:Hargs.
  { unfold add_monitor. py_unfold. rewrite Hargs. by eexists _, _. }
  { unfold add_monitor. py_unfold. rewrite Hargs. by eexists _, _. }
  destruct (isdigit uid) eqn:Hdig.
  2:{ unfold add_monitor. py_unfold. rewrite Hargs, Hdig. by eexists _, _. }
  destruct (Z.leb_spec (max_monitors p) (Z.of_nat (length (monitored_uids p))))
    as [Hcap|Hcap].
  { unfold add_monitor. py_unfold. rewrite Hargs, Hdig. simpl.
    assert ((max_monitors p <=? Z.of_nat (length (monitored_uids p)))%Z = true)
      as -> by lia.
    by eexists _, _. }
  rewrite (add_monitor_run r now event p cmd uid rest Hargs Hdig Hcap).
  destruct (truthy (dict_get (fetched_status r uid) "uname")); by eexists _, _.
Qed.


Lemma remove_monitor_run w event st cmd uid rest old :
  message_args event = cmd :: uid :: rest →
  isdigit uid = true →
  dict_lookup (monitored_uids (core st)) uid = Some old →
  ∃ st',
    remove_monitor w event st = (Returned (Removed uid), st') ∧
    monitored_uids (core st') = dict_del (monitored_uids (core st)) uid ∧
    live_status_cache (core st') = delete uid (live_status_cache (core st)) ∧
    uid_error_counts (core st') = uid_error_counts (core st) ∧
    uid_skip_until (core st') = uid_skip_until (core st) ∧
    max_monitors (core st') = max_monitors (core st).
Proof.
  intros Hargs Hdig Hold. unfold remove_monitor, with_core. py_unfold.
  rewrite Hargs, Hdig. simpl. rewrite Hold. simpl. rewrite save_config_run.
  simpl. eexists. split; [done|]. simpl.
  destruct (live_status_cache (core st) !! uid) eqn:Hl; simpl;
    repeat split; try done. symmetry. by apply delete_id.
Qed.

Lemma cycle_status_skipped env p uid old :
  uid_skip_until p !! uid = Some old → (env_now env < old)%Q →
  (uid ∉ cycle_uids p (env_now env)) ∧
  cycle_status env p uid = synthetic_status.
Proof.
  intros Hold Hlt.
  assert (uid ∉ cycle_uids p (env_now env)) as Hnot.
  { unfold cycle_uids. rewrite list_elem_of_filter. intros [H _].
    unfold eligible in H. rewrite Hold in H. simpl in H.
    apply Qle_bool_iff in H. lra. }
  split; [done|]. unfold cycle_status.
  destruct (cycle_status_map_eq env p) as [flag' Hb].
  assert (cycle_status_map env p !! uid = None) as ->; [|done].
  apply not_elem_of_dom.
  rewrite (get_live_status_batch_dom _ _ _ _ _ Hb), elem_of_list_to_set.
  exact Hnot.
Qed.

(** X25: removing an identifier does not clear its backoff, and adding it
    again does not either.  When an identifier with a skip deadline in
    the future is removed and added again, it keeps that deadline; the
    next cycle before the deadline does not fetch it, sets its cache to
    0, and calls send_end_notification for it iff the lookup of the add
    command had found it live. *)
Theorem readded_identifier_is_still_skipped
  w1 w2 r now0 ev ev' st env cmd uid rest cmd' rest' info old :
  message_args ev' = cmd' :: uid :: rest' →
  message_args ev = cmd :: uid :: rest →
  isdigit uid = true →
  NoDup (dict_keys (monitored_uids (core st))) →
  dict_lookup (monitored_uids (core st)) uid = Some info →
  Z.of_nat (length (monitored_uids (core st))) <= max_monitors (core st) →
  truthy (dict_get (fetched_status r uid) "uname") = true →
  uid_skip_until (core st) !! uid = Some old →
  (env_now env < old)%Q →
  env_fault env = None →
  let st1 := (remove_monitor w1 ev' st).2 in
  let st2 := (add_monitor_cmd w2 r now0 ev st1).2 in
  (∃ name, (add_monitor_cmd w2 r now0 ev st1).1 = Returned (ReplyAdded name uid)) ∧
  uid_skip_until (core st2) !! uid = Some old ∧
  (uid ∉ cycle_uids (core st2) (env_now env)) ∧
  ∃ s',
    cycle_body env (start (core st2)) = (Returned tt, s') ∧
    live_status_cache (plug s') !! uid = Some (JInt 0) ∧
    (SendEnd uid ∈ trace s' ↔
     is_live (dict_get (fetched_status r uid) "live_status") = true).
Proof.
  intros Hargs' Hargs Hdig Hnd Hinfo Hcap Hname Hold Hlt Hnf. cbv zeta.
  destruct (remove_monitor_run w1 ev' st cmd' uid rest' info Hargs' Hdig Hinfo)
    as (st1 & -> & Hreg1 & Hcache1 & Hcnt1 & Hskip1 & Hmax1).
  simpl.
  assert (Z.of_nat (length (monitored_uids (core st1))) < max_monitors (core st1))
    as Hcap1.
  { rewrite Hreg1, Hmax1.
    pose proof (dict_del_length _ _ _ Hinfo) as Hlen. lia. }
  unfold add_monitor_cmd, with_core. py_unfold.
  rewrite (add_monitor_run r now0 ev (core st1) cmd uid rest Hargs Hdig Hcap1).
  rewrite Hname. simpl. rewrite save_config_run. simpl.
  split; [by eexists|]. rewrite Hskip1. split; [done|].
  match goal with |- context [start ?p] => set (p2 := p) end.
  assert (uid_skip_until p2 !! uid = Some old) as Hskip2
    by (subst p2; simpl; by rewrite Hskip1).
  destruct (cycle_status_skipped env p2 uid old Hskip2 Hlt) as [Hnot Hsyn].
  split; [exact Hnot|].
  assert (dict_lookup (monitored_uids (core st1)) uid = None) as Hfresh.
  { rewrite Hreg1. by apply dict_lookup_del_eq. }
  assert (NoDup (dict_keys (monitored_uids (plug (start p2))))) as Hnd2.
  { subst p2. simpl. apply dict_set_NoDup. rewrite Hreg1. by apply dict_del_NoDup. }
  pose (entry := {| uname := dict_get_or (fetched_status r uid) "uname" (JStr "");
                    room_id := dict_get_or (fetched_status r uid) "room_id" (JInt 0);
                    added_by := sender_name ev;
                    added_time := now0;
                    unified_msg_origin := JStr (event_origin ev) |}).
  assert ((uid, entry) ∈ monitored_uids (plug (start p2))) as Hin2.
  { subst p2. simpl. rewrite dict_set_fresh by done.
    apply elem_of_app. right. left. }
  destruct (cycle_body_events env (start p2) uid entry Hnf Hnd2 Hin2)
    as (s' & evs & Hrun & Htr & _ & He).
  destruct (cycle_body_entry env (start p2) uid entry Hnf Hnd2 Hin2)
    as (s1 & Hrun1 & _ & Hcache & _).
  rewrite Hrun in Hrun1. injection Hrun1 as <-.
  exists s'. split; [done|]. simpl in Hsyn, Hcache, He.
  rewrite Hsyn in Hcache, He. split; [exact Hcache|].
  rewrite Htr. simpl. etrans; [exact He|].
  subst p2. simpl. rewrite lookup_insert_eq. simpl.
  split; [by intros [? _] | done].
Qed.

(** X26: the commands save what they change.  After an add_monitor that
    reports an addition, a remove_monitor that reports a removal, or any
    of the four switch commands, a write that succeeds leaves the config
    file holding exactly the registry, cache and flags the plugin now
    has; a command that changes nothing does not write. *)
Theorem commands_save_what_they_change r now ev st :
  (∀ name uid st',
     add_monitor_cmd Written r now ev st = (Returned (ReplyAdded name uid), st') →
     config_file st' = Holds (snapshot (core st'))) ∧
  (∀ rp st',
     add_monitor_cmd Written r now ev st = (Returned rp, st') →
     (∀ name uid, rp ≠ ReplyAdded name uid) →
     config_file st' = config_file st) ∧
  (∀ uid st',
     remove_monitor Written ev st = (Returned (Removed uid), st') →
     config_file st' = Holds (snapshot (core st'))) ∧
  (∀ cmd, cmd ∈ [enable_notify_cmd; disable_notify_cmd;
                 enable_end_notify_cmd; disable_end_notify_cmd] →
     (cmd Written st).1 = Returned SwitchDone ∧
     config_file (cmd Written st).2 = Holds (snapshot (core (cmd Written st).2))).
Proof.
  destruct (add_monitor_always_replies r now ev (core st))
    as (rp0 & p0 & Hadd & Hnf).
  split; [|split; [|split]].
  - intros name uid st'. unfold add_monitor_cmd, with_core. py_unfold.
    rewrite Hadd. destruct rp0; simpl; try done.
    rewrite ?save_config_run; simpl. by intros [= _ _ <-].
  - intros rp st'. unfold add_monitor_cmd, with_core. py_unfold.
    rewrite Hadd. destruct rp0; simpl; try (by intros [= _ <-]).
    rewrite ?save_config_run; simpl. intros [= <- _] H. by destruct (H name uid).
  - intros uid st'. unfold remove_monitor, with_core. py_unfold.
    destruct (message_args ev) as [|cmd [|u rest]]; try done.
    destruct (isdigit u); simpl; try done.
    destruct (dict_lookup (monitored_uids (core st)) u); simpl; try done.
    rewrite ?save_config_run; simpl. by intros [= _ <-].
  - intros cmd Hcmd.
    repeat (apply elem_of_cons in Hcmd as [->|Hcmd]);
      [| | | |by apply elem_of_nil in Hcmd];
      unfold enable_notify_cmd, disable_notify_cmd, enable_end_notify_cmd,
        disable_end_notify_cmd, with_core; py_unfold; simpl;
      by rewrite ?save_config_run.
Qed.

End Properties.

(** * Concrete instances *)

#[local] Existing Instance ascii_builtins.

(** The scenario of five whole-cycle exceptions in a row: the first four
    are followed by a sleep of the current interval, the fifth by a sleep
    of min(300, 60 * 5) = 300, and a cycle that then succeeds resets the
    counter. *)
Example five_failures_then_success :
  let r := monitor_live_status
             [failing 1; failing 2; failing 3; failing 4; failing 5;
              quiet 1000 (Response 200 (Some (status_body 0)))]
             plugin1 in
  r.1 = Continue ∧
  consecutive_errors r.2 = 0 ∧
  trace r.2 = [Sleep 60; Sleep 60; Sleep 60; Sleep 60; Sleep 300; Sleep 60].
Proof. vm_compute. done. Qed.

(** The scenario of going live and offline again: one call of each
    sender, one delivery each. *)
Example live_then_offline :
  let r := monitor_live_status
             [quiet 100 (Response 200 (Some (status_body 1)));
              quiet 160 (Response 200 (Some (status_body 1)));
              quiet 220 (Response 200 (Some (status_body 0)));
              quiet 280 (Response 200 (Some (status_body 0)))]
             plugin1 in
  filter (λ e, sender_call e = true) (trace r.2)
    = [SendLive "123"; SendEnd "123"] ∧
  live_status_cache (plug r.2) !! "123" = Some (JInt 0).
Proof. vm_compute. done. Qed.

(** A delivery that fails is logged; the cycle goes on to write the
    cache and to sleep. *)
Example delivery_failure_is_contained :
  let r := monitor_live_status
             [undeliverable 100 (Response 200 (Some (status_body 1)))] plugin1 in
  r.1 = Continue ∧
  trace r.2 = [SendLive "123"; LogError "发送开播通知失败"; Sleep 60] ∧
  live_status_cache (plug r.2) !! "123" = Some (JInt 1).
Proof. vm_compute. done. Qed.

Lemma transition_detection_witness :
  let env := quiet 100 (Response 200 (Some (status_body 1))) in
  let s := start plugin1 in
  let cur := cycle_status env (plug s) "123" in
  let new := dict_get cur "live_status" in
  let prev := default (JInt 0) (live_status_cache (plug s) !! "123") in
  ∃ s' evs,
    cycle_body env s = (Returned tt, s') ∧
    trace s' = (trace s ++ evs)%list ∧
    (SendLive "123" ∈ evs ↔ is_live new = true ∧ is_live prev = false) ∧
    (SendEnd "123" ∈ evs ↔ is_live prev = true ∧ is_live new = false) ∧
    live_status_cache (plug s') !! "123"
      = Some (dict_get_or cur "live_status" (JInt 0)) ∧
    (∀ env2 s'' evs2,
       env_fault env2 = None →
       cycle_body env2 s' = (Returned tt, s'') →
       trace s'' = (trace s' ++ evs2)%list →
       is_live (dict_get (cycle_status env2 (plug s') "123") "live_status")
         = is_live new →
       (SendLive "123" ∉ evs2) ∧ (SendEnd "123" ∉ evs2)).
Proof.
  apply (transition_detection (quiet 100 (Response 200 (Some (status_body 1))))
           (start plugin1) "123" alice).
  - reflexivity.
  - apply NoDup_singleton.
  - left.
Defined.

Lemma backoff_bookkeeping_witness :
  let env := quiet 100 (Response 500 None) in
  let s := start plugin1 in
  let cur := cycle_status env (plug s) "123" in
  ∃ s', cycle_body env s = (Returned tt, s') ∧
    (is_empty cur = true →
       uid_error_counts (plug s') !! "123" = Some 1 ∧
       uid_skip_until (plug s') !! "123"
         = Some (100 + inject_Z (Z.min 300 (30 * 1)))%Q) ∧
    (is_empty cur = false →
       uid_error_counts (plug s') !! "123" = None ∧
       uid_skip_until (plug s') !! "123" = None ∧
       ∀ t, (0 <= t)%Q → eligible (plug s') t "123" = true).
Proof.
  apply (backoff_bookkeeping (quiet 100 (Response 500 None))
           (start plugin1) "123" alice).
  - reflexivity.
  - apply NoDup_singleton.
  - left.
Defined.

Lemma skipped_identifier_witness :
  let env := quiet 10 (Response 200 (Some (status_body 1))) in
  let s := start skipped_plugin in
  ("123" ∉ cycle_uids (plug s) (env_now env)) ∧
  cycle_status env (plug s) "123" = synthetic_status ∧
  ∃ s' evs,
    cycle_body env s = (Returned tt, s') ∧
    trace s' = (trace s ++ evs)%list ∧
    live_status_cache (plug s') !! "123" = Some (JInt 0) ∧
    (SendEnd "123" ∈ evs ↔ is_live (JInt 1) = true) ∧
    (SendLive "123" ∉ evs) ∧
    uid_error_counts (plug s') !! "123" = Some 2 ∧
    uid_skip_until (plug s') !! "123"
      = Some (10 + inject_Z (Z.min 300 (30 * 2)))%Q ∧
    (30 < 10 + inject_Z (Z.min 300 (30 * 2)))%Q.
Proof.
  apply (skipped_identifier_still_processed 0%Q
           (quiet 10 (Response 200 (Some (status_body 1))))
           (start skipped_plugin) "123" alice 30%Q).
  - reflexivity.
  - apply NoDup_singleton.
  - left.
  - reflexivity.
  - reflexivity.
  - split; intros uid x Hx; simpl in Hx.
    + apply lookup_singleton_Some in Hx as [_ <-]. lia.
    + apply lookup_singleton_Some in Hx as [<- <-].
      exists 1. split; [reflexivity|]. vm_compute. discriminate.
  - reflexivity.
Defined.

(** C4 as stated fails for a base above 300: with base 600 the interval
    after one cycle without rate limiting is 600, above the cap (and after
    one rate-limited cycle it is 300, below the base). *)
Lemma interval_leaves_bounds_for_large_base :
  interval_after 600 [false] = 600 ∧
  interval_after 600 [true] = 300 ∧
  ¬ (600 <= interval_after 600 [false] <= 300) ∧
  ¬ (600 <= interval_after 600 [true] <= 300).
Proof. vm_compute. repeat split; intros [H1 H2]; congruence. Qed.

Lemma interval_stays_bounded_witness :
  60 <= interval_after 60 [true; true; true; false; true] <= 300.
Proof. apply (interval_stays_bounded 60 [true; true; true; false; true]). lia. Defined.

(** C5 as stated fails: the first cycle's fetch is answered by a 429, the
    second cycle's by a 500, not a 429; yet the second interval update sees
    the flag set and doubles the interval from 120 to 240, where an update
    that saw it cleared would give 90. *)
Lemma rate_limit_signal_outlives_its_cycle :
  let r1 := cycle_body (quiet 100 (Response 429 None)) (start plugin1) in
  let r2 := cycle_body (quiet 220 (Response 500 None)) r1.2 in
  r1.1 = Returned tt ∧ r2.1 = Returned tt ∧
  current_interval (plug r1.2) = 120 ∧
  _last_rate_limited (plug r2.2) = true ∧
  current_interval (plug r2.2) = 240 ∧
  interval_update 60 120 false = 90.
Proof. vm_compute. done. Qed.

(** The fetch of a cycle is answered by a 429; while the cycle sleeps a
    check of "123" is answered with success.  The interval update then
    sees the flag cleared and leaves the interval at 60, where the same
    cycle without the check doubles it to 120. *)
Example lookup_during_sleep_clears_flag :
  let env := quiet 100 (Response 429 None) in
  let check := (Response 200 (Some (status_body 1)), "123") in
  let r := cycle_body_among env [check] (start plugin1) in
  let r0 := cycle_body env (start plugin1) in
  r.1 = Returned tt ∧
  _last_rate_limited (plug r.2) = false ∧ current_interval (plug r.2) = 60 ∧
  _last_rate_limited (plug r0.2) = true ∧ current_interval (plug r0.2) = 120.
Proof. vm_compute. done. Qed.

Lemma rate_limit_signal_latched_witness :
  let env := quiet 100 (Response 429 None) in
  let meanwhile := [(Response 200 (Some (status_body 1)), "123")] in
  let s := start plugin1 in
  let uids := cycle_uids (plug s) (env_now env) in
  let after_fetch :=
    (get_live_status_batch (env_http env) uids (_last_rate_limited (plug s))).2 in
  let seen :=
    fold_left (λ f c, (get_live_status c.1 c.2 f).2) meanwhile after_fetch in
  ∃ s', cycle_body_among env meanwhile s = (Returned tt, s') ∧
     _last_rate_limited (plug s') = seen ∧
     current_interval (plug s')
       = interval_update (check_interval (plug s)) (current_interval (plug s))
                         seen.
Proof.
  refine (proj1 (rate_limit_signal_latched
                   (quiet 100 (Response 429 None))
                   [(Response 200 (Some (status_body 1)), "123")]
                   (start plugin1) _ _)).
  - reflexivity.
  - discriminate.
Defined.

(** C6 as stated fails: "123" is registered, added by bob at time 10; the
    add command for "123" sent by carol at time 20 is accepted, and the
    entry now carries carol and time 20. *)
Lemma add_monitor_overwrites_existing :
  let r := add_monitor (Response 200 (Some (status_body 0))) 20 add_123 plugin1 in
  dict_lookup (monitored_uids plugin1) "123" = Some alice ∧
  r.1 = Returned (ReplyAdded (JStr "Alice") "123") ∧
  added_time <$> dict_lookup (monitored_uids r.2) "123" = Some 20%Q ∧
  added_by <$> dict_lookup (monitored_uids r.2) "123" = Some "carol" ∧
  added_time alice = 10%Q ∧
  monitored_uids r.2 ≠ monitored_uids plugin1.
Proof. vm_compute. repeat split; try done. Qed.

Lemma add_monitor_existing_witness :
  let r := Response 200 (Some (status_body 0)) in
  ∃ st flag' v rp p',
    get_live_status r "123" (_last_rate_limited plugin1) = (Returned st, flag') ∧
    dict_lookup st "live_status" = Some v ∧
    add_monitor r 20 add_123 plugin1 = (Returned rp, p') ∧
    dict_keys (monitored_uids p') = dict_keys (monitored_uids plugin1) ∧
    (∀ u, u ≠ "123" →
       dict_lookup (monitored_uids p') u = dict_lookup (monitored_uids plugin1) u) ∧
    if isdigit "123"
       && (Z.of_nat (length (monitored_uids plugin1)) <? max_monitors plugin1)%Z
       && truthy (dict_get st "uname")
    then
      rp = ReplyAdded (dict_get_or st "uname" (JStr "未知UP主")) "123" ∧
      dict_lookup (monitored_uids p') "123"
        = Some {| uname := dict_get_or st "uname" (JStr "");
                  room_id := dict_get_or st "room_id" (JInt 0);
                  added_by := sender_name add_123;
                  added_time := 20;
                  unified_msg_origin := JStr (event_origin add_123) |} ∧
      live_status_cache p' !! "123" = Some v
    else
      monitored_uids p' = monitored_uids plugin1 ∧
      live_status_cache p' = live_status_cache plugin1.
Proof.
  apply (add_monitor_existing (Response 200 (Some (status_body 0))) 20 add_123
           plugin1 "/添加监控" "123" [] alice).
  - reflexivity.
  - reflexivity.
Defined.

(** ** Instances of the further properties *)

Lemma loop_keeps_backoff_maps_aligned_witness :
  let p' := plug (monitor_live_status
                    [quiet 10 (Response 200 (Some (status_body 1)));
                     quiet 100 (Response 500 None)] skipped_plugin).2 in
  dom (uid_skip_until p') = dom (uid_error_counts p') ∧
  (∀ uid c, uid_error_counts p' !! uid = Some c → 1 <= c).
Proof.
  apply (loop_keeps_backoff_maps_aligned
           [quiet 10 (Response 200 (Some (status_body 1)));
            quiet 100 (Response 500 None)] skipped_plugin).
  - simpl. by rewrite !dom_singleton_L.
  - intros uid c Hc. simpl in Hc.
    apply lookup_singleton_Some in Hc as [_ <-]. lia.
Defined.

Lemma sender_calls_alternate_witness :
  let envs := [quiet 100 (Response 200 (Some (status_body 1)));
               undeliverable 160 (Response 200 (Some (status_body 0)));
               failing 220;
               quiet 280 (Response 200 (Some (status_body 1)))] in
  replay (cached_live plugin1 "123")
         (calls "123" (trace (monitor_live_status envs plugin1).2))
  = Some (cached_live (plug (monitor_live_status envs plugin1).2) "123").
Proof.
  apply (sender_calls_alternate
           [quiet 100 (Response 200 (Some (status_body 1)));
            undeliverable 160 (Response 200 (Some (status_body 0)));
            failing 220;
            quiet 280 (Response 200 (Some (status_body 1)))] plugin1 "123").
  intros env Hin.
  repeat (apply elem_of_cons in Hin as [->|Hin]);
    try (split; [reflexivity | intros pt; discriminate]).
  by apply elem_of_nil in Hin.
Defined.

(** "123" is registered; while the request of list_monitors for it is
    awaited, another handler changes the size of the registry: the reply
    is the generic failure, where the undisturbed command lists one
    line. *)
Example list_monitors_fails_on_resize :
  let fetch := λ _ : string, Response 200 (Some (status_body 1)) in
  (list_monitors fetch (λ _, SizeChanged) plugin1).1 = Returned ListFailed ∧
  (list_monitors fetch (λ _, Unchanged) plugin1).1
  = Returned (ListOf [{| line_name := JStr "Alice"; line_uid := "123";
                         line_live := true |}]).
Proof. vm_compute. done. Qed.

Lemma idle_loop_only_sleeps_witness :
  let s := start (init_plugin 60 50 true true) in
  run_loop [quiet 1 ConnectionError; quiet 2 (Response 429 None)] s
  = (Continue, push s [Sleep 60; Sleep 60]).
Proof.
  apply (idle_loop_only_sleeps
           [quiet 1 ConnectionError; quiet 2 (Response 429 None)]
           (start (init_plugin 60 50 true true))).
  - reflexivity.
  - intros env Hin.
    repeat (apply elem_of_cons in Hin as [->|Hin]); try reflexivity.
    by apply elem_of_nil in Hin.
Defined.

Lemma failed_fetch_marks_everyone_offline_witness :
  let env := quiet 100 (Response 500 None) in
  let s := start live_plugin in
  ∃ s' evs,
    cycle_body env s = (Returned tt, s') ∧
    trace s' = (trace s ++ evs)%list ∧
    live_status_cache (plug s') !! "123" = Some (JInt 0) ∧
    (SendEnd "123" ∈ evs ↔ cached_live (plug s) "123" = true) ∧
    (SendLive "123" ∉ evs) ∧
    uid_error_counts (plug s') !! "123" = Some (0 + 1) ∧
    uid_skip_until (plug s') !! "123"
      = Some (100 + inject_Z (Z.min 300 (30 * (0 + 1))))%Q.
Proof.
  apply (failed_fetch_marks_everyone_offline (quiet 100 (Response 500 None))
           (start live_plugin) "123" alice).
  - reflexivity.
  - apply NoDup_singleton.
  - left.
  - reflexivity.
Defined.

Lemma remove_monitor_registered_witness :
  let st := store_of skipped_plugin in
  ∃ st',
    remove_monitor Written remove_123 st = (Returned (Removed "123"), st') ∧
    dict_lookup (monitored_uids (core st')) "123" = None ∧
    S (length (monitored_uids (core st'))) = length (monitored_uids (core st)) ∧
    NoDup (dict_keys (monitored_uids (core st'))) ∧
    (∀ u, u ≠ "123" →
       dict_lookup (monitored_uids (core st')) u
         = dict_lookup (monitored_uids (core st)) u) ∧
    live_status_cache (core st') = delete "123" (live_status_cache (core st)) ∧
    uid_error_counts (core st') = uid_error_counts (core st) ∧
    uid_skip_until (core st') = uid_skip_until (core st) ∧
    config_file st' = Holds (snapshot (core st')).
Proof.
  apply (remove_monitor_registered Written remove_123 (store_of skipped_plugin)
           "/移除监控" "123" [] alice).
  - reflexivity.
  - reflexivity.
  - apply NoDup_singleton.
  - reflexivity.
Defined.

Lemma status_records_have_four_keys_witness :
  dict_keys (fetched_status (Response 200 (Some (status_body 1))) "123")
  = ["live_status"; "room_id"; "title"; "uname"].
Proof.
  eapply (status_records_have_four_keys
            (Response 200 (Some (status_body 1))) ["123"; "456"] false _ _ "123").
  - vm_compute. reflexivity.
  - vm_compute. reflexivity.
Defined.

Lemma add_monitor_new_entry_witness :
  let r := Response 200 (Some (status_body 1)) in
  let p := init_plugin 60 50 true true in
  let st := fetched_status r "123" in
  ∃ p',
    add_monitor r 20 add_123 p
      = (Returned (ReplyAdded (dict_get_or st "uname" (JStr "未知UP主")) "123"), p') ∧
    monitored_uids p'
      = (monitored_uids p ++
         [("123", {| uname := dict_get_or st "uname" (JStr "");
                     room_id := dict_get_or st "room_id" (JInt 0);
                     added_by := sender_name add_123;
                     added_time := 20;
                     unified_msg_origin := JStr (event_origin add_123) |})])%list ∧
    (NoDup (dict_keys (monitored_uids p)) → NoDup (dict_keys (monitored_uids p'))) ∧
    live_status_cache p'
      = <["123" := dict_get st "live_status"]> (live_status_cache p) ∧
    uid_error_counts p' = uid_error_counts p ∧
    uid_skip_until p' = uid_skip_until p.
Proof.
  apply (add_monitor_new_entry (Response 200 (Some (status_body 1))) 20 add_123
           (init_plugin 60 50 true true) "/添加监控" "123" []).
  - reflexivity.
  - reflexivity.
  - simpl. lia.
  - reflexivity.
  - reflexivity.
Defined.

Lemma add_then_remove_restores_registry_witness :
  let r := Response 200 (Some (status_body 1)) in
  let st := store_of (init_plugin 60 50 true true) in
  ∃ name st1 st2,
    add_monitor_cmd Written r 20 add_123 st
      = (Returned (ReplyAdded name "123"), st1) ∧
    remove_monitor Written remove_123 st1 = (Returned (Removed "123"), st2) ∧
    monitored_uids (core st2) = monitored_uids (core st) ∧
    live_status_cache (core st2) = delete "123" (live_status_cache (core st)) ∧
    uid_error_counts (core st2) = uid_error_counts (core st) ∧
    uid_skip_until (core st2) = uid_skip_until (core st).
Proof.
  apply (add_then_remove_restores_registry Written Written
           (Response 200 (Some (status_body 1))) 20 add_123 remove_123
           (store_of (init_plugin 60 50 true true))
           "/添加监控" "123" [] "/移除监控" []).
  - reflexivity.
  - reflexivity.
  - reflexivity.
  - simpl. lia.
  - apply NoDup_nil_2.
  - reflexivity.
  - reflexivity.
Defined.

Lemma add_monitor_agrees_with_check_live_witness :
  let r := Response 200 (Some (status_body 1)) in
  let p := init_plugin 60 50 true true in
  ((add_monitor r 20 add_123 p).1 = Returned (ReplyNotFound "123") ↔
   (check_live r check_123 p).1 = Returned (CheckNotFound "123")) ∧
  ((∃ name title room,
      (check_live r check_123 p).1 = Returned (CheckLive name title room)) ↔
   (∃ name, (add_monitor r 20 add_123 p).1 = Returned (ReplyAdded name "123")) ∧
   cached_live (add_monitor r 20 add_123 p).2 "123" = true).
Proof.
  apply (add_monitor_agrees_with_check_live
           (Response 200 (Some (status_body 1))) 20 add_123 check_123
           (init_plugin 60 50 true true) "/添加监控" "123" [] "/检查直播" []).
  - reflexivity.
  - reflexivity.
  - reflexivity.
  - simpl. lia.
Defined.

Lemma legacy_file_is_migrated_witness :
  let st := {| core := init_plugin 60 50 true true; config_file := Absent;
               legacy_file := Holds legacy1 |} in
  let st1 := (load_config Written st).2 in
  let st2 := (load_config DumpFails st1).2 in
  core st1 = apply_saved legacy1 (core st) ∧
  config_file st1 = Holds (snapshot (core st1)) ∧
  legacy_file st1 = legacy_file st ∧
  st2 = st1.
Proof.
  apply (legacy_file_is_migrated DumpFails
           {| core := init_plugin 60 50 true true; config_file := Absent;
              legacy_file := Holds legacy1 |} legacy1).
  - reflexivity.
  - reflexivity.
Defined.

Lemma initialize_starts_once_witness :
  let h := init_host 60 50 true true (Holds legacy1) Absent in
  ∃ h',
    initialize lenv_ok h = (Returned tt, h') ∧
    _initialized h' = true ∧
    session h' = OpenSession ∧
    monitor_task h' = TaskRunning ∧
    disk h' = (load_config (config_write lenv_ok) (disk h)).2 ∧
    session_active (get_plugin_status h') = Some true ∧
    monitor_task_running (get_plugin_status h') = Some true ∧
    ∀ lenv', initialize lenv' h' = (Returned tt, h').
Proof.
  apply (initialize_starts_once lenv_ok
           (init_host 60 50 true true (Holds legacy1) Absent)).
  - reflexivity.
  - right. reflexivity.
  - right. reflexivity.
Defined.

Lemma initialize_failure_cleans_up_witness :
  let lenv := lenv_no_session in
  let h := init_host 60 50 true true (Holds legacy1) Absent in
  ∃ h',
    initialize lenv h = (Raised Exception, h') ∧
    _initialized h' = false ∧
    monitor_task h' ≠ TaskRunning ∧
    monitor_task_running (get_plugin_status h') ≠ Some true ∧
    (session_close lenv = Closes → session h' ≠ OpenSession) ∧
    (session h ≠ OpenSession ∧ session_created lenv = false →
     disk h' = disk h) ∧
    (session h = OpenSession ∨ session_created lenv = true →
     disk h' = (load_config (config_write lenv) (disk h)).2).
Proof.
  apply (initialize_failure_cleans_up lenv_no_session
           (init_host 60 50 true true (Holds legacy1) Absent)).
  - reflexivity.
  - left. split; [discriminate | reflexivity].
Defined.

Lemma restart_restores_saved_state_witness :
  let h := running skipped_plugin in
  let h1 := (terminate lenv_ok h).2 in
  let h2 := (initialize lenv_ok
               (init_host 90 50 false false (config_file (disk h1)) Absent)).2 in
  _initialized h2 = true ∧
  monitored_uids (core (disk h2)) = monitored_uids (core (disk h)) ∧
  live_status_cache (core (disk h2)) = live_status_cache (core (disk h)) ∧
  enable_notifications (core (disk h2)) = enable_notifications (core (disk h)) ∧
  enable_end_notifications (core (disk h2))
    = enable_end_notifications (core (disk h)) ∧
  uid_error_counts (core (disk h2)) = ∅ ∧
  uid_skip_until (core (disk h2)) = ∅ ∧
  current_interval (core (disk h2)) = 90.
Proof.
  apply (restart_restores_saved_state lenv_ok lenv_ok (running skipped_plugin)
           90 50 false false Absent).
  - discriminate.
  - reflexivity.
  - reflexivity.
  - reflexivity.
Defined.

(** "123" is live and was cached as live, but an empty record at time 0
    has put it in backoff until time 30.  It is removed and added again at
    time 20, the lookup finds it live; the cycle at time 25 still skips
    it, sets its cache to 0 and calls send_end_notification. *)
Lemma readded_identifier_is_still_skipped_witness :
  let r := Response 200 (Some (status_body 1)) in
  let env := quiet 25 r in
  let st1 := (remove_monitor Written remove_123 (store_of skipped_plugin)).2 in
  let st2 := (add_monitor_cmd Written r 20 add_123 st1).2 in
  (∃ name, (add_monitor_cmd Written r 20 add_123 st1).1
           = Returned (ReplyAdded name "123")) ∧
  uid_skip_until (core st2) !! "123" = Some 30%Q ∧
  ("123" ∉ cycle_uids (core st2) (env_now env)) ∧
  ∃ s',
    cycle_body env (start (core st2)) = (Returned tt, s') ∧
    live_status_cache (plug s') !! "123" = Some (JInt 0) ∧
    (SendEnd "123" ∈ trace s' ↔
     is_live (dict_get (fetched_status r "123") "live_status") = true).
Proof.
  apply (readded_identifier_is_still_skipped Written Written
           (Response 200 (Some (status_body 1))) 20 add_123 remove_123
           (store_of skipped_plugin)
           (quiet 25 (Response 200 (Some (status_body 1))))
           "/添加监控" "123" [] "/移除监控" [] alice 30%Q).
  - reflexivity.
  - reflexivity.
  - reflexivity.
  - apply NoDup_singleton.
  - reflexivity.
  - simpl. lia.
  - reflexivity.
  - reflexivity.
  - reflexivity.
  - reflexivity.
Defined.
